(** * OnBoard-Assist: the chat pipeline of [server/routes/chat.js]

    A shallow embedding of the chat routes, of the two mongoose models they
    use ([models/KnowledgeBase.js], [models/Feedback.js], the conversation
    schema) and of [GeminiService.generateResponse], together with the
    properties the specification states about them.

    Conventions of the embedding.
    - A JavaScript string is a [string]: a sequence of code units below 256
      (the Latin-1 range).  Case mapping is JavaScript's on that range; the
      keyword patterns of the source are ASCII only, so a unit above 127
      never takes part in a match.
    - A mongoose collection is a [list] of documents in insertion order.
    - An asynchronous handler is a function of the [World] (the three
      collections and a script of injected storage faults) returning the
      HTTP response and the new world; [await] is sequencing.
    - Dates are natural numbers read from the environment. *)

From Stdlib Require Import String Ascii List Bool Arith Lia ZArith QArith.
From Stdlib Require Import Sorted Permutation DecimalString.
Import ListNotations.
Open Scope string_scope.
Open Scope nat_scope.

Set Implicit Arguments.

(* ===================================================================== *)
(** ** Strings as JavaScript uses them *)
(* ===================================================================== *)

Module Js.

Definition code (c : ascii) : nat := nat_of_ascii c.

Definition between (lo hi n : nat) : bool := (lo <=? n) && (n <=? hi).

(** [String.prototype.toLowerCase], one unit.  The capitals below 256 are
    [A-Z] and, in the upper half, 192 to 222 but for the multiplication sign
    at 215; each has its small letter 32 further up, and no other unit
    changes. *)
Definition lowerChar (c : ascii) : ascii :=
  let n := code c in
  if between 65 90 n || between 192 214 n || between 216 222 n
  then ascii_of_nat (n + 32)
  else c.

(** [String.prototype.toUpperCase], one unit; also the canonicalisation a
    regular expression with the [i] flag applies to both sides.  Three
    units below 256 have an upper-case form that is no unit below 256: the
    sharp s (223, which becomes two letters), the micro sign (181) and the y
    with diaeresis (255).  They are left as they are here: the
    canonicalisation of a pattern leaves the first as it is too and sends
    the other two to units no other unit below 256 is sent to, so a
    comparison of canonical forms is as in the code; a text upper-cased by
    the route, though, is the code's only when it holds none of the three. *)
Definition upperChar (c : ascii) : ascii :=
  let n := code c in
  if between 97 122 n || between 224 246 n || between 248 254 n
  then ascii_of_nat (n - 32)
  else c.

Fixpoint toLowerCase (s : string) : string :=
  match s with
  | EmptyString => EmptyString
  | String c r => String (lowerChar c) (toLowerCase r)
  end.

Fixpoint toUpperCase (s : string) : string :=
  match s with
  | EmptyString => EmptyString
  | String c r => String (upperChar c) (toUpperCase r)
  end.

(** The class [\w] of a regular expression: [[A-Za-z0-9_]]. *)
Definition isWordChar (c : ascii) : bool :=
  let n := code c in
  between 48 57 n || between 65 90 n || (n =? 95) || between 97 122 n.

(** The class [\s], which is also what [trim] removes. *)
Definition isSpace (c : ascii) : bool :=
  let n := code c in between 9 13 n || (n =? 32) || (n =? 160).

(** A line terminator, after which [^] matches under the [m] flag. *)
Definition isLineTerminator (c : ascii) : bool :=
  let n := code c in (n =? 10) || (n =? 13).

Fixpoint trimStart (s : string) : string :=
  match s with
  | EmptyString => EmptyString
  | String c r => if isSpace c then trimStart r else s
  end.

(** Drops trailing white space: a unit is kept when something that is not
    white space follows it or it is not white space itself. *)
Fixpoint trimEnd (s : string) : string :=
  match s with
  | EmptyString => EmptyString
  | String c r =>
      match trimEnd r with
      | EmptyString => if isSpace c then EmptyString else String c EmptyString
      | r' => String c r'
      end
  end.

Definition trim (s : string) : string := trimEnd (trimStart s).

(** [s.substring(0, n)]. *)
Fixpoint take (n : nat) (s : string) : string :=
  match n, s with
  | S k, String c r => String c (take k r)
  | _, _ => EmptyString
  end.

(** [s.substring(n)]. *)
Fixpoint drop (n : nat) (s : string) : string :=
  match n, s with
  | S k, String _ r => drop k r
  | _, _ => s
  end.

(** [hay.includes(needle)]. *)
Fixpoint includes (needle hay : string) : bool :=
  prefix needle hay ||
  match hay with
  | EmptyString => false
  | String _ r => includes needle r
  end.

(** A value is truthy as a string when it is not empty. *)
Definition truthy (s : string) : bool :=
  match s with EmptyString => false | _ => true end.

(** [a || b] on strings. *)
Definition orElse (a b : string) : string := if truthy a then a else b.

Definition dquote : string := String (ascii_of_nat 34) EmptyString.
Definition backquote : string := String (ascii_of_nat 96) EmptyString.
Definition nl : string := String (ascii_of_nat 10) EmptyString.

(** [parts.join(sep)]. *)
Fixpoint join (sep : string) (parts : list string) : string :=
  match parts with
  | [] => EmptyString
  | [p] => p
  | p :: rest => p ++ sep ++ join sep rest
  end.

End Js.

(* ===================================================================== *)
(** ** Keyword patterns: [/\b(w1|w2|...)\b/i] *)
(* ===================================================================== *)

Module Pattern.

(** The alternatives between the two word boundaries. *)
Definition t := list string.

(** Matches the literal [lit] at the head of [s], comparing canonicalised
    units; gives the last unit consumed (or [prev] when [lit] is empty) and
    the rest of [s]. *)
Fixpoint literalAt (lit s : string) (prev : option ascii)
  : option (option ascii * string) :=
  match lit with
  | EmptyString => Some (prev, s)
  | String a lit' =>
      match s with
      | EmptyString => None
      | String c s' =>
          if Ascii.eqb (Js.upperChar a) (Js.upperChar c)
          then literalAt lit' s' (Some c)
          else None
      end
  end.

Definition wordy (o : option ascii) : bool :=
  match o with Some c => Js.isWordChar c | None => false end.

Definition head (s : string) : option ascii :=
  match s with EmptyString => None | String c _ => Some c end.

(** [\b] between the unit before and the unit after a position. *)
Definition boundary (before after : option ascii) : bool :=
  xorb (wordy before) (wordy after).

(** The pattern anchored at one position: the alternatives are tried in
    order and the engine backtracks into the next one when the closing
    boundary fails, so the position matches when some alternative does. *)
Definition matchesAt (p : t) (prev : option ascii) (s : string) : bool :=
  boundary prev (head s) &&
  existsb (fun alt =>
             match literalAt alt s prev with
             | Some (last, rest) => boundary last (head rest)
             | None => false
             end) p.

Fixpoint scan (p : t) (prev : option ascii) (s : string) : bool :=
  matchesAt p prev s ||
  match s with
  | EmptyString => false
  | String c r => scan p (Some c) r
  end.

(** [pattern.test(s)]. *)
Definition test (p : t) (s : string) : bool := scan p None s.

End Pattern.

(* ===================================================================== *)
(** ** Intent and quick replies ([routes/chat.js]) *)
(* ===================================================================== *)

(** The [intents] object of [analyzeQueryIntent]; [Object.entries] walks its
    keys in the order they are written. *)
Definition intents : list (string * Pattern.t) :=
  [ ("greeting", ["hello"; "hi"; "hey"; "greetings"; "good morning";
                  "good afternoon"; "welcome"]);
    ("thanks", ["thanks"; "thank you"; "appreciate"; "grateful"]);
    ("policy", ["policy"; "policies"; "rule"; "rules"; "guideline";
                "guidelines"; "procedure"]);
    ("benefit", ["benefit"; "benefits"; "insurance"; "health"; "401k";
                 "retirement"; "wellness"]);
    ("hr", ["hr"; "human resources"; "leave"; "vacation"; "holiday";
            "time off"; "pto"; "payroll"]);
    ("it", ["it"; "tech"; "technical"; "computer"; "laptop"; "software";
            "hardware"; "password"; "login"; "email"]);
    ("emergency", ["emergency"; "urgent"; "immediate"; "help now"; "critical";
                   "asap"]);
    ("equipment", ["equipment"; "laptop"; "phone"; "desk"; "chair"; "monitor";
                   "hardware"]);
    ("training", ["training"; "onboarding"; "orientation"; "learn"; "course";
                  "tutorial"]) ].

(** The [for ... of] loop: the first entry whose pattern matches returns. *)
Fixpoint firstIntent (table : list (string * Pattern.t)) (lowerQuery : string)
  : string :=
  match table with
  | [] => "general"
  | (intent, pattern) :: rest =>
      if Pattern.test pattern lowerQuery then intent
      else firstIntent rest lowerQuery
  end.

Definition analyzeQueryIntent (query : string) : string :=
  let lowerQuery := Js.toLowerCase query in
  firstIntent intents lowerQuery.

(** An element of the quick-reply array.  [labels[cat]] reads a property of
    an object literal, so a category that names a member of
    [Object.prototype] yields that member, which is truthy and is no string;
    two such members are the same value exactly when their names agree. *)
Inductive Reply : Type :=
| Text (s : string)
| Inherited (key : string).

Definition Reply_eqb (a b : Reply) : bool :=
  match a, b with
  | Text x, Text y => String.eqb x y
  | Inherited x, Inherited y => String.eqb x y
  | _, _ => false
  end.

Definition prototypeKeys : list string :=
  [ "constructor"; "__defineGetter__"; "__defineSetter__"; "hasOwnProperty";
    "__lookupGetter__"; "__lookupSetter__"; "isPrototypeOf";
    "propertyIsEnumerable"; "toString"; "valueOf"; "__proto__";
    "toLocaleString" ].

Definition labels : list (string * string) :=
  [ ("policy", "Company policies");
    ("benefits", "Employee benefits");
    ("it", "IT support");
    ("hr", "HR questions");
    ("general", "General information") ].

Fixpoint assoc (k : string) (table : list (string * string)) : option string :=
  match table with
  | [] => None
  | (k', v) :: rest => if String.eqb k k' then Some v else assoc k rest
  end.

(** [labels[cat] || `${cat} info`]. *)
Definition labelOf (cat : string) : Reply :=
  match assoc cat labels with
  | Some l => Text l
  | None =>
      if existsb (String.eqb cat) prototypeKeys then Inherited cat
      else Text (cat ++ " info")
  end.

(** Insertion into a [Set]: a value already present is not added again. *)
Section InsertionOrderedSet.
Variable A : Type.
Variable eqb : A -> A -> bool.

Definition setAdd (acc : list A) (x : A) : list A :=
  if existsb (eqb x) acc then acc else acc ++ [x].

(** [new Set(xs)] read back with [Array.from] or a spread. *)
Definition setOf (xs : list A) : list A := fold_left setAdd xs [].
End InsertionOrderedSet.

(** What [searchKnowledgeBase] hands on for one entry. *)
Record KnowledgeDoc : Type := mkDoc {
  doc_id : nat;
  doc_title : string;
  doc_content : string;
  doc_category : string;
  doc_summary : string;
  doc_score : nat
}.

Definition defaultReplies : list string :=
  [ "What are the working hours?";
    "How do I request vacation?";
    "Who do I contact for IT issues?";
    "What benefits are available?" ].

(** The categories collected by the [forEach]: a falsy one is skipped. *)
Definition categoriesOf (knowledgeResults : list KnowledgeDoc) : list string :=
  setOf String.eqb
        (filter Js.truthy (map doc_category knowledgeResults)).

Definition generateQuickReplies (userQuery : string)
           (knowledgeResults : list KnowledgeDoc) (userRole : string)
  : list Reply :=
  let categories := categoriesOf knowledgeResults in
  let categoryReplies := map labelOf categories in
  let allReplies := setOf Reply_eqb (map Text defaultReplies ++ categoryReplies) in
  firstn 5 allReplies.


(* ===================================================================== *)
(** ** Exceptions *)
(* ===================================================================== *)

(** A thrown value: an [Error] object, whose [name] and [message] are
    strings, or a value that has neither property (a thrown string, say). *)
Inductive Thrown : Type :=
| ErrorObject (name message : string)
| NonError.

Definition thrownMessage (e : Thrown) : option string :=
  match e with ErrorObject _ m => Some m | NonError => None end.

Definition thrownName (e : Thrown) : option string :=
  match e with ErrorObject n _ => Some n | NonError => None end.

(** What an awaited call comes back with. *)
Inductive Outcome (A : Type) : Type :=
| Ok (a : A)
| Throw (e : Thrown).
Arguments Ok {A} a.
Arguments Throw {A} e.

(* ===================================================================== *)
(** ** The language-model gateway ([GeminiService]) *)
(* ===================================================================== *)

Module GeminiService.

Definition getRoleContext (role : string) : string :=
  if String.eqb role "admin"
  then "Company Administrator (has access to all information)"
  else if String.eqb role "hr"
  then "HR Staff Member (has access to HR-related information)"
  else "New Employee (needs help with onboarding)".

Definition indent : string := "        ".

(** The template literal of [generateResponse], line by line. *)
Definition prompt (userQuestion context userRole userName : string) : string :=
  let roleContext := getRoleContext userRole in
  let nameContext :=
    if Js.truthy userName then " The user's name is " ++ userName ++ "."
    else "" in
  Js.join Js.nl
    [ "";
      indent ++ "ROLE: You are an AI assistant for new employees at a company."
             ++ nameContext;
      indent ++ "USER TYPE: " ++ roleContext;
      indent;
      indent ++ "CONTEXT FROM KNOWLEDGE BASE (use this information to answer):";
      indent ++ Js.orElse context
        "No specific context available. Use general knowledge about employee onboarding.";
      indent;
      indent ++ "USER QUESTION:";
      indent ++ Js.dquote ++ userQuestion ++ Js.dquote;
      indent;
      indent ++ "INSTRUCTIONS:";
      indent ++ "1. Answer based on the context provided above when possible";
      indent ++ "2. If the answer is not in the context, say: " ++ Js.dquote
             ++ "I don't have specific information about that in our knowledge base. Please contact "
             ++ (if String.eqb userRole "hr" then "your manager"
                 else "HR or your manager")
             ++ " for assistance." ++ Js.dquote;
      indent ++ "3. Be helpful, concise, and professional";
      indent ++ "4. Use bullet points for lists";
      indent ++ "5. End with a relevant follow-up question if appropriate";
      indent ++ "6. Format your response in clear paragraphs";
      indent ++ "7. Never mention that you're an AI or about the context/system";
      indent ++ "8. If it's a greeting, respond warmly";
      indent ++ "9. If it's a thank you, acknowledge politely";
      indent;
      indent ++ "RESPONSE (in plain text, no markdown):";
      "      " ].

(** [.replace(/^\*+/gm, '')]: the asterisks that open a line go. *)
Fixpoint stripStars (atLineStart : bool) (s : string) : string :=
  match s with
  | EmptyString => EmptyString
  | String c r =>
      if atLineStart && Ascii.eqb c "*"%char then stripStars true r
      else String c (stripStars (Js.isLineTerminator c) r)
  end.

(** Where the scan of [/^#+\s*/gm] stands. *)
Inductive HeaderScan : Type :=
| Copying (lineStart : bool)
| InHashes
| InSpaces (lineStart : bool).

(** [.replace(/^#+\s*/gm, '')]: a run of [#] that opens a line goes with the
    white space after it, line ends included; the next match may start
    right where this one stopped when that is again the start of a line. *)
Fixpoint stripHeaders (st : HeaderScan) (s : string) : string :=
  match s with
  | EmptyString => EmptyString
  | String c r =>
      let isHash := Ascii.eqb c "#"%char in
      let copy := String c (stripHeaders (Copying (Js.isLineTerminator c)) r) in
      match st with
      | Copying true => if isHash then stripHeaders InHashes r else copy
      | Copying false => copy
      | InHashes =>
          if isHash then stripHeaders InHashes r
          else if Js.isSpace c
               then stripHeaders (InSpaces (Js.isLineTerminator c)) r
               else copy
      | InSpaces ls =>
          if Js.isSpace c
          then stripHeaders (InSpaces (Js.isLineTerminator c)) r
          else if ls && isHash then stripHeaders InHashes r
               else copy
      end
  end.

Definition fence : string := Js.backquote ++ Js.backquote ++ Js.backquote.

(** Splits at the first fence: what is before it and what is after it. *)
Fixpoint splitAtFence (s : string) : option (string * string) :=
  if prefix fence s then Some (EmptyString, Js.drop 3 s)
  else
    match s with
    | EmptyString => None
    | String c r =>
        match splitAtFence r with
        | Some (pre, post) => Some (String c pre, post)
        | None => None
        end
    end.

(** [.replace(/```[\s\S]*?```/g, '')]: each fence goes with the nearest
    closing one and all between; an opening fence that nothing closes stays,
    and then so does the rest.  Every round consumes six units at least, so
    [String.length s] rounds are enough. *)
Fixpoint stripFences (rounds : nat) (s : string) : string :=
  match rounds with
  | O => s
  | S k =>
      match splitAtFence s with
      | None => s
      | Some (pre, body) =>
          match splitAtFence body with
          | None => s
          | Some (_, post) => pre ++ stripFences k post
          end
      end
  end.

Definition cleanResponse (raw : string) : string :=
  let a := stripStars true raw in
  let b := stripHeaders (Copying true) a in
  let c := stripFences (String.length b) b in
  Js.trim c.

Definition unavailableReply : string :=
  "I apologize, but the AI service is currently unavailable due to technical issues. Please try again later or contact IT support for assistance.".

Definition mockReply (userQuestion : string) : string :=
  "I'm having trouble connecting to the AI brain specifically, but I can still allow you to test the interface! (Error: Invalid API Key). "
    ++ Js.nl ++ Js.nl ++ "Normally I would answer your question about "
    ++ Js.dquote ++ userQuestion ++ Js.dquote ++ " based on company policy.".

(** Reading [.includes] of a [message] that is [undefined]. *)
Definition typeErrorIncludes : Thrown :=
  ErrorObject "TypeError"
              "Cannot read properties of undefined (reading 'includes')".

(** The [catch] block.  It reads [error.message.includes] without a guard,
    so a thrown value that carries no message makes the block itself
    throw. *)
Definition onModelError (error : Thrown) (userQuestion : string)
  : Outcome string :=
  match thrownMessage error with
  | None => Throw typeErrorIncludes
  | Some message =>
      if Js.includes "API_KEY_INVALID" message || Js.includes "quota" message
      then Ok unavailableReply
      else Ok (mockReply userQuestion)
  end.

(** [model] stands for [this.model.generateContent(prompt)] followed by
    [response.text()]: the text produced, or what either call threw. *)
Definition generateResponse (model : string -> Outcome string)
           (userQuestion context userRole userName : string)
  : Outcome string :=
  match model (prompt userQuestion context userRole userName) with
  | Ok text => Ok (cleanResponse text)
  | Throw error => onModelError error userQuestion
  end.

End GeminiService.

(* ===================================================================== *)
(** ** Documents *)
(* ===================================================================== *)

(** A number turned into a string, by a template literal or in a message. *)
Definition decimal (n : nat) : string := NilZero.string_of_uint (Nat.to_uint n).

Definition decimalZ (z : Z) : string :=
  if (z <? 0)%Z then "-" ++ decimal (Z.to_nat (- z)) else decimal (Z.to_nat z).

(** An [ObjectId]; the embedding takes every id a request carries to be
    well formed, so no cast of an id fails. *)
Definition ObjectId := nat.

(** [models/KnowledgeBase.js]. *)
Record KnowledgeEntry : Type := mkEntry {
  kb_id : ObjectId;
  kb_title : string;
  kb_content : string;
  kb_summary : string;
  kb_category : string;
  kb_accessRoles : list string;
  kb_isActive : bool;
  kb_viewCount : nat;
  kb_lastAccessed : option nat
}.

Inductive MessageRole : Type := RoleUser | RoleBot | RoleSystem.

(** The message sub-document of a conversation.  Its [metadata] keeps the
    paths the schema declares ([intent], [length]); what the route adds
    beside them ([knowledgeSources], [responseTime], ...) is not stored. *)
Record Message : Type := mkMessage {
  msg_role : MessageRole;
  msg_content : string;
  msg_quickReplies : list Reply;
  msg_intent : option string;
  msg_length : option nat
}.

(** The [feedback] field stamped on a conversation. *)
Record SessionFeedback : Type := mkSessionFeedback {
  sf_rating : Z;
  sf_comment : string;
  sf_submittedAt : nat
}.

Record Conversation : Type := mkConversation {
  conv_id : ObjectId;
  conv_sessionId : string;
  conv_userId : ObjectId;
  conv_userEmail : string;
  conv_userName : string;
  conv_userRole : string;
  conv_messages : list Message;
  conv_feedback : option SessionFeedback;
  conv_updatedAt : nat
}.

(** [models/Feedback.js].  The route also passes [comment], a path the
    schema does not have, so nothing of it is stored. *)
Record Feedback : Type := mkFeedback {
  fb_id : ObjectId;
  fb_conversationId : ObjectId;
  fb_userId : ObjectId;
  fb_userEmail : string;
  fb_userRole : string;
  fb_question : string;
  fb_botResponse : string;
  fb_rating : Z;
  fb_isHelpful : bool;
  fb_category : string;
  fb_responseTime : nat;
  fb_sourceCount : nat;
  fb_createdAt : nat
}.

(** [req.user], the decoded token the auth middleware injects. *)
Record User : Type := mkUser {
  user_id : ObjectId;
  user_email : string;
  user_name : string;
  user_role : string
}.

(* ===================================================================== *)
(** ** The world and the handler monad *)
(* ===================================================================== *)

(** The three collections, and the storage faults still to come: every call
    that reaches the database takes the head of [faults] and throws it when
    it is an error. *)
Record World : Type := mkWorld {
  conversations : list Conversation;
  feedbacks : list Feedback;
  knowledge : list KnowledgeEntry;
  faults : list (option Thrown)
}.

(** What a request reads from outside the stores. *)
Record Env : Type := mkEnv {
  now : nat;                      (* [new Date()] *)
  clock : string;                 (* [Date.now()] in decimal *)
  random : string;                (* [Math.random().toString(36).substr(2, 9)] *)
  freshId : ObjectId;             (* the id of a document made by [new] *)
  textScore : string -> KnowledgeEntry -> option nat;
                                  (* the [$text] index: the rank of a match *)
  gemini : string -> Outcome string;
  latency : nat;                  (* [Date.now() - startTime] *)
  castFailure : nat -> list Reply -> string
                                  (* what mongoose's [CastError] says of the
                                     quick replies of message [n]: it prints
                                     the value as [util.inspect] does *)
}.

Definition M (A : Type) : Type := World -> Outcome A * World.

Definition ret {A} (a : A) : M A := fun w => (Ok a, w).

Definition bind {A B} (m : M A) (k : A -> M B) : M B :=
  fun w =>
    match m w with
    | (Ok a, w') => k a w'
    | (Throw e, w') => (Throw e, w')
    end.

Definition throw {A} (e : Thrown) : M A := fun w => (Throw e, w).

Definition lift {A} (o : Outcome A) : M A := fun w => (o, w).

(** [try { body } catch (error) { handler }]: what [body] wrote stays. *)
Definition tryCatch {A} (body : M A) (handler : Thrown -> M A) : M A :=
  fun w =>
    match body w with
    | (Ok a, w') => (Ok a, w')
    | (Throw e, w') => handler e w'
    end.

Declare Scope handler_scope.
Delimit Scope handler_scope with handler.
Notation "x <- m ;; k" := (bind m (fun x => k))
  (at level 61, m at next level, right associativity) : handler_scope.
Notation "m ;;; k" := (bind m (fun _ => k))
  (at level 61, right associativity) : handler_scope.
Open Scope handler_scope.

(** One round trip to the database. *)
Definition roundTrip : M unit :=
  fun w =>
    match faults w with
    | [] => (Ok tt, w)
    | f :: rest =>
        let w' := mkWorld (conversations w) (feedbacks w) (knowledge w) rest in
        match f with
        | None => (Ok tt, w')
        | Some e => (Throw e, w')
        end
    end.

Definition getConversations : M (list Conversation) :=
  fun w => (Ok (conversations w), w).
Definition putConversations (cs : list Conversation) : M unit :=
  fun w => (Ok tt, mkWorld cs (feedbacks w) (knowledge w) (faults w)).
Definition getFeedbacks : M (list Feedback) :=
  fun w => (Ok (feedbacks w), w).
Definition putFeedbacks (fs : list Feedback) : M unit :=
  fun w => (Ok tt, mkWorld (conversations w) fs (knowledge w) (faults w)).
Definition getKnowledge : M (list KnowledgeEntry) :=
  fun w => (Ok (knowledge w), w).
Definition putKnowledge (ks : list KnowledgeEntry) : M unit :=
  fun w => (Ok tt, mkWorld (conversations w) (feedbacks w) ks (faults w)).

(* ===================================================================== *)
(** ** Queries shared by the models *)
(* ===================================================================== *)

Section Queries.
Variable A : Type.

(** Insertion into a list kept in descending order of [key]; equal keys
    keep their order of arrival. *)
Fixpoint insertDesc (key : A -> nat) (x : A) (l : list A) : list A :=
  match l with
  | [] => [x]
  | y :: r => if key y <? key x then x :: l else y :: insertDesc key x r
  end.

(** [.sort({ field: -1 })]. *)
Definition sortDesc (key : A -> nat) (l : list A) : list A :=
  fold_left (fun acc x => insertDesc key x acc) l [].

(** [.limit(n)]; a limit of zero is no limit. *)
Definition limit (n : nat) (l : list A) : list A :=
  if n =? 0 then l else firstn n l.

(** [updateOne]: the first document the filter selects is rewritten. *)
Fixpoint updateFirst (sel : A -> bool) (f : A -> A) (l : list A) : list A :=
  match l with
  | [] => []
  | x :: r => if sel x then f x :: r else x :: updateFirst sel f r
  end.

(** [deleteOne]. *)
Fixpoint removeFirst (sel : A -> bool) (l : list A) : list A :=
  match l with
  | [] => []
  | x :: r => if sel x then r else x :: removeFirst sel r
  end.
End Queries.

(* ===================================================================== *)
(** ** [models/KnowledgeBase.js] *)
(* ===================================================================== *)

Module KnowledgeBase.

(** [$or: [{ accessRoles: { $in: [userRole] } }, { accessRoles: { $size: 0 } }]]. *)
Definition roleAllowed (userRole : string) (e : KnowledgeEntry) : bool :=
  existsb (String.eqb userRole) (kb_accessRoles e)
  || (List.length (kb_accessRoles e) =? 0).

(** The filter of [searchByRole]: the text index matches, the entry is
    active, the role is allowed. *)
Definition selected (score : string -> KnowledgeEntry -> option nat)
           (query userRole : string) (e : KnowledgeEntry) : bool :=
  match score query e with
  | Some _ => kb_isActive e && roleAllowed userRole e
  | None => false
  end.

Definition rank (score : string -> KnowledgeEntry -> option nat)
           (query : string) (e : KnowledgeEntry) : nat :=
  match score query e with Some n => n | None => 0 end.

(** The query [searchByRole] builds, run on the collection. *)
Definition runSearch (score : string -> KnowledgeEntry -> option nat)
           (query userRole : string) (n : nat) (kb : list KnowledgeEntry)
  : list KnowledgeEntry :=
  limit n (sortDesc (rank score query) (filter (selected score query userRole) kb)).

Definition searchByRole (env : Env) (query userRole : string) (n : nat)
  : M (list KnowledgeEntry) :=
  roundTrip ;;;
  kb <- getKnowledge ;;
  ret (runSearch (textScore env) query userRole n kb).

Definition sameId (id : ObjectId) (e : KnowledgeEntry) : bool := kb_id e =? id.

Definition viewed (at_ : nat) (e : KnowledgeEntry) : KnowledgeEntry :=
  mkEntry (kb_id e) (kb_title e) (kb_content e) (kb_summary e) (kb_category e)
          (kb_accessRoles e) (kb_isActive e) (kb_viewCount e + 1) (Some at_).

(** [findByIdAndUpdate(id, { $inc: { viewCount: 1 }, lastAccessed })]. *)
Definition findByIdAndUpdate (env : Env) (id : ObjectId) : M unit :=
  roundTrip ;;;
  kb <- getKnowledge ;;
  putKnowledge (updateFirst (sameId id) (viewed (now env)) kb).

End KnowledgeBase.

(* ===================================================================== *)
(** ** The conversation model *)
(* ===================================================================== *)

Module ConversationModel.

(** The [ValidationError] of mongoose: its message names the model and
    lists, path by path, what failed. *)
Definition validationError (what : string) (errors : list string) : Thrown :=
  ErrorObject "ValidationError"
              (what ++ " validation failed: " ++ Js.join ", " errors).

(** The validator [required: true] of a string path. *)
Definition requiredError (fullPath path value : string) : list string :=
  if Js.truthy value then []
  else [fullPath ++ ": Path `" ++ path ++ "` is required."].

Definition duplicateKey : Thrown :=
  ErrorObject "MongoServerError" "E11000 duplicate key error collection".

Definition bySession (sessionId : string) (userId : ObjectId)
           (c : Conversation) : bool :=
  String.eqb (conv_sessionId c) sessionId && (conv_userId c =? userId).

Definition byId (id : ObjectId) (userId : ObjectId) (c : Conversation) : bool :=
  (conv_id c =? id) && (conv_userId c =? userId).

Definition byUser (userId : ObjectId) (c : Conversation) : bool :=
  conv_userId c =? userId.

(** [Conversation.findOne(filter)]. *)
Definition findOne (sel : Conversation -> bool) : M (option Conversation) :=
  roundTrip ;;;
  cs <- getConversations ;;
  ret (find sel cs).

(** [Conversation.find(filter).sort({ updatedAt: -1 }).limit(n)]. *)
Definition findSorted (sel : Conversation -> bool) (n : nat)
  : M (list Conversation) :=
  roundTrip ;;;
  cs <- getConversations ;;
  ret (limit n (sortDesc conv_updatedAt (filter sel cs))).

(** The text [Function.prototype.toString] gives for the native function a
    key of [Object.prototype] names; [constructor] names [Object]. *)
Definition nativeSource (key : string) : string :=
  "function " ++ (if String.eqb key "constructor" then "Object" else key)
  ++ "() { [native code] }".

(** The cast of an element of [quickReplies: [String]].  A string is kept.
    A function is cast with its own [toString], which gives its source
    text.  The value of the key [__proto__] is [Object.prototype] itself,
    whose [toString] is the default one: mongoose refuses to cast it. *)
Definition castReply (r : Reply) : option string :=
  match r with
  | Text s => Some s
  | Inherited key =>
      if String.eqb key "__proto__" then None else Some (nativeSource key)
  end.

Definition castable (r : Reply) : bool :=
  match castReply r with Some _ => true | None => false end.

(** The quick replies as they are stored: strings, all of them.  An array
    with an element that has no cast is not set at all. *)
Definition castReplies (quickReplies : list Reply) : list Reply :=
  if forallb castable quickReplies
  then map (fun r => match castReply r with Some s => Text s | None => r end)
           quickReplies
  else [].

(** A message the request pushed passes when its content, trimmed, is not
    empty and every quick reply has a cast. *)
Definition validMessage (m : Message) : bool :=
  Js.truthy (Js.trim (msg_content m)) && forallb castable (msg_quickReplies m).

(** What the validation reports for the message at index [n]. *)
Definition messageErrors (env : Env) (n : nat) (m : Message) : list string :=
  (if forallb castable (msg_quickReplies m) then []
   else [castFailure env n (msg_quickReplies m)])
  ++ requiredError ("messages." ++ decimal n ++ ".content") "content"
                   (Js.trim (msg_content m)).

Fixpoint pushedErrors (env : Env) (n : nat) (pushed : list Message)
  : list string :=
  match pushed with
  | [] => []
  | m :: rest => messageErrors env n m ++ pushedErrors env (S n) rest
  end.

(** The [trim] setter of [content] and the cast of [quickReplies]. *)
Definition castMessage (m : Message) : Message :=
  mkMessage (msg_role m) (Js.trim (msg_content m))
            (castReplies (msg_quickReplies m))
            (msg_intent m) (msg_length m).

Definition touch (at_ : nat) (c : Conversation) : Conversation :=
  mkConversation (conv_id c) (conv_sessionId c) (conv_userId c)
                 (conv_userEmail c) (conv_userName c) (conv_userRole c)
                 (conv_messages c) (conv_feedback c) at_.

Definition push (m : Message) (c : Conversation) : Conversation :=
  mkConversation (conv_id c) (conv_sessionId c) (conv_userId c)
                 (conv_userEmail c) (conv_userName c) (conv_userRole c)
                 (conv_messages c ++ [castMessage m]) (conv_feedback c)
                 (conv_updatedAt c).

Definition stamp (f : SessionFeedback) (c : Conversation) : Conversation :=
  mkConversation (conv_id c) (conv_sessionId c) (conv_userId c)
                 (conv_userEmail c) (conv_userName c) (conv_userRole c)
                 (conv_messages c) (Some f) (conv_updatedAt c).

Definition clashes (c d : Conversation) : bool :=
  (conv_id d =? conv_id c) || String.eqb (conv_sessionId d) (conv_sessionId c).

(** [conversation.save()].  [pushed] are the messages this request added,
    the last ones of [c]: mongoose validates what was modified, then writes.
    A document made by [new] is inserted, and the unique index on
    [sessionId] (and on [_id]) refuses a duplicate; a document that was read
    is rewritten in place. *)
Definition save (env : Env) (isNew : bool) (pushed : list Message)
           (c : Conversation) : M unit :=
  if negb (forallb validMessage pushed)
  then throw (validationError "Conversation"
                (pushedErrors env
                   (List.length (conv_messages c) - List.length pushed) pushed))
  else
    roundTrip ;;;
    cs <- getConversations ;;
    let c' := touch (now env) c in
    if isNew
    then if existsb (clashes c) cs then throw duplicateKey
         else putConversations (cs ++ [c'])
    else putConversations
           (updateFirst (fun d => conv_id d =? conv_id c) (fun _ => c') cs).

(** [Conversation.findOneAndDelete(filter)]. *)
Definition findOneAndDelete (sel : Conversation -> bool)
  : M (option Conversation) :=
  roundTrip ;;;
  cs <- getConversations ;;
  match find sel cs with
  | None => ret None
  | Some c => putConversations (removeFirst sel cs) ;;; ret (Some c)
  end.

(** [Conversation.deleteMany(filter)], giving [deletedCount]. *)
Definition deleteMany (sel : Conversation -> bool) : M nat :=
  roundTrip ;;;
  cs <- getConversations ;;
  putConversations (filter (fun c => negb (sel c)) cs) ;;;
  ret (List.length (filter sel cs)).

End ConversationModel.

(* ===================================================================== *)
(** ** [models/Feedback.js] *)
(* ===================================================================== *)

Module FeedbackModel.

(** The schema on save: [question] and [botResponse] are required after
    trimming, [rating] lies between [min] and [max]; that it is an integer
    is in its type here. *)
Definition valid (f : Feedback) : bool :=
  Js.truthy (fb_question f) && Js.truthy (fb_botResponse f)
  && (1 <=? fb_rating f)%Z && (fb_rating f <=? 5)%Z.

(** The validators [min: 1] and [max: 5] of [rating]. *)
Definition ratingError (rating : Z) : list string :=
  if (rating <? 1)%Z
  then ["rating: Path `rating` (" ++ decimalZ rating
        ++ ") is less than minimum allowed value (1)."]
  else if (5 <? rating)%Z
  then ["rating: Path `rating` (" ++ decimalZ rating
        ++ ") is more than maximum allowed value (5)."]
  else [].

(** What the validation reports, in the order the paths were set. *)
Definition errors (f : Feedback) : list string :=
  ConversationModel.requiredError "question" "question" (fb_question f)
  ++ ConversationModel.requiredError "botResponse" "botResponse"
       (fb_botResponse f)
  ++ ratingError (fb_rating f).

(** The [trim] setters of [question] and [botResponse]. *)
Definition cast (f : Feedback) : Feedback :=
  mkFeedback (fb_id f) (fb_conversationId f) (fb_userId f) (fb_userEmail f)
             (fb_userRole f) (Js.trim (fb_question f))
             (Js.trim (fb_botResponse f)) (fb_rating f) (fb_isHelpful f)
             (fb_category f) (fb_responseTime f) (fb_sourceCount f)
             (fb_createdAt f).

(** [feedback.save()] of a document made by [new]. *)
Definition save (f : Feedback) : M unit :=
  let f' := cast f in
  if negb (valid f')
  then throw (ConversationModel.validationError "Feedback" (errors f'))
  else
    roundTrip ;;;
    fs <- getFeedbacks ;;
    if existsb (fun g => fb_id g =? fb_id f') fs
    then throw ConversationModel.duplicateKey
    else putFeedbacks (fs ++ [f']).

(** [Feedback.deleteMany(filter)]. *)
Definition deleteMany (sel : Feedback -> bool) : M nat :=
  roundTrip ;;;
  fs <- getFeedbacks ;;
  putFeedbacks (filter (fun f => negb (sel f)) fs) ;;;
  ret (List.length (filter sel fs)).

End FeedbackModel.

(* ===================================================================== *)
(** ** Requests and responses *)
(* ===================================================================== *)

(** The body of [POST /chat]; a field that is absent reads as the empty
    string, which the route treats alike. *)
Record ChatRequest : Type := mkChatRequest {
  req_message : string;
  req_sessionId : string
}.

(** The body of [POST /chat/feedback].  [fr_rating] is a JSON number, kept
    exact; [None] is a field that is absent. *)
Record FeedbackRequest : Type := mkFeedbackRequest {
  fr_conversationId : option ObjectId;
  fr_rating : option Q;
  fr_comment : string;
  fr_question : string;
  fr_response : string;
  fr_isHelpful : option bool
}.

Record SessionSummary : Type := mkSummary {
  sum_sessionId : string;
  sum_messageCount : nat;
  sum_lastMessage : string;
  sum_updatedAt : nat;
  sum_userRole : string
}.

Record ExportedMessage : Type := mkExported {
  ex_role : MessageRole;
  ex_content : string;
  ex_quickReplies : list Reply
}.

Inductive Payload : Type :=
| NoPayload
| ReplyOnly (reply : string)
| ChatTurn (reply sessionId : string) (quickReplies : list Reply)
           (conversationId : ObjectId) (sourcesCount : nat)
           (userRole : string) (responseTime : nat)
| NoSessions
| Transcript (sessionId : string) (messages : list Message)
             (updatedAt : nat) (userRole : string)
| Sessions (total : nat) (items : list SessionSummary)
| FeedbackId (id : ObjectId)
| Details (message : option string)
| Deleted (deletedCount : nat)
| Export (sessionId : string) (userId : ObjectId) (userName userEmail : string)
         (totalMessages : nat) (messages : list ExportedMessage)
         (userRole : string) (updatedAt : nat).

Record Response : Type := mkResponse {
  status : nat;
  success : option bool;
  error : option string;
  payload : Payload
}.

(** [res.json({ success: true, ... })] and
    [res.status(code).json({ success: false, error, ... })]. *)
Definition json (p : Payload) : Response := mkResponse 200 (Some true) None p.

Definition failure (code : nat) (err : string) (p : Payload) : Response :=
  mkResponse code (Some false) (Some err) p.

(** [res.json(body)] of a body that has no [success] key. *)
Definition plain (p : Payload) : Response := mkResponse 200 None None p.

(** An [async] route: the body's response, or the one its [catch] sends. *)
Definition route (body : M Response) (onError : Thrown -> Response)
  : World -> Response * World :=
  fun w =>
    match body w with
    | (Ok r, w') => (r, w')
    | (Throw e, w') => (onError e, w')
    end.

(** [await Promise.all(promises)]: every query is issued; the first one that
    fails, in the order of issue, is what the [await] throws. *)
Fixpoint promiseAll (promises : list (M unit)) : M unit :=
  match promises with
  | [] => ret tt
  | p :: rest =>
      fun w =>
        match p w with
        | (Ok _, w') => promiseAll rest w'
        | (Throw e, w') => (Throw e, snd (promiseAll rest w'))
        end
  end.

(* ===================================================================== *)
(** ** [routes/chat.js] *)
(* ===================================================================== *)

Definition generateSessionId (env : Env) : string :=
  "session_" ++ clock env ++ "_" ++ random env.

Definition toDoc (env : Env) (query : string) (e : KnowledgeEntry) : KnowledgeDoc :=
  mkDoc (kb_id e) (kb_title e) (Js.take 1000 (kb_content e)) (kb_category e)
        (kb_summary e) (KnowledgeBase.rank (textScore env) query e).

Definition searchKnowledgeBase (env : Env) (query userRole : string)
  : M (list KnowledgeDoc) :=
  tryCatch
    (results <- KnowledgeBase.searchByRole env query userRole 7 ;;
     ret (map (toDoc env query) results))
    (fun _ => ret []).

Definition contextOf (knowledgeContext : list KnowledgeDoc) : string :=
  match knowledgeContext with
  | [] => "No specific knowledge base entries found for this query."
  | _ =>
      Js.join (Js.nl ++ Js.nl)
        (map (fun doc => "[" ++ Js.toUpperCase (doc_category doc) ++ "] "
                         ++ doc_title doc ++ ":" ++ Js.nl ++ doc_content doc)
             knowledgeContext)
  end.

Definition newConversation (env : Env) (user : User) : Conversation :=
  mkConversation (freshId env) (generateSessionId env) (user_id user)
                 (user_email user) (user_name user) (user_role user) [] None
                 (now env).

Definition userMessage (message : string) : Message :=
  mkMessage RoleUser message [] (Some (analyzeQueryIntent message))
            (Some (String.length message)).

Definition botMessage (botResponse : string) (quickReplies : list Reply) : Message :=
  mkMessage RoleBot botResponse quickReplies None None.

(** The session a turn works on: the one the client named when the caller
    owns it, a new one otherwise; the flag tells a new one. *)
Definition resolveSession (env : Env) (user : User) (clientSessionId : string)
  : M (Conversation * bool) :=
  found <- (if Js.truthy clientSessionId
            then ConversationModel.findOne
                   (ConversationModel.bySession clientSessionId (user_id user))
            else ret None) ;;
  match found with
  | Some c => ret (c, false)
  | None => ret (newConversation env user, true)
  end.

(** What a turn holds once both messages are saved. *)
Record Turn : Type := mkTurn {
  turn_reply : string;
  turn_conversation : Conversation;
  turn_quickReplies : list Reply;
  turn_knowledge : list KnowledgeDoc;
  turn_userRole : string
}.

(** The turn from the session lookup to [await conversation.save()]. *)
Definition persistTurn (env : Env) (user : User) (req : ChatRequest) : M Turn :=
  let message := req_message req in
  let userRole := Js.orElse (user_role user) "employee" in
  session <- resolveSession env user (req_sessionId req) ;;
  let (conversation0, isNew) := session in
  let asked := userMessage message in
  let conversation1 := ConversationModel.push asked conversation0 in
  knowledgeContext <- searchKnowledgeBase env message userRole ;;
  let contextText := contextOf knowledgeContext in
  botResponse <- lift (GeminiService.generateResponse
                         (gemini env) message contextText userRole
                         (user_name user)) ;;
  let quickReplies := generateQuickReplies message knowledgeContext userRole in
  let answered := botMessage botResponse quickReplies in
  let conversation2 := ConversationModel.push answered conversation1 in
  ConversationModel.save env isNew [asked; answered] conversation2 ;;;
  ret (mkTurn botResponse conversation2 quickReplies knowledgeContext userRole).

(** The view counters of the entries used as context, awaited together. *)
Definition countViews (env : Env) (knowledgeContext : list KnowledgeDoc) : M unit :=
  promiseAll (map (fun doc => KnowledgeBase.findByIdAndUpdate env (doc_id doc))
                  knowledgeContext).

Definition chatReply (env : Env) (t : Turn) : Response :=
  json (ChatTurn (turn_reply t) (conv_sessionId (turn_conversation t))
                 (turn_quickReplies t) (conv_id (turn_conversation t))
                 (List.length (turn_knowledge t)) (turn_userRole t)
                 (latency env)).

Definition chatTurn (env : Env) (user : User) (req : ChatRequest) : M Response :=
  let message := req_message req in
  if negb (Js.truthy message) || (String.length (Js.trim message) =? 0)
  then ret (mkResponse 400 None (Some "Message is required")
                       (ReplyOnly "Please enter a question or message."))
  else if 1000 <? String.length message
  then ret (mkResponse 400 None (Some "Message too long")
              (ReplyOnly "Your message is too long. Please keep it under 1000 characters."))
  else
    t <- persistTurn env user req ;;
    countViews env (turn_knowledge t) ;;;
    ret (chatReply env t).

Definition mentions (needle : string) (message : option string) : bool :=
  match message with Some m => Js.includes needle m | None => false end.

(** The [catch] of [POST /chat]. *)
Definition chatError (error : Thrown) : Response :=
  if mentions "API key" (thrownMessage error)
     || mentions "Gemini" (thrownMessage error)
  then failure 503 "Internal server error"
         (ReplyOnly "The AI service is currently unavailable. Please try again later or contact IT support.")
  else if match thrownName error with
          | Some n => String.eqb n "MongoError"
          | None => false
          end
  then failure 503 "Internal server error"
         (ReplyOnly "Database connection issue. Please try again in a moment.")
  else failure 500 "Internal server error"
         (ReplyOnly "I'm having trouble processing your request. Please try again.").

(** [router.post('/')]. *)
Definition postChat (env : Env) (user : User) (req : ChatRequest)
  : World -> Response * World :=
  route (chatTurn env user req) chatError.

Definition internalError (_ : Thrown) : Response :=
  failure 500 "Internal server error" NoPayload.

Definition summaryOf (conv : Conversation) : SessionSummary :=
  mkSummary (conv_sessionId conv) (List.length (conv_messages conv))
            (match conv_messages conv with
             | [] => "No messages"
             | m :: r => Js.take 100 (msg_content (last r m))
             end)
            (conv_updatedAt conv) (conv_userRole conv).

(** [router.get(['/history', '/history/:sessionId'])]; [sessionId] is empty on
    the first path. *)
Definition getHistory (user : User) (sessionId : string)
  : World -> Response * World :=
  route
    (let userId := user_id user in
     let query := fun c =>
       ConversationModel.byUser userId c
       && (if Js.truthy sessionId then String.eqb (conv_sessionId c) sessionId
           else true) in
     found <- ConversationModel.findSorted query
                (if Js.truthy sessionId then 1 else 20) ;;
     match found with
     | [] => ret (failure 404 "No conversations found" NoSessions)
     | conversation :: _ =>
         if Js.truthy sessionId
         then ret (json (Transcript (conv_sessionId conversation)
                                    (conv_messages conversation)
                                    (conv_updatedAt conversation)
                                    (conv_userRole conversation)))
         else ret (json (Sessions (List.length found) (map summaryOf found)))
     end)
    internalError.

Definition Qltb (a b : Q) : bool := negb (Qle_bool b a).

(** [parseInt(rating)] of a number: its decimal rendering is read up to the
    point, which truncates.  (The rendering has no exponent for the numbers
    that reach this call, which lie between 1 and 5.) *)
Definition parseInt (rating : Q) : Z := Z.quot (Qnum rating) (Zpos (Qden rating)).

Definition isRole (r : MessageRole) (m : Message) : bool :=
  match r, msg_role m with
  | RoleUser, RoleUser | RoleBot, RoleBot | RoleSystem, RoleSystem => true
  | _, _ => false
  end.

(** The content of the last message of a list, or the empty string. *)
Definition lastContent (ms : list Message) : string :=
  match ms with
  | [] => ""
  | m :: r => msg_content (last r m)
  end.

Definition firstIntentOf (ms : list Message) : string :=
  match ms with
  | m :: _ => match msg_intent m with
              | Some i => Js.orElse i "general"
              | None => "general"
              end
  | [] => "general"
  end.

(** The document [new Feedback({...})] builds. *)
Definition feedbackOf (env : Env) (user : User) (conversationId : ObjectId)
           (rating : Q) (req : FeedbackRequest) (conversation : Conversation)
  : Feedback :=
  let userMessages := filter (isRole RoleUser) (conv_messages conversation) in
  let botMessages := filter (isRole RoleBot) (conv_messages conversation) in
  let lastQuestion := Js.orElse (fr_question req) (lastContent userMessages) in
  let lastResponse := Js.orElse (fr_response req) (lastContent botMessages) in
  mkFeedback (freshId env) conversationId (user_id user) (user_email user)
             (user_role user) lastQuestion lastResponse (parseInt rating)
             (match fr_isHelpful req with
              | Some true => true
              | _ => Qle_bool 4 rating
              end)
             (firstIntentOf (conv_messages conversation)) 0 0 (now env).

Definition feedbackError (error : Thrown) : Response :=
  failure 500 "Failed to submit feedback" (Details (thrownMessage error)).

(** [router.post('/feedback')]. *)
Definition postFeedback (env : Env) (user : User) (req : FeedbackRequest)
  : World -> Response * World :=
  route
    (match fr_conversationId req, fr_rating req with
     | Some conversationId, Some rating =>
         if Qeq_bool rating 0
         then ret (failure 400 "Conversation ID and rating are required" NoPayload)
         else if Qltb rating 1 || Qltb 5 rating
         then ret (failure 400 "Rating must be between 1 and 5" NoPayload)
         else
           found <- ConversationModel.findOne
                      (ConversationModel.byId conversationId (user_id user)) ;;
           match found with
           | None => ret (failure 404 "Conversation not found or access denied"
                                  NoPayload)
           | Some conversation =>
               let feedback := feedbackOf env user conversationId rating req
                                          conversation in
               FeedbackModel.save feedback ;;;
               ConversationModel.save env false []
                 (ConversationModel.stamp
                    (mkSessionFeedback (parseInt rating) (fr_comment req) (now env))
                    conversation) ;;;
               ret (json (FeedbackId (fb_id feedback)))
           end
     | _, _ => ret (failure 400 "Conversation ID and rating are required" NoPayload)
     end)
    feedbackError.

Definition notFound : Response :=
  failure 404 "Conversation not found or access denied" NoPayload.

(** [router.delete('/:sessionId')]. *)
Definition deleteConversation (user : User) (sessionId : string)
  : World -> Response * World :=
  route
    (result <- ConversationModel.findOneAndDelete
                 (ConversationModel.bySession sessionId (user_id user)) ;;
     match result with
     | None => ret notFound
     | Some conversation =>
         FeedbackModel.deleteMany
           (fun f => fb_conversationId f =? conv_id conversation) ;;;
         ret (json NoPayload)
     end)
    internalError.

Definition exported (m : Message) : ExportedMessage :=
  mkExported (msg_role m) (msg_content m) (msg_quickReplies m).

(** [router.get('/export/:sessionId')]. *)
Definition exportConversation (user : User) (sessionId : string)
  : World -> Response * World :=
  route
    (found <- ConversationModel.findOne
                (ConversationModel.bySession sessionId (user_id user)) ;;
     match found with
     | None => ret notFound
     | Some conversation =>
         ret (plain (Export sessionId (user_id user) (user_name user)
                            (user_email user)
                            (List.length (conv_messages conversation))
                            (map exported (conv_messages conversation))
                            (conv_userRole conversation)
                            (conv_updatedAt conversation)))
     end)
    internalError.

(** [router.delete('/')]. *)
Definition deleteAllConversations (user : User) : World -> Response * World :=
  route
    (let userId := user_id user in
     deletedCount <- ConversationModel.deleteMany (ConversationModel.byUser userId) ;;
     FeedbackModel.deleteMany (fun f => fb_userId f =? userId) ;;;
     ret (json (Deleted deletedCount)))
    internalError.

(* ===================================================================== *)
(** ** The other calls of the gateway ([GeminiService]) *)
(* ===================================================================== *)

Definition summaryPrompt (text : string) (maxLength : nat) : string :=
  Js.join Js.nl
    [ "";
      GeminiService.indent ++ "Summarize the following text for a knowledge base. ";
      GeminiService.indent ++ "Extract key points and create a concise summary.";
      GeminiService.indent ++ "Keep it under " ++ decimal maxLength ++ " characters.";
      GeminiService.indent;
      GeminiService.indent ++ "TEXT:";
      GeminiService.indent ++ Js.take 5000 text ++ "... (truncated)";
      GeminiService.indent;
      GeminiService.indent ++ "SUMMARY:";
      "      " ].

(** [summarizeText(text, maxLength)]: its [catch] does not look into the
    error, it logs it and falls back on the head of the text. *)
Definition summarizeText (model : string -> Outcome string) (text : string)
           (maxLength : nat) : Outcome string :=
  match model (summaryPrompt text maxLength) with
  | Ok generated => Ok (Js.trim (Js.take maxLength generated))
  | Throw _ => Ok (Js.take 200 text ++ "...")
  end.

Definition keywordPrompt (text : string) : string :=
  Js.join Js.nl
    [ "";
      GeminiService.indent ++ "Extract 3-5 keywords from the following text. ";
      GeminiService.indent ++ "Return them as a comma-separated list.";
      GeminiService.indent;
      GeminiService.indent ++ "TEXT:";
      GeminiService.indent ++ Js.take 1000 text;
      GeminiService.indent;
      GeminiService.indent ++ "KEYWORDS:";
      "      " ].

(** [s.split(sep)] for a separator of one unit: the empty string splits into
    one empty piece. *)
Fixpoint split (sep : ascii) (s : string) : list string :=
  match s with
  | EmptyString => [EmptyString]
  | String c r =>
      if Ascii.eqb c sep then EmptyString :: split sep r
      else match split sep r with
           | piece :: rest => String c piece :: rest
           | [] => [String c EmptyString]
           end
  end.

(** [extractKeywords(text)]. *)
Definition extractKeywords (model : string -> Outcome string) (text : string)
  : Outcome (list string) :=
  match model (keywordPrompt text) with
  | Ok generated =>
      Ok (map (fun k => Js.toLowerCase (Js.trim k)) (split ","%char generated))
  | Throw _ => Ok []
  end.

(* ===================================================================== *)
(** ** The auth middleware ([JwtService]) *)
(* ===================================================================== *)

(** Where a request may carry its token; a place that holds none reads as
    the empty string, which [||] skips. *)
Record Credentials : Type := mkCredentials {
  cred_cookie : string;          (* [req.cookies?.token] *)
  cred_authorization : string;   (* [req.headers.authorization] *)
  cred_query : string            (* [req.query.token] *)
}.

(** The payload of a verified token: the identity and, when the token has
    one, its expiry in seconds. *)
Record Decoded : Type := mkDecoded {
  dec_user : User;
  dec_exp : option Z
}.

(** [s.replace(needle, '')]: the first occurrence goes, wherever it is. *)
Fixpoint removeOnce (needle s : string) : string :=
  if prefix needle s then Js.drop (String.length needle) s
  else match s with
       | EmptyString => EmptyString
       | String c r => String c (removeOnce needle r)
       end.

(** [req.cookies?.token || req.headers.authorization?.replace('Bearer ', '')
    || req.query.token]. *)
Definition tokenOf (c : Credentials) : string :=
  Js.orElse (cred_cookie c)
            (Js.orElse (removeOnce "Bearer " (cred_authorization c))
                       (cred_query c)).

Inductive AuthResult : Type :=
| Denied (status : nat) (message code : string)
| Next (user : Decoded) (token : string).

(** What the middleware did: whether it set [X-Token-Expiring-Soon], and
    how it ended. *)
Record AuthOutcome : Type := mkAuthOutcome {
  auth_expiringSoon : bool;
  auth_result : AuthResult
}.

(** [getAuthMiddleware(allowedRoles)].  [verify] stands for [verifyToken],
    the signature and expiry check of the token library; [nowSeconds] is
    [Math.floor(Date.now() / 1000)]. *)
Definition getAuthMiddleware (verify : string -> option Decoded)
           (allowedRoles : list string) (nowSeconds : Z) (c : Credentials)
  : AuthOutcome :=
  let token := tokenOf c in
  if negb (Js.truthy token)
  then mkAuthOutcome false
         (Denied 401 "Authentication required. Please login." "NO_TOKEN")
  else
    match verify token with
    | None => mkAuthOutcome false
                (Denied 401 "Invalid or expired token. Please login again."
                        "INVALID_TOKEN")
    | Some decoded =>
        let soon := match dec_exp decoded with
                    | Some exp => (exp - nowSeconds <? 300)%Z
                    | None => false
                    end in
        if negb (List.length allowedRoles =? 0)
           && negb (existsb (String.eqb (user_role (dec_user decoded))) allowedRoles)
        then mkAuthOutcome soon
               (Denied 403 "Insufficient permissions to access this resource."
                       "FORBIDDEN")
        else mkAuthOutcome soon (Next decoded token)
    end.

(** A route of [routes/chat.js] behind [jwtService.getAuthMiddleware()]. *)
Definition guarded {R : Type} (verify : string -> option Decoded)
           (nowSeconds : Z) (c : Credentials)
           (handler : User -> World -> R * World) (w : World)
  : (AuthResult + R) * World :=
  match auth_result (getAuthMiddleware verify [] nowSeconds c) with
  | Next decoded _ =>
      let (r, w') := handler (dec_user decoded) w in (inr r, w')
  | denied => (inl denied, w)
  end.

(* ===================================================================== *)
(** ** The login throttle ([routes/auth.js]) *)
(* ===================================================================== *)

Record Attempts : Type := mkAttempts {
  att_count : nat;
  att_firstAttempt : nat
}.

(** The [loginAttempts] map, keyed by address. *)
Definition AttemptMap := list (string * Attempts).

Fixpoint mapGet (ip : string) (m : AttemptMap) : option Attempts :=
  match m with
  | [] => None
  | (k, a) :: rest => if String.eqb k ip then Some a else mapGet ip rest
  end.

(** [map.set(ip, a)]: a key that is present keeps its place. *)
Fixpoint mapSet (ip : string) (a : Attempts) (m : AttemptMap) : AttemptMap :=
  match m with
  | [] => [(ip, a)]
  | (k, b) :: rest =>
      if String.eqb k ip then (k, a) :: rest else (k, b) :: mapSet ip a rest
  end.

Fixpoint mapDelete (ip : string) (m : AttemptMap) : AttemptMap :=
  match m with
  | [] => []
  | (k, b) :: rest =>
      if String.eqb k ip then mapDelete ip rest else (k, b) :: mapDelete ip rest
  end.

Definition MAX_ATTEMPTS : nat := 5.
Definition LOCK_TIME : nat := 15 * 60 * 1000.

Inductive Throttle : Type :=
| TooMany (retryAfter : nat)     (* 429 *)
| Proceed.

(** [checkRateLimit]; [now] is [Date.now()], in milliseconds.  [timeLeft > 0]
    is [now < firstAttempt + LOCK_TIME], and [Math.ceil(timeLeft / 1000)] of
    a positive whole number is the division rounded up. *)
Definition checkRateLimit (ip : string) (now : nat) (m : AttemptMap)
  : Throttle * AttemptMap :=
  match mapGet ip m with
  | Some attempts =>
      if MAX_ATTEMPTS <=? att_count attempts
      then
        let timeLeft := att_firstAttempt attempts + LOCK_TIME - now in
        if now <? att_firstAttempt attempts + LOCK_TIME
        then (TooMany ((timeLeft + 999) / 1000), m)
        else (Proceed, mapDelete ip m)
      else (Proceed, m)
  | None => (Proceed, m)
  end.

(** The bookkeeping at the head of the login handler. *)
Definition trackAttempt (ip : string) (now : nat) (m : AttemptMap) : AttemptMap :=
  match mapGet ip m with
  | None => mapSet ip (mkAttempts 1 now) m
  | Some attempts =>
      mapSet ip (mkAttempts (att_count attempts + 1) (att_firstAttempt attempts)) m
  end.

(** What the rest of the login handler meets: the validators, the user
    lookup, the password comparison and the save of [lastLogin]. *)
Inductive LoginAttempt : Type :=
| Malformed          (* the validators report errors: 400 *)
| LookupFails        (* [User.findOne] throws: 500 *)
| UnknownUser        (* no active user with the email: 401 *)
| WrongPassword      (* 401 *)
| SaveFails          (* the password matches, [user.save()] throws: 500 *)
| Accepted.          (* 200 *)

(** [router.post('/login', checkRateLimit, validateLogin, ...)]: the status
    sent and the map afterwards.  [now] is read by [checkRateLimit], [now']
    by the handler. *)
Definition login (ip : string) (now now' : nat) (attempt : LoginAttempt)
           (m : AttemptMap) : nat * AttemptMap :=
  match checkRateLimit ip now m with
  | (TooMany _, m1) => (429, m1)
  | (Proceed, m1) =>
      match attempt with
      | Malformed => (400, m1)
      | LookupFails => (500, trackAttempt ip now' m1)
      | UnknownUser | WrongPassword => (401, trackAttempt ip now' m1)
      | SaveFails => (500, mapDelete ip (trackAttempt ip now' m1))
      | Accepted => (200, mapDelete ip (trackAttempt ip now' m1))
      end
  end.

(* ===================================================================== *)
(** ** Vocabulary of the statements *)
(* ===================================================================== *)

(** The categories present in the results are exactly [policy] and [it]. *)
Definition spansPolicyAndIt (knowledgeResults : list KnowledgeDoc) : Prop :=
  forall c : string,
    (c <> "" /\ exists doc, In doc knowledgeResults /\ doc_category doc = c)
    <-> (c = "policy" \/ c = "it").

Definition policyLabel : Reply := Text "Company policies".
Definition itLabel : Reply := Text "IT support".

(** The first category the [forEach] meets. *)
Definition firstCategory (knowledgeResults : list KnowledgeDoc) : option string :=
  hd_error (filter Js.truthy (map doc_category knowledgeResults)).

(** A request with its rating replaced. *)
Definition withRating (req : FeedbackRequest) (rating : Q) : FeedbackRequest :=
  mkFeedbackRequest (fr_conversationId req) (Some rating) (fr_comment req)
                    (fr_question req) (fr_response req) (fr_isHelpful req).

(** The request or the conversation supplies a question and a response
    that are not blank, which the feedback schema requires. *)
Definition answerable (req : FeedbackRequest) (c : Conversation) : Prop :=
  Js.truthy (Js.trim (Js.orElse (fr_question req)
               (lastContent (filter (isRole RoleUser) (conv_messages c))))) = true
  /\ Js.truthy (Js.trim (Js.orElse (fr_response req)
               (lastContent (filter (isRole RoleBot) (conv_messages c))))) = true.

(** The request is refused as invalid and nothing is written. *)
Definition rejects (env : Env) (user : User) (req : FeedbackRequest) (w : World)
  : Prop :=
  status (fst (postFeedback env user req w)) = 400
  /\ success (fst (postFeedback env user req w)) = Some false
  /\ snd (postFeedback env user req w) = w.

(** The request succeeds and adds one record with this rating and flag. *)
Definition stores (env : Env) (user : User) (req : FeedbackRequest) (w : World)
           (rating : Z) (helpful : bool) : Prop :=
  exists f,
    fst (postFeedback env user req w) = json (FeedbackId (fb_id f))
    /\ feedbacks (snd (postFeedback env user req w)) = (feedbacks w ++ [f])%list
    /\ fb_rating f = rating
    /\ fb_isHelpful f = helpful.

(** No record of the collection carries this id yet. *)
Definition unusedFeedbackId (id : ObjectId) (w : World) : Prop :=
  existsb (fun g => fb_id g =? id) (feedbacks w) = false.

(** The three collections are the same in both worlds. *)
Definition sameStores (w w1 : World) : Prop :=
  conversations w1 = conversations w
  /\ feedbacks w1 = feedbacks w
  /\ knowledge w1 = knowledge w.

(** No conversation with this session id belongs to the caller.  With the
    unique index on [sessionId] this is what a session id that exists for
    another user amounts to. *)
Definition notOwnedSession (user : User) (sessionId : string) (w : World) : Prop :=
  forall c, In c (conversations w) -> conv_sessionId c = sessionId ->
            conv_userId c <> user_id user.

(** The same for a conversation id. *)
Definition notOwnedConversation (user : User) (id : ObjectId) (w : World) : Prop :=
  forall c, In c (conversations w) -> conv_id c = id ->
            conv_userId c <> user_id user.

(** The rating passes the two checks of the feedback route. *)
Definition passesRatingChecks (rating : Q) : Prop :=
  Qeq_bool rating 0 = false /\ Qltb rating 1 = false /\ Qltb 5 rating = false.

(** A feedback record carries the user id of the conversation it refers to;
    the feedback route, the one place that makes records, looks the
    conversation up under the caller's id before it writes. *)
Definition feedbackOwned (w : World) : Prop :=
  forall f c, In f (feedbacks w) -> In c (conversations w) ->
              fb_conversationId f = conv_id c -> fb_userId f = conv_userId c.

(** The messages of the session a turn resolves to, before the turn: those
    of the caller's session the client named, none for a new session. *)
Definition resolvedMessages (user : User) (req : ChatRequest) (w : World)
  : list Message :=
  if Js.truthy (req_sessionId req)
  then match find (ConversationModel.bySession (req_sessionId req) (user_id user))
                  (conversations w) with
       | Some c => conv_messages c
       | None => []
       end
  else [].

(** The session a turn resolves to when it continues one: the caller's
    session the request names.  There is none when the request names no
    session, or one the caller does not have; the turn then opens a new
    session. *)
Definition resolvedSession (user : User) (req : ChatRequest) (w : World)
  : option Conversation :=
  if Js.truthy (req_sessionId req)
  then find (ConversationModel.bySession (req_sessionId req) (user_id user))
            (conversations w)
  else None.

(** A session with two more messages, saved at the time of the request:
    nothing else of it has changed. *)
Definition grown (env : Env) (c : Conversation) (asked answered : Message)
  : Conversation :=
  mkConversation (conv_id c) (conv_sessionId c) (conv_userId c)
                 (conv_userEmail c) (conv_userName c) (conv_userRole c)
                 (conv_messages c ++ [asked; answered]) (conv_feedback c)
                 (now env).

(** The gateway fails on every prompt, throwing an [Error]. *)
Definition gatewayDown (env : Env) : Prop :=
  forall p, exists name message, gemini env p = Throw (ErrorObject name message).

(** The last code unit of a string, if it has one. *)
Fixpoint lastUnit (s : string) : option ascii :=
  match s with
  | EmptyString => None
  | String c EmptyString => Some c
  | String _ r => lastUnit r
  end.

(** A capital letter among the units below 256, by its code: Latin capital
    A to Z, or one of the accented capitals from 192 to 222 (215 is the
    multiplication sign). *)
Definition capitalUnit (c : ascii) : Prop :=
  65 <= nat_of_ascii c <= 90
  \/ (192 <= nat_of_ascii c <= 222 /\ nat_of_ascii c <> 215).

(** The units of a string. *)
Fixpoint units (s : string) : list ascii :=
  match s with
  | EmptyString => []
  | String c r => c :: units r
  end.

(** The string opens, or ends, with white space. *)
Definition startsWithSpace (s : string) : bool :=
  match s with
  | EmptyString => false
  | String c _ => Js.isSpace c
  end.

Fixpoint endsWithSpace (s : string) : bool :=
  match s with
  | EmptyString => false
  | String c EmptyString => Js.isSpace c
  | String _ r => endsWithSpace r
  end.

(** The number of units of [s] that are [c]. *)
Fixpoint countChar (c : ascii) (s : string) : nat :=
  match s with
  | EmptyString => 0
  | String d r => (if Ascii.eqb d c then 1 else 0) + countChar c r
  end.

(** The list runs from the greatest [key] to the least. *)
Definition descending {A : Type} (key : A -> nat) (l : list A) : Prop :=
  StronglySorted (fun a b => key b <= key a) l.




(** The model answers every prompt with a text that cleans to nothing. *)
Definition repliesNothing (env : Env) : Prop :=
  forall p, exists raw, gemini env p = Ok raw /\ GeminiService.cleanResponse raw = "".

(** The attempt counts against the address: the handler got past the
    validators and did not log the user in. *)
Definition countsAsFailure (attempt : LoginAttempt) : bool :=
  match attempt with
  | LookupFails | UnknownUser | WrongPassword => true
  | Malformed | SaveFails | Accepted => false
  end.

(** Logins from one address, one after the other: each step gives the two
    clock readings and what the handler meets. *)
Fixpoint loginRun (ip : string) (steps : list (nat * nat * LoginAttempt))
         (m : AttemptMap) : AttemptMap :=
  match steps with
  | [] => m
  | (now, now', attempt) :: rest =>
      loginRun ip rest (snd (login ip now now' attempt m))
  end.

(* ===================================================================== *)
(** ** Sample data *)
(* ===================================================================== *)

Definition policyThenIt : list KnowledgeDoc :=
  [ mkDoc 1 "Leave policy" "Twenty days a year." "policy" "leave" 2;
    mkDoc 2 "Laptop setup" "Ask the help desk." "it" "laptop" 1 ].

Definition itThenPolicy : list KnowledgeDoc := rev policyThenIt.

Definition hoursEntry : KnowledgeEntry :=
  mkEntry 10 "Working hours" "Core hours are nine to five." "hours" "policy"
          [] true 0 None.

Definition adminEntry : KnowledgeEntry :=
  mkEntry 11 "Admin guide to working hours" "How to edit the roster." "roster"
          "it" ["admin"] true 0 None.

(** A stand-in for the text index: the title is worth more than the body. *)
Definition sampleScore (query : string) (e : KnowledgeEntry) : option nat :=
  if Js.includes (Js.toLowerCase query) (Js.toLowerCase (kb_title e)) then Some 10
  else if Js.includes (Js.toLowerCase query) (Js.toLowerCase (kb_content e))
       then Some 1
       else None.

Definition invalidKey : Thrown :=
  ErrorObject "GoogleGenerativeAIFetchError"
              "[400 Bad Request] API key not valid. reason: API_KEY_INVALID".

Definition sampleCastFailure (n : nat) (_ : list Reply) : string :=
  "messages." ++ decimal n ++ ".quickReplies: Cast to Array failed".

Definition sampleEnv : Env :=
  mkEnv 100 "1700000000000" "k3j9x0q2a" 50 sampleScore
        (fun _ => Throw invalidKey) 12 sampleCastFailure.

Definition ann : User := mkUser 1 "ann@company.com" "Ann" "employee".
Definition bob : User := mkUser 2 "bob@company.com" "Bob" "admin".

Definition bobSession : Conversation :=
  mkConversation 5 "session_1_bob" 2 "bob@company.com" "Bob" "admin"
                 [ userMessage "How do I reset a password?";
                   botMessage "Open the admin console." [] ]
                 None 3.

Definition annSession : Conversation :=
  mkConversation 6 "session_2_ann" 1 "ann@company.com" "Ann" "employee"
                 [ userMessage "How do I request vacation?";
                   botMessage "Use the leave form." [] ]
                 None 4.

Definition sampleWorld : World :=
  mkWorld [bobSession; annSession] [] [hoursEntry; adminEntry] [].

Definition rateAnn : FeedbackRequest :=
  mkFeedbackRequest (Some 6) None "" "" "" None.

Definition ratedWorld : World :=
  snd (postFeedback sampleEnv ann (withRating rateAnn 5) sampleWorld).

Definition socketClosed : Thrown :=
  ErrorObject "MongoNetworkError" "connection 3 to 127.0.0.1:27017 closed".

(** The search and the save go through; the view-count update fails. *)
Definition lateFaultWorld : World :=
  mkWorld [bobSession; annSession] [] [hoursEntry; adminEntry]
          [None; None; Some socketClosed].

Definition askHours : ChatRequest := mkChatRequest "Working hours" "".

Definition quietTurn : Response * World :=
  postChat sampleEnv ann askHours sampleWorld.

(** The same question, asked in the session Ann already has. *)
Definition askAgain : ChatRequest := mkChatRequest "Working hours" "session_2_ann".

Definition continuedTurn : Response * World :=
  postChat sampleEnv ann askAgain sampleWorld.

Definition faultyTurn : Response * World :=
  postChat sampleEnv ann askHours lateFaultWorld.

(** The turn as it stands once the session is saved in [lateFaultWorld]. *)
Definition savedTurn : Turn :=
  match fst (persistTurn sampleEnv ann askHours lateFaultWorld) with
  | Ok t => t
  | Throw _ => mkTurn "" (newConversation sampleEnv ann) [] [] ""
  end.

(** The search goes through; the save of the session fails. *)
Definition saveFaultWorld : World :=
  mkWorld [bobSession; annSession] [] [hoursEntry; adminEntry]
          [None; Some socketClosed].

(** A model whose whole answer is one fenced block: nothing is left of it
    after cleaning. *)
Definition fencedOnly : string :=
  GeminiService.fence ++ "json" ++ Js.nl ++ "{}" ++ Js.nl ++ GeminiService.fence.

Definition fencedEnv : Env :=
  mkEnv 100 "1700000000000" "k3j9x0q2a" 50 sampleScore
        (fun _ => Ok fencedOnly) 12 sampleCastFailure.

(** A model that answers with mark-up around the text. *)
Definition markedUp : string :=
  "** Core hours **" ++ Js.nl ++ "# Hours" ++ Js.nl ++ "Nine to five.  ".

(** The lookup and the save of the record go through; the save of the
    stamped session fails. *)
Definition stampFaultWorld : World :=
  mkWorld [bobSession; annSession] [] [hoursEntry; adminEntry]
          [None; None; Some socketClosed].

(** A session of Ann's that holds no message yet. *)
Definition emptySession : Conversation :=
  mkConversation 7 "session_3_ann" 1 "ann@company.com" "Ann" "employee" [] None 5.

Definition emptySessionWorld : World :=
  mkWorld [emptySession] [] [hoursEntry; adminEntry] [].

(** The lookup of the session goes through; the delete of its feedback
    fails. *)
Definition cascadeFaultWorld : World :=
  mkWorld (conversations ratedWorld) (feedbacks ratedWorld)
          (knowledge ratedWorld) [None; Some socketClosed].

(** A token library that knows one token, Ann's, expiring at second 1000. *)
Definition sampleVerify (token : string) : option Decoded :=
  if String.eqb token "ann-token" then Some (mkDecoded ann (Some 1000%Z))
  else None.

Definition fiveFailures : list (nat * nat * LoginAttempt) :=
  [ (100, 101, WrongPassword); (200, 201, WrongPassword);
    (300, 301, UnknownUser); (400, 401, LookupFails);
    (500, 501, WrongPassword) ].

(* ===================================================================== *)
(** * Properties *)
(* ===================================================================== *)

Unset Implicit Arguments.

(** ** Strings *)

Lemma truthy_nonempty (s : string) : Js.truthy s = true <-> s <> "".
Proof.
  destruct s; simpl; split; intro H; try congruence; try discriminate; reflexivity.
Qed.

Lemma lower_upper_char (c : ascii) : Js.lowerChar (Js.upperChar c) = Js.lowerChar c.
Proof. destruct c as [[] [] [] [] [] [] [] []]; reflexivity. Qed.

Lemma lower_lower_char (c : ascii) : Js.lowerChar (Js.lowerChar c) = Js.lowerChar c.
Proof. destruct c as [[] [] [] [] [] [] [] []]; reflexivity. Qed.

Lemma toLowerCase_toUpperCase (s : string) :
  Js.toLowerCase (Js.toUpperCase s) = Js.toLowerCase s.
Proof.
  induction s as [|c r IH]; simpl; [reflexivity|].
  now rewrite lower_upper_char, IH.
Qed.

Lemma toLowerCase_idempotent (s : string) :
  Js.toLowerCase (Js.toLowerCase s) = Js.toLowerCase s.
Proof.
  induction s as [|c r IH]; simpl; [reflexivity|].
  now rewrite lower_lower_char, IH.
Qed.

(** ** Insertion-ordered sets *)

Section SetFacts.
Variable A : Type.
Variable eqb : A -> A -> bool.

Lemma setAdd_extends (acc : list A) (x : A) :
  exists tail, setAdd eqb acc x = (acc ++ tail)%list.
Proof.
  unfold setAdd. destruct (existsb (eqb x) acc).
  - exists []. now rewrite app_nil_r.
  - now exists [x].
Qed.

(** Adding to a set never disturbs what it already lists. *)
Lemma fold_setAdd_extends (xs acc : list A) :
  exists tail, fold_left (setAdd eqb) xs acc = (acc ++ tail)%list.
Proof.
  revert acc. induction xs as [|x xs IH]; intro acc; simpl.
  - exists []. now rewrite app_nil_r.
  - destruct (setAdd_extends acc x) as [t1 E1]. rewrite E1.
    destruct (IH (acc ++ t1)%list) as [t2 E2]. rewrite E2.
    exists (t1 ++ t2)%list. now rewrite app_assoc.
Qed.

Lemma firstn_fold_setAdd (n : nat) (xs acc : list A) :
  n <= List.length acc ->
  firstn n (fold_left (setAdd eqb) xs acc) = firstn n acc.
Proof.
  intro H. destruct (fold_setAdd_extends xs acc) as [t E]. rewrite E.
  rewrite firstn_app. replace (n - List.length acc) with 0 by lia.
  simpl. now rewrite app_nil_r.
Qed.

Lemma setOf_head (x : A) (xs : list A) :
  exists tail, setOf eqb (x :: xs) = x :: tail.
Proof.
  unfold setOf. simpl. unfold setAdd at 2. simpl.
  destruct (fold_setAdd_extends xs [x]) as [t E]. rewrite E. now exists t.
Qed.
End SetFacts.

(** ** Quick replies *)

Lemma generateQuickReplies_length (q : string) (rs : list KnowledgeDoc) (role : string) :
  List.length (generateQuickReplies q rs role) <= 5.
Proof. unfold generateQuickReplies. apply firstn_le_length. Qed.

(** The list is the four defaults and the label of the first category. *)
Lemma generateQuickReplies_first (q : string) (rs : list KnowledgeDoc)
      (role c : string) :
  firstCategory rs = Some c ->
  ~ In (labelOf c) (map Text defaultReplies) ->
  generateQuickReplies q rs role = (map Text defaultReplies ++ [labelOf c])%list.
Proof.
  unfold firstCategory, generateQuickReplies, categoriesOf. intros Hc Hfresh.
  destruct (filter Js.truthy (map doc_category rs)) as [|c0 cs]; [discriminate|].
  simpl in Hc. injection Hc as ->.
  destruct (setOf_head _ String.eqb c cs) as [tail ->].
  cbn [map]. unfold setOf. rewrite fold_left_app.
  change (fold_left (setAdd Reply_eqb) (map Text defaultReplies) [])
    with (map Text defaultReplies).
  cbn [fold_left].
  assert (E : setAdd Reply_eqb (map Text defaultReplies) (labelOf c)
              = (map Text defaultReplies ++ [labelOf c])%list).
  { unfold setAdd.
    destruct (existsb (Reply_eqb (labelOf c)) (map Text defaultReplies)) eqn:Ex;
      [|reflexivity].
    exfalso. apply Hfresh. apply existsb_exists in Ex as [r [Hin Heq]].
    destruct (labelOf c) as [x|x], r as [y|y]; simpl in Heq; try discriminate;
      apply String.eqb_eq in Heq; now subst. }
  rewrite E. rewrite firstn_fold_setAdd by (simpl; lia). reflexivity.
Qed.

Lemma spans_first_category (rs : list KnowledgeDoc) :
  spansPolicyAndIt rs ->
  firstCategory rs = Some "policy" \/ firstCategory rs = Some "it".
Proof.
  intro H. unfold firstCategory.
  destruct (filter Js.truthy (map doc_category rs)) as [|c cs] eqn:E.
  - exfalso. destruct (proj2 (H "policy") (or_introl eq_refl)) as [_ [doc [Hin Hcat]]].
    assert (Hf : In "policy" (filter Js.truthy (map doc_category rs))).
    { apply filter_In. split; [|reflexivity].
      apply in_map_iff. now exists doc. }
    rewrite E in Hf. exact Hf.
  - assert (Hf : In c (filter Js.truthy (map doc_category rs)))
      by (rewrite E; now left).
    apply filter_In in Hf as [Hin Ht]. apply in_map_iff in Hin as [doc [Hcat Hdoc]].
    assert (Hc : c = "policy" \/ c = "it").
    { apply H. split; [now apply truthy_nonempty|]. now exists doc. }
    simpl. destruct Hc as [-> | ->]; [now left | now right].
Qed.

(** C1 (as amended).  For every message, results and role the derived list
    has at most five entries.  When the results span exactly the categories
    policy and it, the list is the four default questions followed by the
    label of the category met first, so it holds exactly one of the two
    labels: the fifth place is the only one left after the defaults. *)
Theorem quick_replies_bounded_first_label
        (q : string) (rs : list KnowledgeDoc) (role : string) :
  List.length (generateQuickReplies q rs role) <= 5
  /\ (spansPolicyAndIt rs ->
      (firstCategory rs = Some "policy"
       /\ generateQuickReplies q rs role = (map Text defaultReplies ++ [policyLabel])%list
       /\ In policyLabel (generateQuickReplies q rs role)
       /\ ~ In itLabel (generateQuickReplies q rs role))
      \/
      (firstCategory rs = Some "it"
       /\ generateQuickReplies q rs role = (map Text defaultReplies ++ [itLabel])%list
       /\ In itLabel (generateQuickReplies q rs role)
       /\ ~ In policyLabel (generateQuickReplies q rs role))).
Proof.
  split; [apply generateQuickReplies_length|].
  intro H. destruct (spans_first_category _ H) as [Hc | Hc]; [left | right];
    (split; [exact Hc|]);
    rewrite (generateQuickReplies_first q rs role _ Hc)
      by (simpl; intuition discriminate);
    (split; [reflexivity|]); split;
    try (simpl; intuition discriminate);
    apply in_or_app; right; now left.
Qed.

Lemma itThenPolicy_spans : spansPolicyAndIt itThenPolicy.
Proof.
  intro c. split.
  - intros [_ [doc [Hin Hcat]]]. simpl in Hin.
    destruct Hin as [<- | [<- | []]]; simpl in Hcat; subst; auto.
  - intros [-> | ->]; (split; [discriminate|]).
    + exists (mkDoc 1 "Leave policy" "Twenty days a year." "policy" "leave" 2).
      simpl. auto.
    + exists (mkDoc 2 "Laptop setup" "Ask the help desk." "it" "laptop" 1).
      simpl. auto.
Qed.

Lemma quick_replies_bounded_first_label_witness :
  spansPolicyAndIt itThenPolicy
  /\ In itLabel (generateQuickReplies "Where is my laptop?" itThenPolicy "employee").
Proof.
  split; [exact itThenPolicy_spans|].
  destruct (proj2 (quick_replies_bounded_first_label
                     "Where is my laptop?" itThenPolicy "employee")
                  itThenPolicy_spans) as [[Hc _] | [_ [_ [Hin _]]]].
  - discriminate Hc.
  - exact Hin.
Defined.

(** C1, as the specification words it, fails: with an IT entry ranked before
    a policy entry the results span policy and it, yet no policy label is
    among the five replies. *)
Lemma quick_replies_lose_policy_label :
  spansPolicyAndIt itThenPolicy
  /\ List.length (generateQuickReplies "Where is my laptop?" itThenPolicy "employee") <= 5
  /\ ~ (In policyLabel (generateQuickReplies "Where is my laptop?" itThenPolicy "employee")
        /\ In itLabel (generateQuickReplies "Where is my laptop?" itThenPolicy "employee")).
Proof.
  split; [exact itThenPolicy_spans|]. split; [vm_compute; lia|].
  intros [H _]. vm_compute in H. intuition discriminate.
Qed.

(** ** Intent *)

Lemma firstIntent_find (table : list (string * Pattern.t)) (lowerQuery : string) :
  firstIntent table lowerQuery =
  match find (fun entry => Pattern.test (snd entry) lowerQuery) table with
  | Some entry => fst entry
  | None => "general"
  end.
Proof.
  induction table as [|[intent pattern] rest IH]; simpl; [reflexivity|].
  destruct (Pattern.test pattern lowerQuery); [reflexivity | exact IH].
Qed.

(** C9.  The intent of a query is that of its lower-case form, so case is
    ignored; the patterns are tried in the order greeting, thanks, policy,
    benefit, hr, it, emergency, equipment, training and the first that
    matches gives the intent, [general] standing for no match; and the four
    sample queries classify as greeting, hr, it and general. *)
Theorem intent_first_match_case_insensitive :
  (forall q, analyzeQueryIntent q = analyzeQueryIntent (Js.toLowerCase q)
             /\ analyzeQueryIntent (Js.toUpperCase q) = analyzeQueryIntent q)
  /\ (forall q,
         analyzeQueryIntent q =
         match find (fun entry => Pattern.test (snd entry) (Js.toLowerCase q)) intents with
         | Some entry => fst entry
         | None => "general"
         end)
  /\ map fst intents = [ "greeting"; "thanks"; "policy"; "benefit"; "hr"; "it";
                         "emergency"; "equipment"; "training" ]
  /\ analyzeQueryIntent "Hello there!" = "greeting"
  /\ analyzeQueryIntent "How do I request vacation?" = "hr"
  /\ analyzeQueryIntent "My laptop won't turn on" = "it"
  /\ analyzeQueryIntent "asdlkj random text" = "general".
Proof.
  split; [|split; [|repeat split; vm_compute; reflexivity]].
  - intro q. unfold analyzeQueryIntent.
    now rewrite toLowerCase_idempotent, toLowerCase_toUpperCase.
  - intro q. unfold analyzeQueryIntent. apply firstIntent_find.
Qed.

(** ** The gateway *)

Lemma mockReply_nonempty (q : string) : GeminiService.mockReply q <> "".
Proof. unfold GeminiService.mockReply. simpl. discriminate. Qed.

Lemma onModelError_returns (name message q : string) :
  exists s, GeminiService.onModelError (ErrorObject name message) q = Ok s
            /\ (s = GeminiService.unavailableReply \/ s = GeminiService.mockReply q)
            /\ s <> "".
Proof.
  unfold GeminiService.onModelError. simpl.
  destruct (Js.includes "API_KEY_INVALID" message || Js.includes "quota" message).
  - exists GeminiService.unavailableReply. repeat split; [now left | discriminate].
  - exists (GeminiService.mockReply q).
    repeat split; [now right | apply mockReply_nonempty].
Qed.

(** A thrown value without a message is the one thing the gateway lets
    through: its [catch] block throws on reading [message.includes]. *)
Lemma generateResponse_rethrows_non_error
      (model : string -> Outcome string) (q ctx role name : string) :
  model (GeminiService.prompt q ctx role name) = Throw NonError ->
  GeminiService.generateResponse model q ctx role name
  = Throw GeminiService.typeErrorIncludes.
Proof. intro H. unfold GeminiService.generateResponse. now rewrite H. Qed.

(** C4.  Whatever the question, context, role and name, when the model call
    throws an error (an [Error] object, whatever its name and message: bad
    credentials, exhausted quota, network, malformed response),
    [generateResponse] does not throw: it returns one of its two fixed
    fallback texts, neither of which is empty. *)
Theorem generateResponse_falls_back
        (model : string -> Outcome string) (q ctx role name : string)
        (errName errMessage : string) :
  model (GeminiService.prompt q ctx role name) = Throw (ErrorObject errName errMessage) ->
  exists s,
    GeminiService.generateResponse model q ctx role name = Ok s
    /\ (s = GeminiService.unavailableReply \/ s = GeminiService.mockReply q)
    /\ s <> "".
Proof.
  intro H. unfold GeminiService.generateResponse. rewrite H.
  apply onModelError_returns.
Qed.

Lemma generateResponse_falls_back_witness :
  exists s,
    GeminiService.generateResponse
      (fun _ => Throw (ErrorObject "GoogleGenerativeAIFetchError"
                                   "[429 Too Many Requests] quota exceeded"))
      "What are the working hours?" "" "employee" "Ann" = Ok s
    /\ (s = GeminiService.unavailableReply
        \/ s = GeminiService.mockReply "What are the working hours?")
    /\ s <> "".
Proof.
  apply (@generateResponse_falls_back _ _ _ _ _ "GoogleGenerativeAIFetchError"
           "[429 Too Many Requests] quota exceeded").
  reflexivity.
Defined.

(** ** Queries *)

Section QueryFacts.
Variable A : Type.
Variable key : A -> nat.

Lemma In_insertDesc (x y : A) (l : list A) :
  In y (insertDesc key x l) <-> y = x \/ In y l.
Proof.
  induction l as [|z r IH]; simpl.
  - intuition.
  - destruct (key z <? key x); simpl; [intuition|].
    rewrite IH. intuition.
Qed.

Lemma In_fold_insertDesc (y : A) (l acc : list A) :
  In y (fold_left (fun acc x => insertDesc key x acc) l acc)
  <-> In y acc \/ In y l.
Proof.
  revert acc. induction l as [|x r IH]; intro acc; simpl.
  - intuition.
  - rewrite IH, In_insertDesc. intuition.
Qed.

Lemma In_sortDesc (y : A) (l : list A) : In y (sortDesc key l) <-> In y l.
Proof. unfold sortDesc. rewrite In_fold_insertDesc. simpl. intuition. Qed.

Lemma length_insertDesc (x : A) (l : list A) :
  List.length (insertDesc key x l) = S (List.length l).
Proof.
  induction l as [|z r IH]; simpl; [reflexivity|].
  destruct (key z <? key x); simpl; [reflexivity | now rewrite IH].
Qed.

Lemma length_fold_insertDesc (l acc : list A) :
  List.length (fold_left (fun acc x => insertDesc key x acc) l acc)
  = List.length acc + List.length l.
Proof.
  revert acc. induction l as [|x r IH]; intro acc; simpl; [lia|].
  rewrite IH, length_insertDesc. lia.
Qed.

Lemma length_sortDesc (l : list A) :
  List.length (sortDesc key l) = List.length l.
Proof. unfold sortDesc. now rewrite length_fold_insertDesc. Qed.

Lemma In_limit (n : nat) (y : A) (l : list A) : In y (limit n l) -> In y l.
Proof.
  unfold limit. destruct (n =? 0); [auto|]. intro H.
  rewrite <- (firstn_skipn n l). apply in_or_app. now left.
Qed.

Lemma limit_all (n : nat) (l : list A) :
  n = 0 \/ List.length l <= n -> limit n l = l.
Proof.
  unfold limit. intros [-> | H]; [reflexivity|].
  destruct (n =? 0); [reflexivity|]. now apply firstn_all2.
Qed.
End QueryFacts.

Lemma roundTrip_ok (w w' : World) :
  roundTrip w = (Ok tt, w') ->
  conversations w' = conversations w /\ feedbacks w' = feedbacks w
  /\ knowledge w' = knowledge w.
Proof.
  unfold roundTrip. destruct w as [cs fs ks [|[e|] rest]]; simpl;
    intro H; inversion H; subst; simpl; auto.
Qed.

Lemma roundTrip_stores (w w' : World) (r : Outcome unit) :
  roundTrip w = (r, w') ->
  conversations w' = conversations w /\ feedbacks w' = feedbacks w
  /\ knowledge w' = knowledge w.
Proof.
  unfold roundTrip. destruct w as [cs fs ks [|[e|] rest]]; simpl;
    intro H; inversion H; subst; simpl; auto.
Qed.

Lemma roundTrip_quiet (w : World) : faults w = [] -> roundTrip w = (Ok tt, w).
Proof. unfold roundTrip. now intros ->. Qed.

Lemma roleAllowed_spec (role : string) (e : KnowledgeEntry) :
  KnowledgeBase.roleAllowed role e = true
  <-> kb_accessRoles e = [] \/ In role (kb_accessRoles e).
Proof.
  unfold KnowledgeBase.roleAllowed. rewrite orb_true_iff, existsb_exists. split.
  - intros [[r [Hin Heq]] | Hlen].
    + apply String.eqb_eq in Heq. subst. now right.
    + left. destruct (kb_accessRoles e); [reflexivity | discriminate].
  - intros [-> | Hin]; [now right|]. left. exists role. split; [exact Hin|].
    apply String.eqb_refl.
Qed.

Lemma runSearch_sound score query role n kb e :
  In e (KnowledgeBase.runSearch score query role n kb) ->
  In e kb /\ score query e <> None /\ kb_isActive e = true
  /\ KnowledgeBase.roleAllowed role e = true.
Proof.
  unfold KnowledgeBase.runSearch. intro H.
  apply In_limit in H. apply In_sortDesc in H. apply filter_In in H as [Hin Hsel].
  unfold KnowledgeBase.selected in Hsel.
  destruct (score query e); [|discriminate].
  apply andb_true_iff in Hsel as [Ha Hr]. repeat split; auto. discriminate.
Qed.

Lemma runSearch_complete score query role n kb e :
  In e kb -> score query e <> None -> kb_isActive e = true ->
  KnowledgeBase.roleAllowed role e = true ->
  n = 0 \/ List.length kb <= n ->
  In e (KnowledgeBase.runSearch score query role n kb).
Proof.
  intros Hin Hs Ha Hr Hn. unfold KnowledgeBase.runSearch.
  rewrite limit_all.
  - apply In_sortDesc. apply filter_In. split; [exact Hin|].
    unfold KnowledgeBase.selected. destruct (score query e); [|congruence].
    now rewrite Ha, Hr.
  - destruct Hn as [-> | Hn]; [now left|]. right.
    rewrite length_sortDesc.
    pose proof (filter_length_le (KnowledgeBase.selected score query role) kb). lia.
Qed.

Lemma searchByRole_run env query role n w res w' :
  KnowledgeBase.searchByRole env query role n w = (Ok res, w') ->
  res = KnowledgeBase.runSearch (textScore env) query role n (knowledge w).
Proof.
  unfold KnowledgeBase.searchByRole, bind, getKnowledge, ret.
  destruct (roundTrip w) as [[[]|e] w1] eqn:R; intro H; inversion H; subst.
  apply roundTrip_ok in R. now destruct R as [_ [_ ->]].
Qed.

(** C6.  Whatever the query, role and limit, an entry that [searchByRole]
    returns is a stored entry that is active and whose [accessRoles] is empty
    or holds the role.  So an entry reserved to [admin] never comes back for
    [employee]; for [admin] it does come back when it is active, the text
    index matches it and the limit does not cut the result. *)
Theorem searchByRole_role_gated
        (env : Env) (query role : string) (n : nat) (w w' : World)
        (res : list KnowledgeEntry) :
  KnowledgeBase.searchByRole env query role n w = (Ok res, w') ->
  (forall e, In e res ->
             In e (knowledge w) /\ kb_isActive e = true
             /\ (kb_accessRoles e = [] \/ In role (kb_accessRoles e)))
  /\ (role = "employee" ->
      forall e, kb_accessRoles e = ["admin"] -> ~ In e res)
  /\ (role = "admin" ->
      forall e, In e (knowledge w) -> kb_accessRoles e = ["admin"] ->
                kb_isActive e = true -> textScore env query e <> None ->
                n = 0 \/ List.length (knowledge w) <= n ->
                In e res).
Proof.
  intro H. apply searchByRole_run in H. subst res. split; [|split].
  - intros e He. apply runSearch_sound in He as [Hin [_ [Ha Hr]]].
    apply roleAllowed_spec in Hr. auto.
  - intros -> e Hroles He. apply runSearch_sound in He as [_ [_ [_ Hr]]].
    apply roleAllowed_spec in Hr. rewrite Hroles in Hr.
    destruct Hr as [Hr | [Hr | []]]; discriminate.
  - intros -> e Hin Hroles Ha Hs Hn. apply runSearch_complete; auto.
    apply roleAllowed_spec. right. rewrite Hroles. now left.
Qed.

Lemma searchByRole_role_gated_witness :
  In adminEntry (knowledge sampleWorld)
  /\ kb_isActive adminEntry = true
  /\ (kb_accessRoles adminEntry = [] \/ In "admin" (kb_accessRoles adminEntry)).
Proof.
  apply (proj1 (searchByRole_role_gated sampleEnv "working hours" "admin" 7
                  sampleWorld sampleWorld [hoursEntry; adminEntry] eq_refl)).
  simpl. auto.
Defined.

(** ** Storage calls *)

Lemma bind_run {A B} (m m' : M A) (k : A -> M B) (w w' : World) :
  m w = m' w' -> bind m k w = bind m' k w'.
Proof. unfold bind. now intros ->. Qed.

Lemma sameStores_refl (w : World) : sameStores w w.
Proof. unfold sameStores. auto. Qed.

Lemma sameStores_trans (w w1 w2 : World) :
  sameStores w w1 -> sameStores w1 w2 -> sameStores w w2.
Proof. unfold sameStores. intuition congruence. Qed.

Lemma roundTrip_same (w w1 : World) (r : Outcome unit) :
  roundTrip w = (r, w1) -> sameStores w w1.
Proof. apply roundTrip_stores. Qed.

Lemma findOne_inv (sel : Conversation -> bool) (w w1 : World)
      (o : Outcome (option Conversation)) :
  ConversationModel.findOne sel w = (o, w1) ->
  sameStores w w1 /\ forall r, o = Ok r -> r = find sel (conversations w).
Proof.
  unfold ConversationModel.findOne, bind, getConversations, ret.
  destruct (roundTrip w) as [[[]|e] w0] eqn:R; intro H; inversion H; subst;
    apply roundTrip_same in R; split; auto.
  - intros r Hr. inversion Hr. now destruct R as [-> _].
  - intros r Hr. discriminate.
Qed.

Lemma findOne_quiet (sel : Conversation -> bool) (w : World) :
  faults w = [] ->
  ConversationModel.findOne sel w = (Ok (find sel (conversations w)), w).
Proof.
  intro H. unfold ConversationModel.findOne, bind, getConversations, ret.
  now rewrite (roundTrip_quiet w H).
Qed.

Lemma feedback_save_inv (f : Feedback) (w w1 : World) (o : Outcome unit) :
  FeedbackModel.save f w = (o, w1) ->
  conversations w1 = conversations w /\ knowledge w1 = knowledge w
  /\ match o with
     | Ok _ => FeedbackModel.valid (FeedbackModel.cast f) = true
               /\ feedbacks w1 = (feedbacks w ++ [FeedbackModel.cast f])%list
     | Throw _ => feedbacks w1 = feedbacks w
     end.
Proof.
  unfold FeedbackModel.save.
  destruct (FeedbackModel.valid (FeedbackModel.cast f)) eqn:V; simpl.
  - unfold bind, getFeedbacks, putFeedbacks, throw.
    destruct (roundTrip w) as [[[]|e] w0] eqn:R; apply roundTrip_same in R;
      destruct R as [Rc [Rf Rk]].
    + destruct (existsb _ (feedbacks w0)); intro H; inversion H; subst; simpl;
        rewrite ?Rc, ?Rf, ?Rk; auto.
    + intro H; inversion H; subst. auto.
  - unfold throw. intro H; inversion H; subst. auto.
Qed.

Lemma conversation_save_inv (env : Env) (isNew : bool) (pushed : list Message)
      (c : Conversation) (w w1 : World) (o : Outcome unit) :
  ConversationModel.save env isNew pushed c w = (o, w1) ->
  feedbacks w1 = feedbacks w /\ knowledge w1 = knowledge w
  /\ match o with
     | Ok _ =>
         forallb ConversationModel.validMessage pushed = true
         /\ conversations w1 =
            (if isNew
             then (conversations w ++ [ConversationModel.touch (now env) c])%list
             else updateFirst (fun d => conv_id d =? conv_id c)
                              (fun _ => ConversationModel.touch (now env) c)
                              (conversations w))
         /\ (isNew = true ->
             existsb (ConversationModel.clashes c) (conversations w) = false)
     | Throw _ => conversations w1 = conversations w
     end.
Proof.
  unfold ConversationModel.save.
  destruct (forallb ConversationModel.validMessage pushed) eqn:V; simpl.
  - unfold bind, getConversations, putConversations, throw.
    destruct (roundTrip w) as [[[]|e] w0] eqn:R; apply roundTrip_same in R;
      destruct R as [Rc [Rf Rk]].
    + destruct isNew.
      * destruct (existsb _ (conversations w0)) eqn:X; intro H; inversion H;
          subst; simpl; rewrite ?Rc, ?Rf, ?Rk in *; auto.
      * intro H; inversion H; subst; simpl; rewrite ?Rc, ?Rf, ?Rk; repeat split;
          auto; discriminate.
    + intro H; inversion H; subst. auto.
  - unfold throw. intro H; inversion H; subst. auto.
Qed.

(** ** Feedback *)

Lemma postFeedback_rejects_zero env user req w :
  rejects env user (withRating req 0) w.
Proof.
  unfold rejects, postFeedback, route, withRating. simpl.
  destruct (fr_conversationId req); simpl; auto.
Qed.

Lemma postFeedback_rejects_six env user req w :
  rejects env user (withRating req 6) w.
Proof.
  unfold rejects, postFeedback, route, withRating. simpl.
  destruct (fr_conversationId req); simpl; auto.
Qed.

Lemma parseInt_range (q : Q) :
  Qltb q 1 = false -> Qltb 5 q = false -> (1 <= parseInt q <= 5)%Z.
Proof.
  unfold Qltb, parseInt. intros Hlo Hhi.
  apply negb_false_iff in Hlo, Hhi. apply Qle_bool_iff in Hlo, Hhi.
  unfold Qle in Hlo, Hhi. simpl in Hlo, Hhi.
  destruct q as [n d]. simpl in *.
  assert (Hn : (0 <= n)%Z) by lia.
  rewrite Z.quot_div_nonneg by lia. split.
  - apply Z.div_le_lower_bound; lia.
  - apply Z.div_le_upper_bound; lia.
Qed.

(** A request that passes the checks of the route, on a conversation of the
    caller, with no storage fault: one record is added and the conversation
    is stamped. *)
Lemma postFeedback_run env user req w cid q c :
  fr_conversationId req = Some cid ->
  fr_rating req = Some q ->
  Qeq_bool q 0 = false -> Qltb q 1 = false -> Qltb 5 q = false ->
  faults w = [] ->
  find (ConversationModel.byId cid (user_id user)) (conversations w) = Some c ->
  answerable req c ->
  unusedFeedbackId (freshId env) w ->
  postFeedback env user req w =
  (json (FeedbackId (freshId env)),
   mkWorld (updateFirst (fun d => conv_id d =? conv_id c)
              (fun _ => ConversationModel.touch (now env)
                          (ConversationModel.stamp
                             (mkSessionFeedback (parseInt q) (fr_comment req) (now env))
                             c))
              (conversations w))
           (feedbacks w ++ [FeedbackModel.cast (feedbackOf env user cid q req c)])
           (knowledge w) []).
Proof.
  intros Hc Hr Hz Hlo Hhi Hq Hfind [Hquestion Hresponse] Hid.
  assert (Hrange : ((1 <=? parseInt q)%Z && (parseInt q <=? 5)%Z) = true).
  { destruct (parseInt_range q Hlo Hhi).
    apply andb_true_iff. split; now apply Z.leb_le. }
  assert (V : FeedbackModel.valid (FeedbackModel.cast (feedbackOf env user cid q req c)) = true).
  { unfold FeedbackModel.valid. simpl. rewrite Hquestion, Hresponse. exact Hrange. }
  unfold postFeedback, route. rewrite Hc, Hr, Hz, Hlo, Hhi. simpl.
  unfold bind at 1. rewrite (findOne_quiet _ w Hq), Hfind.
  destruct w as [cs fs ks fl]. simpl in *. subst fl.
  unfold bind at 1. unfold FeedbackModel.save. rewrite V. simpl.
  unfold bind, roundTrip, getFeedbacks, putFeedbacks, throw. simpl.
  unfold unusedFeedbackId in Hid. simpl in Hid. rewrite Hid. simpl.
  reflexivity.
Qed.

(** Whatever the request and the faults, the route leaves the feedback
    collection as it was or adds one record, made for the caller on a
    conversation of the caller, whose rating lies between 1 and 5. *)
Lemma postFeedback_writes env user req w resp w' :
  postFeedback env user req w = (resp, w') ->
  feedbacks w' = feedbacks w
  \/ exists f c,
      feedbacks w' = (feedbacks w ++ [f])%list
      /\ (1 <= fb_rating f <= 5)%Z
      /\ fb_userId f = user_id user
      /\ In c (conversations w)
      /\ conv_userId c = user_id user
      /\ fb_conversationId f = conv_id c.
Proof.
  unfold postFeedback, route.
  destruct (fr_conversationId req) as [cid|];
    [|simpl; intro H; inversion H; now left].
  destruct (fr_rating req) as [q|]; [|simpl; intro H; inversion H; now left].
  destruct (Qeq_bool q 0); [simpl; intro H; inversion H; now left|].
  destruct (Qltb q 1 || Qltb 5 q) eqn:Hq; [simpl; intro H; inversion H; now left|].
  unfold bind at 1.
  destruct (ConversationModel.findOne _ w) as [[found|e] w1] eqn:F;
    apply findOne_inv in F as [[Sc [Sf Sk]] Hfound];
    [|intro H; inversion H; subst; now left].
  specialize (Hfound _ eq_refl).
  destruct found as [c|]; [|simpl; intro H; inversion H; subst; now left].
  symmetry in Hfound. pose proof (find_some _ _ Hfound) as [Hin Hsel].
  unfold ConversationModel.byId in Hsel. apply andb_true_iff in Hsel as [Hcid Huid].
  apply Nat.eqb_eq in Hcid, Huid.
  unfold bind at 1.
  destruct (FeedbackModel.save _ w1) as [[[]|e] w2] eqn:S;
    apply feedback_save_inv in S as [Tc [Tk Tf]];
    [|intro H; inversion H; subst; left; now rewrite Tf].
  destruct Tf as [V Tf].
  unfold bind at 1.
  destruct (ConversationModel.save _ _ _ _ w2) as [[[]|e] w3] eqn:C;
    apply conversation_save_inv in C as [Uf [Uk _]];
    simpl; intro H; inversion H; subst w3;
    right; exists (FeedbackModel.cast (feedbackOf env user cid q req c)), c;
    (split; [now rewrite Uf, Tf, Sf|]);
    unfold FeedbackModel.valid in V; simpl in V;
    repeat (apply andb_true_iff in V as [V ?]);
    repeat split; simpl; try lia; auto.
Qed.

Lemma postFeedback_stores env user req w cid q c :
  fr_conversationId req = Some cid ->
  fr_rating req = Some q ->
  Qeq_bool q 0 = false -> Qltb q 1 = false -> Qltb 5 q = false ->
  faults w = [] ->
  find (ConversationModel.byId cid (user_id user)) (conversations w) = Some c ->
  answerable req c ->
  unusedFeedbackId (freshId env) w ->
  stores env user req w (parseInt q)
         (match fr_isHelpful req with
          | Some true => true
          | _ => Qle_bool 4 q
          end).
Proof.
  intros Hc Hr Hz Hlo Hhi Hq Hfind Hans Hid.
  exists (FeedbackModel.cast (feedbackOf env user cid q req c)).
  rewrite (postFeedback_run env user req w cid q c Hc Hr Hz Hlo Hhi Hq Hfind Hans Hid).
  simpl. auto.
Qed.

(** C3 (as amended).  On a conversation of the caller that supplies a
    question and a response, with no helpfulness flag in the request and no
    storage fault: a rating of 0 or of 6 is refused with status 400 and
    nothing is written; a rating of 2.5 passes the range check and is stored
    truncated, as 2, with [isHelpful] false; a rating of 3 is stored with
    [isHelpful] false and a rating of 5 with [isHelpful] true; and whatever
    the rating, a record the route adds carries an integer between 1 and 5. *)
Theorem feedback_rating_checked_and_truncated
        (env : Env) (user : User) (req : FeedbackRequest) (w : World)
        (cid : ObjectId) (c : Conversation) :
  fr_conversationId req = Some cid ->
  fr_isHelpful req = None ->
  find (ConversationModel.byId cid (user_id user)) (conversations w) = Some c ->
  answerable req c ->
  faults w = [] ->
  unusedFeedbackId (freshId env) w ->
  rejects env user (withRating req 0) w
  /\ rejects env user (withRating req 6) w
  /\ stores env user (withRating req (5 # 2)) w 2 false
  /\ stores env user (withRating req 3) w 3 false
  /\ stores env user (withRating req 5) w 5 true
  /\ (forall q f,
         In f (feedbacks (snd (postFeedback env user (withRating req q) w))) ->
         In f (feedbacks w) \/ (1 <= fb_rating f <= 5)%Z).
Proof.
  intros Hc Hh Hfind Hans Hq Hid.
  split; [apply postFeedback_rejects_zero|].
  split; [apply postFeedback_rejects_six|].
  assert (S : forall q, Qeq_bool q 0 = false -> Qltb q 1 = false ->
                        Qltb 5 q = false ->
                        stores env user (withRating req q) w (parseInt q)
                               (Qle_bool 4 q)).
  { intros q Hz Hlo Hhi.
    pose proof (@postFeedback_stores env user (withRating req q) w cid q c
                  Hc eq_refl Hz Hlo Hhi Hq Hfind Hans Hid) as P.
    simpl in P. rewrite Hh in P. exact P. }
  split; [exact (S (5 # 2)%Q eq_refl eq_refl eq_refl)|].
  split; [exact (S 3%Q eq_refl eq_refl eq_refl)|].
  split; [exact (S 5%Q eq_refl eq_refl eq_refl)|].
  intros q f Hin.
  destruct (postFeedback env user (withRating req q) w) as [resp w'] eqn:E.
  simpl in Hin.
  destruct (postFeedback_writes _ _ _ _ _ _ E) as [Same | [f0 [c0 [Hadd [Hr _]]]]].
  - left. now rewrite <- Same.
  - rewrite Hadd in Hin. apply in_app_or in Hin as [Hin | [<- | []]]; auto.
Qed.

Lemma feedback_rating_checked_and_truncated_witness :
  stores sampleEnv ann (withRating rateAnn (5 # 2)) sampleWorld 2 false
  /\ rejects sampleEnv ann (withRating rateAnn 6) sampleWorld.
Proof.
  pose proof (@feedback_rating_checked_and_truncated
                sampleEnv ann rateAnn sampleWorld 6 annSession
                eq_refl eq_refl eq_refl (conj eq_refl eq_refl) eq_refl eq_refl)
    as [_ [R6 [S25 _]]].
  exact (conj S25 R6).
Defined.

(** C3, as the specification words it, fails on the rating 2.5: the request
    is answered with success and a record with rating 2 is created. *)
Lemma feedback_accepts_fractional_rating :
  status (fst (postFeedback sampleEnv ann (withRating rateAnn (5 # 2)) sampleWorld)) = 200
  /\ map fb_rating
         (feedbacks (snd (postFeedback sampleEnv ann (withRating rateAnn (5 # 2))
                                       sampleWorld))) = [2%Z]
  /\ ~ rejects sampleEnv ann (withRating rateAnn (5 # 2)) sampleWorld.
Proof.
  split; [reflexivity|]. split; [reflexivity|].
  intros [H _]. vm_compute in H. discriminate.
Qed.

(** C10.  When the request says [isHelpful: false] and rates 4 or 5, on a
    conversation of the caller that supplies a question and a response and
    with no storage fault, the record that is stored has [isHelpful] true:
    the falsy flag gives way to the comparison of the rating with 4. *)
Theorem explicit_unhelpful_overridden
        (env : Env) (user : User) (req : FeedbackRequest) (w : World)
        (cid : ObjectId) (c : Conversation) :
  fr_conversationId req = Some cid ->
  fr_isHelpful req = Some false ->
  fr_rating req = Some 4%Q \/ fr_rating req = Some 5%Q ->
  find (ConversationModel.byId cid (user_id user)) (conversations w) = Some c ->
  answerable req c ->
  faults w = [] ->
  unusedFeedbackId (freshId env) w ->
  exists f,
    fst (postFeedback env user req w) = json (FeedbackId (fb_id f))
    /\ feedbacks (snd (postFeedback env user req w)) = (feedbacks w ++ [f])%list
    /\ (fb_rating f = 4 \/ fb_rating f = 5)%Z
    /\ fb_isHelpful f = true.
Proof.
  intros Hc Hh Hr Hfind Hans Hq Hid.
  destruct Hr as [Hr | Hr];
    destruct (@postFeedback_stores env user req w cid _ c
                Hc Hr eq_refl eq_refl eq_refl Hq Hfind Hans Hid)
      as [f [Hresp [Hadd [Hrat Hhelp]]]];
    exists f; rewrite Hh in Hhelp; simpl in Hrat, Hhelp; auto.
Qed.

Lemma explicit_unhelpful_overridden_witness :
  exists f,
    fst (postFeedback sampleEnv ann
           (mkFeedbackRequest (Some 6) (Some 5%Q) "not what I asked" "" ""
                              (Some false)) sampleWorld)
    = json (FeedbackId (fb_id f))
    /\ feedbacks (snd (postFeedback sampleEnv ann
           (mkFeedbackRequest (Some 6) (Some 5%Q) "not what I asked" "" ""
                              (Some false)) sampleWorld)) = ([] ++ [f])%list
    /\ (fb_rating f = 4 \/ fb_rating f = 5)%Z
    /\ fb_isHelpful f = true.
Proof.
  exact (@explicit_unhelpful_overridden sampleEnv ann
           (mkFeedbackRequest (Some 6) (Some 5%Q) "not what I asked" "" ""
                              (Some false))
           sampleWorld 6 annSession eq_refl eq_refl (or_intror eq_refl) eq_refl
           (conj eq_refl eq_refl) eq_refl eq_refl).
Defined.

(** ** Ownership *)

Lemma find_none_of {A} (sel : A -> bool) (l : list A) :
  (forall x, In x l -> sel x = false) -> find sel l = None.
Proof.
  induction l as [|x r IH]; simpl; intro H; [reflexivity|].
  rewrite (H x (or_introl eq_refl)). apply IH. intros y Hy. apply H. now right.
Qed.

Lemma filter_none_of {A} (sel : A -> bool) (l : list A) :
  (forall x, In x l -> sel x = false) -> filter sel l = [].
Proof.
  induction l as [|x r IH]; simpl; intro H; [reflexivity|].
  rewrite (H x (or_introl eq_refl)). apply IH. intros y Hy. apply H. now right.
Qed.

Lemma bySession_foreign user sid w c :
  notOwnedSession user sid w -> In c (conversations w) ->
  ConversationModel.bySession sid (user_id user) c = false.
Proof.
  intros H Hin. unfold ConversationModel.bySession.
  destruct (String.eqb_spec (conv_sessionId c) sid) as [E|]; [|reflexivity].
  simpl. apply Nat.eqb_neq. now apply (H c).
Qed.

Lemma byId_foreign user cid w c :
  notOwnedConversation user cid w -> In c (conversations w) ->
  ConversationModel.byId cid (user_id user) c = false.
Proof.
  intros H Hin. unfold ConversationModel.byId.
  destruct (Nat.eqb_spec (conv_id c) cid) as [E|]; [|reflexivity].
  simpl. apply Nat.eqb_neq. now apply (H c).
Qed.

Lemma resolveSession_foreign env user sid w :
  faults w = [] -> notOwnedSession user sid w ->
  resolveSession env user sid w = (Ok (newConversation env user, true), w).
Proof.
  intros Hq H. unfold resolveSession, bind.
  destruct (Js.truthy sid); [|reflexivity].
  rewrite (findOne_quiet _ w Hq).
  rewrite find_none_of; [reflexivity|].
  intros c Hc. now apply bySession_foreign with (w := w).
Qed.

Lemma resolveSession_absent env user w :
  resolveSession env user "" w = (Ok (newConversation env user, true), w).
Proof. reflexivity. Qed.

Lemma persistTurn_foreign env user message sid w :
  faults w = [] -> notOwnedSession user sid w ->
  persistTurn env user (mkChatRequest message sid) w
  = persistTurn env user (mkChatRequest message "") w.
Proof.
  intros Hq H. unfold persistTurn. cbn [req_message req_sessionId].
  apply bind_run.
  now rewrite (resolveSession_foreign env user sid w Hq H), resolveSession_absent.
Qed.

Lemma chatError_status (e : Thrown) :
  success (chatError e) = Some false
  /\ (status (chatError e) = 500 \/ status (chatError e) = 503).
Proof.
  unfold chatError.
  destruct (mentions "API key" (thrownMessage e) || mentions "Gemini" (thrownMessage e));
    [simpl; auto|].
  destruct (match thrownName e with Some n => String.eqb n "MongoError" | None => false end);
    simpl; auto.
Qed.

(** [POST /chat] answers 200, 400, 500 or 503 and nothing else. *)
Lemma postChat_status env user req w :
  In (status (fst (postChat env user req w))) [200; 400; 500; 503].
Proof.
  unfold postChat, route, chatTurn.
  destruct (negb (Js.truthy (req_message req))
            || (String.length (Js.trim (req_message req)) =? 0));
    [simpl; auto|].
  destruct (1000 <? String.length (req_message req)); [simpl; auto|].
  unfold bind at 1.
  destruct (persistTurn env user req w) as [[t|e] w1].
  - unfold bind. destruct (countViews env (turn_knowledge t) w1) as [[[]|e] w2].
    + simpl. auto.
    + simpl. destruct (chatError_status e) as [_ [-> | ->]]; simpl; auto.
  - simpl. destruct (chatError_status e) as [_ [-> | ->]]; simpl; auto.
Qed.

(** C7 (as amended).  The session and conversation lookups filter on the
    identifier together with the caller's id.  When no session (or
    conversation) with the identifier belongs to the caller, and storage
    does not fail: the single delete, the export and the history of that
    session answer 404 and change nothing, and so does a feedback whose
    rating passes the checks; a chat turn does not answer 404 but is handled
    exactly as a turn sent without a session id, on a session of its own. *)
Theorem foreign_session_not_found_or_replaced
        (env : Env) (user : User) (sid : string) (w : World) :
  faults w = [] ->
  notOwnedSession user sid w ->
  deleteConversation user sid w = (notFound, w)
  /\ exportConversation user sid w = (notFound, w)
  /\ (Js.truthy sid = true ->
      getHistory user sid w = (failure 404 "No conversations found" NoSessions, w))
  /\ (forall req cid q,
         fr_conversationId req = Some cid -> fr_rating req = Some q ->
         passesRatingChecks q -> notOwnedConversation user cid w ->
         postFeedback env user req w = (notFound, w))
  /\ (forall message,
         postChat env user (mkChatRequest message sid) w
         = postChat env user (mkChatRequest message "") w
         /\ status (fst (postChat env user (mkChatRequest message sid) w)) <> 404).
Proof.
  intros Hq H.
  assert (Hnone : find (ConversationModel.bySession sid (user_id user))
                       (conversations w) = None).
  { apply find_none_of. intros c Hc. now apply bySession_foreign with (w := w). }
  split; [|split; [|split; [|split]]].
  - unfold deleteConversation, route, ConversationModel.findOneAndDelete, bind,
      getConversations.
    rewrite (roundTrip_quiet w Hq), Hnone. reflexivity.
  - unfold exportConversation, route, bind.
    rewrite (findOne_quiet _ w Hq), Hnone. reflexivity.
  - intro Ht. unfold getHistory, route, ConversationModel.findSorted, bind,
      getConversations, ret.
    rewrite (roundTrip_quiet w Hq), Ht.
    rewrite filter_none_of; [reflexivity|].
    intros c Hc. unfold ConversationModel.byUser.
    pose proof (bySession_foreign user sid w c H Hc) as B.
    unfold ConversationModel.bySession in B.
    destruct (String.eqb (conv_sessionId c) sid); simpl in *;
      [now rewrite B | apply andb_false_r].
  - intros req cid q Hc Hr [Hz [Hlo Hhi]] Hown.
    unfold postFeedback, route. rewrite Hc, Hr, Hz, Hlo, Hhi. simpl.
    unfold bind. rewrite (findOne_quiet _ w Hq).
    rewrite find_none_of; [reflexivity|].
    intros c Hin. now apply byId_foreign with (w := w).
  - intro message. split.
    + unfold postChat, chatTurn. cbn [req_message].
      destruct (negb (Js.truthy message) || (String.length (Js.trim message) =? 0));
        [reflexivity|].
      destruct (1000 <? String.length message); [reflexivity|].
      unfold route.
      now rewrite (bind_run _ _ _ _ _ (persistTurn_foreign env user message sid w Hq H)).
    + pose proof (postChat_status env user (mkChatRequest message sid) w) as S.
      simpl in S. intro E. rewrite E in S.
      destruct S as [S | [S | [S | [S | []]]]]; discriminate.
Qed.

Lemma bobSession_foreign_to_ann : notOwnedSession ann "session_1_bob" sampleWorld.
Proof.
  intros c [<- | [<- | []]]; simpl; intros E; [discriminate | discriminate E].
Qed.

Lemma foreign_session_not_found_or_replaced_witness :
  deleteConversation ann "session_1_bob" sampleWorld = (notFound, sampleWorld)
  /\ exportConversation ann "session_1_bob" sampleWorld = (notFound, sampleWorld).
Proof.
  pose proof (foreign_session_not_found_or_replaced sampleEnv ann "session_1_bob"
                sampleWorld eq_refl bobSession_foreign_to_ann) as [D [E _]].
  exact (conj D E).
Defined.

(** C7, as the specification words it, fails for the lookup of a chat turn:
    Bob's session exists, Ann names it, and the turn is answered with
    success on a new session instead of 404. *)
Lemma chat_turn_on_foreign_session_succeeds :
  (exists c, In c (conversations sampleWorld)
             /\ conv_sessionId c = "session_1_bob"
             /\ conv_userId c <> user_id ann)
  /\ status (fst (postChat sampleEnv ann
                    (mkChatRequest "What are the working hours?" "session_1_bob")
                    sampleWorld)) = 200
  /\ status (fst (postChat sampleEnv ann
                    (mkChatRequest "What are the working hours?" "session_1_bob")
                    sampleWorld)) <> 404.
Proof.
  split; [|split].
  - exists bobSession. split; [simpl; auto|]. split; [reflexivity|].
    simpl. discriminate.
  - reflexivity.
  - vm_compute. discriminate.
Qed.

(** What the export and the history hand out comes from sessions found under
    the caller's id. *)
Lemma export_returns_own_session user sid w resp w' :
  exportConversation user sid w = (resp, w') ->
  status resp = 200 ->
  exists c,
    In c (conversations w)
    /\ conv_sessionId c = sid /\ conv_userId c = user_id user
    /\ payload resp
       = Export sid (user_id user) (user_name user) (user_email user)
                (List.length (conv_messages c)) (map exported (conv_messages c))
                (conv_userRole c) (conv_updatedAt c).
Proof.
  unfold exportConversation, route, bind.
  destruct (ConversationModel.findOne _ w) as [[found|e] w1] eqn:F;
    apply findOne_inv in F as [_ Hfound];
    [|intro H; inversion H; subst; discriminate].
  specialize (Hfound _ eq_refl). destruct found as [c|];
    [|intro H; inversion H; subst; discriminate].
  symmetry in Hfound. apply find_some in Hfound as [Hin Hsel].
  unfold ConversationModel.bySession in Hsel.
  apply andb_true_iff in Hsel as [Hs Hu].
  apply String.eqb_eq in Hs. apply Nat.eqb_eq in Hu.
  unfold ret. intro H; inversion H; subst. intros _. exists c. auto.
Qed.

Lemma history_returns_own_sessions user sid w resp w' :
  getHistory user sid w = (resp, w') ->
  match payload resp with
  | Transcript s messages _ _ =>
      exists c, In c (conversations w) /\ conv_userId c = user_id user
                /\ conv_sessionId c = sid /\ s = sid
                /\ messages = conv_messages c
  | Sessions _ items =>
      forall item, In item items ->
                   exists c, In c (conversations w)
                             /\ conv_userId c = user_id user
                             /\ item = summaryOf c
  | _ => True
  end.
Proof.
  unfold getHistory, route, ConversationModel.findSorted, bind, getConversations, ret.
  destruct (roundTrip w) as [[[]|e] w0] eqn:R; apply roundTrip_same in R;
    destruct R as [Rc _]; [|intro H; inversion H; subst; exact I].
  rewrite Rc.
  set (found := limit _ (sortDesc _ (filter _ (conversations w)))).
  assert (Hown : forall c, In c found ->
                           In c (conversations w) /\ conv_userId c = user_id user
                           /\ (Js.truthy sid = true -> conv_sessionId c = sid)).
  { intros c Hc. unfold found in Hc. apply In_limit, In_sortDesc in Hc.
    apply filter_In in Hc as [Hin Hsel]. apply andb_true_iff in Hsel as [Hu Hs].
    apply Nat.eqb_eq in Hu. repeat split; auto.
    intro Ht. rewrite Ht in Hs. now apply String.eqb_eq. }
  destruct found as [|c rest] eqn:E; [intro H; inversion H; subst; exact I|].
  destruct (Js.truthy sid) eqn:T; intro H; inversion H; subst; simpl.
  - destruct (Hown c (or_introl eq_refl)) as [Hin [Hu Hs]].
    exists c. repeat split; auto.
  - intros item [<- | Hitem].
    + destruct (Hown c (or_introl eq_refl)) as [Hin [Hu _]]. exists c. auto.
    + apply in_map_iff in Hitem as [d [<- Hd]].
      destruct (Hown d (or_intror Hd)) as [Hin [Hu _]]. exists d. auto.
Qed.

(** ** Deletion *)

Lemma conv_deleteMany_inv sel w o w1 :
  ConversationModel.deleteMany sel w = (o, w1) ->
  feedbacks w1 = feedbacks w /\ knowledge w1 = knowledge w
  /\ match o with
     | Ok n => n = List.length (filter sel (conversations w))
               /\ conversations w1 = filter (fun c => negb (sel c)) (conversations w)
     | Throw _ => conversations w1 = conversations w
     end.
Proof.
  unfold ConversationModel.deleteMany, bind, getConversations, putConversations, ret.
  destruct (roundTrip w) as [[[]|e] w0] eqn:R; apply roundTrip_same in R;
    destruct R as [Rc [Rf Rk]]; intro H; inversion H; subst; simpl;
    rewrite ?Rc; auto.
Qed.

Lemma feedback_deleteMany_inv sel w o w1 :
  FeedbackModel.deleteMany sel w = (o, w1) ->
  conversations w1 = conversations w /\ knowledge w1 = knowledge w
  /\ match o with
     | Ok _ => feedbacks w1 = filter (fun f => negb (sel f)) (feedbacks w)
     | Throw _ => feedbacks w1 = feedbacks w
     end.
Proof.
  unfold FeedbackModel.deleteMany, bind, getFeedbacks, putFeedbacks, ret.
  destruct (roundTrip w) as [[[]|e] w0] eqn:R; apply roundTrip_same in R;
    destruct R as [Rc [Rf Rk]]; intro H; inversion H; subst; simpl;
    rewrite ?Rf; auto.
Qed.

Lemma findOneAndDelete_inv sel w o w1 :
  ConversationModel.findOneAndDelete sel w = (o, w1) ->
  feedbacks w1 = feedbacks w /\ knowledge w1 = knowledge w
  /\ match o with
     | Ok (Some c) => find sel (conversations w) = Some c
                      /\ conversations w1 = removeFirst sel (conversations w)
     | Ok None => find sel (conversations w) = None
                  /\ conversations w1 = conversations w
     | Throw _ => conversations w1 = conversations w
     end.
Proof.
  unfold ConversationModel.findOneAndDelete, bind, getConversations,
    putConversations, ret.
  destruct (roundTrip w) as [[[]|e] w0] eqn:R; apply roundTrip_same in R;
    destruct R as [Rc [Rf Rk]].
  - rewrite Rc. destruct (find sel (conversations w)) eqn:F;
      intro H; inversion H; subst; simpl; auto.
  - intro H; inversion H; subst. auto.
Qed.

Lemma filter_negb_In {A} (sel : A -> bool) (l : list A) (x : A) :
  In x (filter (fun y => negb (sel y)) l) -> sel x = false.
Proof.
  intro H. apply filter_In in H as [_ H]. now apply negb_true_iff.
Qed.

Lemma deleteConversation_quiet (user : User) (sid : string) (w : World)
      (c : Conversation) :
  faults w = [] ->
  find (ConversationModel.bySession sid (user_id user)) (conversations w) = Some c ->
  deleteConversation user sid w
  = (json NoPayload,
     mkWorld (removeFirst (ConversationModel.bySession sid (user_id user))
                          (conversations w))
             (filter (fun f => negb (fb_conversationId f =? conv_id c)) (feedbacks w))
             (knowledge w) []).
Proof.
  intros Hq Hf. destruct w as [cs fs ks fl]. simpl in *. subst fl.
  unfold deleteConversation, route, ConversationModel.findOneAndDelete,
    FeedbackModel.deleteMany, bind, roundTrip, getConversations,
    putConversations, getFeedbacks, putFeedbacks, ret.
  simpl. rewrite Hf. reflexivity.
Qed.

Lemma deleteAllConversations_quiet (user : User) (w : World) :
  faults w = [] ->
  deleteAllConversations user w
  = (json (Deleted (List.length (filter (ConversationModel.byUser (user_id user))
                                        (conversations w)))),
     mkWorld (filter (fun c => negb (ConversationModel.byUser (user_id user) c))
                     (conversations w))
             (filter (fun f => negb (fb_userId f =? user_id user)) (feedbacks w))
             (knowledge w) []).
Proof.
  intros Hq. destruct w as [cs fs ks fl]. simpl in *. subst fl. reflexivity.
Qed.

(** C8.  A single delete that succeeds removed a session of the caller and
    left no feedback record that refers to that conversation's id.  A delete
    of all sessions that succeeds reports as [deletedCount] the number of
    sessions the caller had, leaves the caller no session and no feedback
    record of their own; since a record carries the user id of its
    conversation, no record that refers to one of the deleted sessions is
    left.  And both do succeed when the storage does not fail: the delete of
    a session the caller owns answers 200, and so does the delete of all
    sessions, whatever the caller has. *)
Theorem delete_cascades_to_feedback (user : User) (w : World) :
  (faults w = [] ->
   (forall sid c,
       find (ConversationModel.bySession sid (user_id user)) (conversations w)
       = Some c ->
       status (fst (deleteConversation user sid w)) = 200
       /\ success (fst (deleteConversation user sid w)) = Some true)
   /\ status (fst (deleteAllConversations user w)) = 200
   /\ success (fst (deleteAllConversations user w)) = Some true)
  /\ (forall sid resp w',
      deleteConversation user sid w = (resp, w') ->
      status resp = 200 ->
      exists c,
        find (ConversationModel.bySession sid (user_id user)) (conversations w) = Some c
        /\ conversations w'
           = removeFirst (ConversationModel.bySession sid (user_id user)) (conversations w)
        /\ feedbacks w'
           = filter (fun f => negb (fb_conversationId f =? conv_id c)) (feedbacks w)
        /\ forall f, In f (feedbacks w') -> fb_conversationId f <> conv_id c)
  /\ (forall resp w',
         deleteAllConversations user w = (resp, w') ->
         status resp = 200 ->
         payload resp
         = Deleted (List.length (filter (ConversationModel.byUser (user_id user))
                                        (conversations w)))
         /\ (forall c, In c (conversations w') <->
                       In c (conversations w) /\ conv_userId c <> user_id user)
         /\ (forall f, In f (feedbacks w') <->
                       In f (feedbacks w) /\ fb_userId f <> user_id user)
         /\ (feedbackOwned w ->
             forall f c, In f (feedbacks w') -> In c (conversations w) ->
                         conv_userId c = user_id user ->
                         fb_conversationId f <> conv_id c)).
Proof.
  split; [|split].
  - intro Hq. split.
    + intros sid c Hf. now rewrite (deleteConversation_quiet user sid w c Hq Hf).
    + now rewrite (deleteAllConversations_quiet user w Hq).
  - intros sid resp w'. unfold deleteConversation, route. unfold bind at 1.
    destruct (ConversationModel.findOneAndDelete _ w) as [[[c|]|e] w1] eqn:D;
      apply findOneAndDelete_inv in D as [Df [Dk Dc]];
      [|intro H; inversion H; subst; discriminate
       |intro H; inversion H; subst; discriminate].
    destruct Dc as [Hfind Hrem]. unfold bind.
    destruct (FeedbackModel.deleteMany _ w1) as [[n|e] w2] eqn:F;
      apply feedback_deleteMany_inv in F as [Fc [Fk Ff]];
      intro H; inversion H; subst; [|discriminate].
    intros _. exists c. rewrite Fc, Ff, Df. repeat split; auto.
    intros f Hin. apply filter_negb_In in Hin. now apply Nat.eqb_neq.
  - intros resp w'. unfold deleteAllConversations, route. unfold bind at 1.
    destruct (ConversationModel.deleteMany _ w) as [[n|e] w1] eqn:D;
      apply conv_deleteMany_inv in D as [Df [Dk Dc]];
      [|intro H; inversion H; subst; discriminate].
    destruct Dc as [-> Hc]. unfold bind.
    destruct (FeedbackModel.deleteMany _ w1) as [[m|e] w2] eqn:F;
      apply feedback_deleteMany_inv in F as [Fc [Fk Ff]];
      intro H; inversion H; subst; [|discriminate].
    intros _.
    assert (Hfb : forall f, In f (feedbacks w') <->
                            In f (feedbacks w) /\ fb_userId f <> user_id user).
    { intro f. rewrite Ff, Df, filter_In, negb_true_iff, Nat.eqb_neq. tauto. }
    split; [reflexivity|]. split; [|split; [exact Hfb|]].
    + intro c. rewrite Fc, Hc, filter_In, negb_true_iff.
      unfold ConversationModel.byUser. rewrite Nat.eqb_neq. tauto.
    + intros Hown f c Hf Hcin Hu E. apply Hfb in Hf as [Hf Hne].
      apply Hne. rewrite (Hown f c Hf Hcin E). exact Hu.
Qed.

Lemma delete_cascades_to_feedback_witness :
  (status (fst (deleteConversation ann "session_2_ann" ratedWorld)) = 200
   /\ status (fst (deleteAllConversations ann ratedWorld)) = 200)
  /\ (exists c,
        find (ConversationModel.bySession "session_2_ann" (user_id ann))
             (conversations ratedWorld) = Some c
        /\ conversations (mkWorld [bobSession] [] [hoursEntry; adminEntry] [])
           = removeFirst (ConversationModel.bySession "session_2_ann" (user_id ann))
                         (conversations ratedWorld)
        /\ feedbacks (mkWorld [bobSession] [] [hoursEntry; adminEntry] [])
           = filter (fun f => negb (fb_conversationId f =? conv_id c))
                    (feedbacks ratedWorld)
        /\ forall f,
             In f (feedbacks (mkWorld [bobSession] [] [hoursEntry; adminEntry] []))
             -> fb_conversationId f <> conv_id c)
  /\ payload (fst (deleteAllConversations ann ratedWorld)) = Deleted 1
  /\ feedbacks ratedWorld <> []
  /\ feedbacks (snd (deleteAllConversations ann ratedWorld)) = [].
Proof.
  destruct (delete_cascades_to_feedback ann ratedWorld) as [Hruns [Hone Hall]].
  destruct (Hruns eq_refl) as [Hdel [Hclear _]].
  split; [|split; [|split; [|split]]].
  - split; [|exact Hclear].
    exact (proj1 (Hdel "session_2_ann" _ eq_refl)).
  - exact (Hone "session_2_ann" (json NoPayload)
                (mkWorld [bobSession] [] [hoursEntry; adminEntry] [])
                eq_refl eq_refl).
  - exact (proj1 (Hall (fst (deleteAllConversations ann ratedWorld))
                       (snd (deleteAllConversations ann ratedWorld))
                       eq_refl eq_refl)).
  - discriminate.
  - reflexivity.
Defined.

(** ** A chat turn *)

Lemma searchKnowledgeBase_inv env query role w o w1 :
  searchKnowledgeBase env query role w = (o, w1) ->
  sameStores w w1 /\ exists docs, o = Ok docs.
Proof.
  unfold searchKnowledgeBase, tryCatch, KnowledgeBase.searchByRole, bind,
    getKnowledge, ret.
  destruct (roundTrip w) as [[[]|e] w0] eqn:R; apply roundTrip_same in R;
    intro H; inversion H; subst; split; eauto.
Qed.

Lemma resolveSession_inv env user sid w o w1 :
  resolveSession env user sid w = (o, w1) ->
  sameStores w w1
  /\ forall c isNew, o = Ok (c, isNew) ->
       (isNew = false /\ Js.truthy sid = true
        /\ find (ConversationModel.bySession sid (user_id user)) (conversations w)
           = Some c)
       \/ (isNew = true /\ c = newConversation env user
           /\ (Js.truthy sid = true ->
               find (ConversationModel.bySession sid (user_id user))
                    (conversations w) = None)).
Proof.
  unfold resolveSession. unfold bind at 1.
  destruct (Js.truthy sid) eqn:T.
  - destruct (ConversationModel.findOne _ w) as [[found|e] w0] eqn:F;
      apply findOne_inv in F as [S Hf].
    + specialize (Hf _ eq_refl). subst found.
      destruct (find _ (conversations w)) as [c0|] eqn:E; unfold ret;
        intro H; inversion H; subst; (split; [exact S|]);
        intros c isNew Hc; inversion Hc; subst; [left | right]; auto.
    + intro H; inversion H; subst. split; [exact S|]. intros c isNew Hc. discriminate.
  - unfold ret. intro H; inversion H; subst. split; [apply sameStores_refl|].
    intros c isNew Hc; inversion Hc; subst. right. repeat split. discriminate.
Qed.

Lemma findByIdAndUpdate_inv env id w o w1 :
  KnowledgeBase.findByIdAndUpdate env id w = (o, w1) ->
  conversations w1 = conversations w /\ feedbacks w1 = feedbacks w.
Proof.
  unfold KnowledgeBase.findByIdAndUpdate, bind, getKnowledge, putKnowledge.
  destruct (roundTrip w) as [[[]|e] w0] eqn:R; apply roundTrip_same in R;
    destruct R as [Rc [Rf Rk]]; intro H; inversion H; subst; simpl; auto.
Qed.

Lemma countViews_inv env docs w o w1 :
  countViews env docs w = (o, w1) ->
  conversations w1 = conversations w /\ feedbacks w1 = feedbacks w.
Proof.
  unfold countViews. revert w o w1.
  induction docs as [|doc rest IH]; intros w o w1; simpl.
  - unfold ret. intro H; inversion H; subst. auto.
  - destruct (KnowledgeBase.findByIdAndUpdate env (doc_id doc) w) as [[[]|e] w0] eqn:U;
      apply findByIdAndUpdate_inv in U as [Uc Uf].
    + intro H. apply IH in H as [Hc Hf]. split; congruence.
    + destruct (promiseAll _ w0) as [o2 w2] eqn:P. simpl.
      apply IH in P as [Pc Pf]. intro H; inversion H; subst. split; congruence.
Qed.

(** What a turn that reached the end of [persistTurn] did. *)
Lemma persistTurn_inv env user req w t w1 :
  persistTurn env user req w = (Ok t, w1) ->
  exists c0 isNew docs,
    ((isNew = false /\ Js.truthy (req_sessionId req) = true
         /\ find (ConversationModel.bySession (req_sessionId req) (user_id user))
                 (conversations w) = Some c0)
        \/ (isNew = true /\ c0 = newConversation env user
            /\ (Js.truthy (req_sessionId req) = true ->
                find (ConversationModel.bySession (req_sessionId req) (user_id user))
                     (conversations w) = None)))
    /\ GeminiService.generateResponse (gemini env) (req_message req)
         (contextOf docs) (Js.orElse (user_role user) "employee") (user_name user)
       = Ok (turn_reply t)
    /\ turn_knowledge t = docs
    /\ turn_quickReplies t
       = generateQuickReplies (req_message req) docs (Js.orElse (user_role user) "employee")
    /\ turn_conversation t
       = ConversationModel.push (botMessage (turn_reply t) (turn_quickReplies t))
           (ConversationModel.push (userMessage (req_message req)) c0)
    /\ conversations w1
       = (if isNew
          then (conversations w
                ++ [ConversationModel.touch (now env) (turn_conversation t)])%list
          else updateFirst (fun d => conv_id d =? conv_id (turn_conversation t))
                 (fun _ => ConversationModel.touch (now env) (turn_conversation t))
                 (conversations w))
    /\ (isNew = true ->
        existsb (ConversationModel.clashes (turn_conversation t)) (conversations w)
        = false).
Proof.
  unfold persistTurn. unfold bind at 1.
  destruct (resolveSession env user (req_sessionId req) w) as [[[c0 isNew]|e] wa] eqn:R;
    [|discriminate].
  apply resolveSession_inv in R as [[Rc _] Hres].
  specialize (Hres c0 isNew eq_refl).
  unfold bind at 1.
  destruct (searchKnowledgeBase env (req_message req) _ wa) as [[docs|e] wb] eqn:K;
    [|discriminate].
  apply searchKnowledgeBase_inv in K as [[Kc _] _].
  unfold bind at 1. unfold lift at 1.
  destruct (GeminiService.generateResponse _ _ _ _ _) as [reply|e] eqn:G;
    [|discriminate].
  unfold bind at 1.
  destruct (ConversationModel.save _ _ _ _ wb) as [[[]|e] wc] eqn:S; [|discriminate].
  apply conversation_save_inv in S as [_ [_ [_ [Sc Sn]]]].
  unfold ret. intro H; inversion H; subst. simpl.
  exists c0, isNew, docs.
  rewrite Kc, Rc in Sc. rewrite Kc, Rc in Sn.
  repeat split; auto.
Qed.

Lemma find_updateFirst_session sid uid c0 c' cs :
  find (ConversationModel.bySession sid uid) cs = Some c0 ->
  ConversationModel.bySession sid uid c' = true ->
  conv_id c' = conv_id c0 ->
  find (ConversationModel.bySession sid uid)
       (updateFirst (fun d => conv_id d =? conv_id c') (fun _ => c') cs)
  = Some c'.
Proof.
  intros Hfind Hsel Hid. induction cs as [|x r IH]; simpl in *; [discriminate|].
  destruct (ConversationModel.bySession sid uid x) eqn:Bx.
  - injection Hfind as ->. rewrite Hid, Nat.eqb_refl. simpl. now rewrite Hsel.
  - destruct (conv_id x =? conv_id c'); simpl.
    + now rewrite Hsel.
    + rewrite Bx. now apply IH.
Qed.

Lemma find_app_new {A} (sel : A -> bool) (l : list A) (x : A) :
  (forall y, In y l -> sel y = false) -> sel x = true ->
  find sel (l ++ [x]) = Some x.
Proof.
  intros Hl Hx. induction l as [|y r IH]; simpl.
  - now rewrite Hx.
  - rewrite (Hl y (or_introl eq_refl)). apply IH. intros z Hz. apply Hl. now right.
Qed.

Lemma gatewayDown_reply env q ctx role name reply :
  gatewayDown env ->
  GeminiService.generateResponse (gemini env) q ctx role name = Ok reply ->
  reply = GeminiService.unavailableReply \/ reply = GeminiService.mockReply q.
Proof.
  intros Hdown. unfold GeminiService.generateResponse.
  destruct (Hdown (GeminiService.prompt q ctx role name)) as [n [m ->]].
  destruct (onModelError_returns n m q) as [s [-> [Hs _]]].
  intro H. injection H as <-. exact Hs.
Qed.

(** The answer of a turn whose two steps ran. *)
Lemma postChat_run env user req w :
  Js.truthy (req_message req) = true ->
  String.length (Js.trim (req_message req)) <> 0 ->
  String.length (req_message req) <= 1000 ->
  postChat env user req w =
  match persistTurn env user req w with
  | (Ok t, w1) =>
      match countViews env (turn_knowledge t) w1 with
      | (Ok _, w2) => (chatReply env t, w2)
      | (Throw e, w2) => (chatError e, w2)
      end
  | (Throw e, w1) => (chatError e, w1)
  end.
Proof.
  intros Ht Hn Hl. unfold postChat, route, chatTurn.
  rewrite Ht. apply Nat.eqb_neq in Hn. rewrite Hn.
  apply Nat.ltb_ge in Hl. rewrite Hl. simpl.
  unfold bind at 1.
  destruct (persistTurn env user req w) as [[t|e] w1]; [|reflexivity].
  unfold bind, ret.
  destruct (countViews env (turn_knowledge t) w1) as [[[]|e] w2]; reflexivity.
Qed.

Lemma postChat_success_inv env user req w resp w' :
  postChat env user req w = (resp, w') ->
  status resp = 200 ->
  exists t w1,
    persistTurn env user req w = (Ok t, w1)
    /\ countViews env (turn_knowledge t) w1 = (Ok tt, w')
    /\ resp = chatReply env t.
Proof.
  unfold postChat, route, chatTurn.
  destruct (negb (Js.truthy (req_message req))
            || (String.length (Js.trim (req_message req)) =? 0));
    [simpl; intro H; inversion H; subst; discriminate|].
  destruct (1000 <? String.length (req_message req));
    [simpl; intro H; inversion H; subst; discriminate|].
  unfold bind at 1.
  destruct (persistTurn env user req w) as [[t|e] w1] eqn:P.
  - unfold bind, ret.
    destruct (countViews env (turn_knowledge t) w1) as [[[]|e] w2] eqn:V;
      intro H; inversion H; subst.
    + intros _. exists t, w1. auto.
    + intro S. destruct (chatError_status e) as [_ [E | E]]; rewrite E in S;
        discriminate.
  - intro H; inversion H; subst. intro S.
    destruct (chatError_status e) as [_ [E | E]]; rewrite E in S; discriminate.
Qed.

(** C5.  A call of [POST /chat] that answers with success has appended one
    user message and then one bot message, which carries the reply, to the
    session it resolved, and nothing else: two more messages.  When the
    request names a session of the caller, that is the session: the answer
    names it again, the stored document is the one that was found, in its
    place, with its messages followed by the two new ones and nothing else
    changed but the time of the update.  Otherwise the session is a new one,
    added to the collection with the two messages alone.  That holds for
    every gateway, and when the gateway is down the reply is one of the two
    fallback texts. *)
Theorem turn_appends_user_then_bot
        (env : Env) (user : User) (req : ChatRequest) (w w' : World)
        (resp : Response) :
  postChat env user req w = (resp, w') ->
  status resp = 200 ->
  exists reply sid quickReplies cid n role lat stored asked answered,
    payload resp = ChatTurn reply sid quickReplies cid n role lat
    /\ find (ConversationModel.bySession sid (user_id user)) (conversations w')
       = Some stored
    /\ conv_id stored = cid
    /\ conv_messages stored
       = (resolvedMessages user req w ++ [asked; answered])%list
    /\ msg_role asked = RoleUser
    /\ msg_content asked = Js.trim (req_message req)
    /\ msg_role answered = RoleBot
    /\ msg_content answered = Js.trim reply
    /\ List.length (conv_messages stored)
       = List.length (resolvedMessages user req w) + 2
    /\ (gatewayDown env ->
        reply = GeminiService.unavailableReply
        \/ reply = GeminiService.mockReply (req_message req))
    /\ match resolvedSession user req w with
       | Some found =>
           sid = req_sessionId req
           /\ conv_messages found = resolvedMessages user req w
           /\ stored = grown env found asked answered
           /\ conversations w'
              = updateFirst (fun d => conv_id d =? conv_id found)
                            (fun _ => stored) (conversations w)
       | None =>
           sid = generateSessionId env
           /\ resolvedMessages user req w = []
           /\ stored = grown env (newConversation env user) asked answered
           /\ conversations w' = (conversations w ++ [stored])%list
       end.
Proof.
  intros Hrun Hok.
  destruct (postChat_success_inv env user req w resp w' Hrun Hok)
    as [t [w1 [Hp [Hv ->]]]].
  apply countViews_inv in Hv as [Vc _].
  destruct (persistTurn_inv env user req w t w1 Hp)
    as [c0 [isNew [docs [Hres [Hgen [Hk [Hq [Hconv [Hstore Hclash]]]]]]]]].
  set (stored := ConversationModel.touch (now env) (turn_conversation t)).
  set (asked := ConversationModel.castMessage (userMessage (req_message req))).
  set (answered := ConversationModel.castMessage
                     (botMessage (turn_reply t) (turn_quickReplies t))).
  assert (Hgrown : stored = grown env c0 asked answered).
  { unfold stored, grown, ConversationModel.touch. rewrite Hconv.
    unfold ConversationModel.push. cbn [conv_id conv_sessionId conv_userId
      conv_userEmail conv_userName conv_userRole conv_messages conv_feedback].
    now rewrite <- app_assoc. }
  assert (Hid : conv_id (turn_conversation t) = conv_id c0)
    by (rewrite Hconv; reflexivity).
  assert (Hsess : conv_sessionId (turn_conversation t) = conv_sessionId c0)
    by (rewrite Hconv; reflexivity).
  assert (Hold : conv_messages c0 = resolvedMessages user req w).
  { unfold resolvedMessages. destruct Hres as [[_ [Ht Hf]] | [_ [-> Hf]]].
    - now rewrite Ht, Hf.
    - simpl. destruct (Js.truthy (req_sessionId req)); [|reflexivity].
      now rewrite (Hf eq_refl). }
  assert (Hmsgs : conv_messages stored
                  = (resolvedMessages user req w ++ [asked; answered])%list).
  { rewrite Hgrown, <- Hold. reflexivity. }
  exists (turn_reply t), (conv_sessionId (turn_conversation t)),
    (turn_quickReplies t), (conv_id (turn_conversation t)),
    (List.length (turn_knowledge t)), (turn_userRole t), (latency env), stored,
    asked, answered.
  split; [reflexivity|]. split.
  { rewrite Vc, Hstore.
    destruct Hres as [[-> [Ht Hf]] | [-> [Hc0 Hf]]].
    - pose proof (find_some _ _ Hf) as [_ Hsel].
      assert (Hsid : conv_sessionId (turn_conversation t) = req_sessionId req).
      { rewrite Hsess. unfold ConversationModel.bySession in Hsel.
        apply andb_true_iff in Hsel as [Hs _]. now apply String.eqb_eq. }
      rewrite Hsid. fold stored.
      change (conv_id (turn_conversation t)) with (conv_id stored).
      apply find_updateFirst_session with (c0 := c0);
        [exact Hf | rewrite Hgrown; exact Hsel | rewrite Hgrown; reflexivity].
    - apply find_app_new.
      + intros d Hd. specialize (Hclash eq_refl).
        unfold ConversationModel.bySession.
        destruct (String.eqb_spec (conv_sessionId d)
                                  (conv_sessionId (turn_conversation t))) as [E|];
          [|reflexivity].
        exfalso.
        assert (X : existsb (ConversationModel.clashes (turn_conversation t))
                            (conversations w) = true).
        { apply existsb_exists. exists d. split; [exact Hd|].
          unfold ConversationModel.clashes. rewrite E, String.eqb_refl.
          apply orb_true_r. }
        congruence.
      + fold stored. rewrite Hsess. rewrite Hgrown, Hc0.
        unfold ConversationModel.bySession, grown, newConversation.
        cbn [conv_sessionId conv_userId].
        now rewrite String.eqb_refl, Nat.eqb_refl. }
  split; [reflexivity|]. split; [exact Hmsgs|].
  repeat (split; [reflexivity|]). split.
  { rewrite Hmsgs, length_app. simpl. lia. }
  split.
  { intro Hdown. eapply gatewayDown_reply; eauto. }
  unfold resolvedSession.
  destruct Hres as [[-> [Ht Hf]] | [-> [Hc0 Hf]]].
  - rewrite Ht, Hf. split; [|split; [exact Hold|split; [exact Hgrown|]]].
    + rewrite Hsess. pose proof (find_some _ _ Hf) as [_ Hsel].
      unfold ConversationModel.bySession in Hsel.
      apply andb_true_iff in Hsel as [Hs _]. now apply String.eqb_eq.
    + rewrite Vc, Hstore. fold stored. now rewrite Hid.
  - assert (Hnone : (if Js.truthy (req_sessionId req)
                     then find (ConversationModel.bySession (req_sessionId req)
                                                            (user_id user))
                               (conversations w)
                     else None) = None).
    { destruct (Js.truthy (req_sessionId req)); [now apply Hf | reflexivity]. }
    rewrite Hnone. subst c0.
    split; [|split; [|split; [exact Hgrown|]]].
    + rewrite Hsess. reflexivity.
    + rewrite <- Hold. reflexivity.
    + rewrite Vc, Hstore. reflexivity.
Qed.

Lemma turn_appends_user_then_bot_witness :
  exists reply sid quickReplies cid n role lat stored asked answered,
    payload (fst continuedTurn) = ChatTurn reply sid quickReplies cid n role lat
    /\ find (ConversationModel.bySession sid (user_id ann))
            (conversations (snd continuedTurn)) = Some stored
    /\ conv_id stored = cid
    /\ conv_messages stored
       = (resolvedMessages ann askAgain sampleWorld ++ [asked; answered])%list
    /\ msg_role asked = RoleUser
    /\ msg_content asked = Js.trim (req_message askAgain)
    /\ msg_role answered = RoleBot
    /\ msg_content answered = Js.trim reply
    /\ List.length (conv_messages stored)
       = List.length (resolvedMessages ann askAgain sampleWorld) + 2
    /\ (gatewayDown sampleEnv ->
        reply = GeminiService.unavailableReply
        \/ reply = GeminiService.mockReply (req_message askAgain))
    /\ match resolvedSession ann askAgain sampleWorld with
       | Some found =>
           sid = req_sessionId askAgain
           /\ conv_messages found = resolvedMessages ann askAgain sampleWorld
           /\ stored = grown sampleEnv found asked answered
           /\ conversations (snd continuedTurn)
              = updateFirst (fun d => conv_id d =? conv_id found)
                            (fun _ => stored) (conversations sampleWorld)
       | None =>
           sid = generateSessionId sampleEnv
           /\ resolvedMessages ann askAgain sampleWorld = []
           /\ stored = grown sampleEnv (newConversation sampleEnv ann) asked answered
           /\ conversations (snd continuedTurn)
              = (conversations sampleWorld ++ [stored])%list
       end.
Proof.
  exact (turn_appends_user_then_bot sampleEnv ann askAgain sampleWorld
           (snd continuedTurn) (fst continuedTurn) eq_refl eq_refl).
Defined.

(** The sample turn continues the session Ann has, which held two messages
    and holds four afterwards; the turn without a session id opens a new
    one. *)
Lemma continuedTurn_continues :
  resolvedSession ann askAgain sampleWorld = Some annSession
  /\ status (fst continuedTurn) = 200
  /\ List.length (conversations (snd continuedTurn)) = 2
  /\ (exists stored,
        find (ConversationModel.bySession "session_2_ann" (user_id ann))
             (conversations (snd continuedTurn)) = Some stored
        /\ List.length (conv_messages stored) = 4)
  /\ resolvedSession ann askHours sampleWorld = None
  /\ List.length (conversations (snd quietTurn)) = 3.
Proof.
  split; [reflexivity|]. split; [reflexivity|]. split; [reflexivity|].
  split; [|split; reflexivity].
  eexists. split; [vm_compute; reflexivity | reflexivity].
Qed.

(** In the sample environment the gateway is down, and the sample turn that
    opens a session is one that succeeds on a fallback reply. *)
Lemma sampleEnv_gatewayDown : gatewayDown sampleEnv.
Proof. intro p. eexists. eexists. reflexivity. Qed.

Lemma quietTurn_falls_back :
  status (fst quietTurn) = 200
  /\ exists sid qr cid n role lat,
       payload (fst quietTurn)
       = ChatTurn GeminiService.unavailableReply sid qr cid n role lat.
Proof. split; [reflexivity|]. repeat eexists. Qed.

(** C2 (as amended).  In a turn whose message passes the checks, whose
    reply was generated and whose session was saved, a view-count update
    that fails is awaited inside the route's [try]: the caller receives the
    error answer of the [catch] block, with [success] false and status 500
    or 503, and not the reply; the session stays saved. *)
Theorem view_count_failure_fails_turn
        (env : Env) (user : User) (req : ChatRequest) (w w1 w2 : World)
        (t : Turn) (e : Thrown) :
  Js.truthy (req_message req) = true ->
  String.length (Js.trim (req_message req)) <> 0 ->
  String.length (req_message req) <= 1000 ->
  persistTurn env user req w = (Ok t, w1) ->
  countViews env (turn_knowledge t) w1 = (Throw e, w2) ->
  postChat env user req w = (chatError e, w2)
  /\ success (chatError e) = Some false
  /\ (status (chatError e) = 500 \/ status (chatError e) = 503)
  /\ chatError e <> chatReply env t
  /\ conversations w2 = conversations w1.
Proof.
  intros Ht Hn Hl Hp Hv.
  rewrite (postChat_run env user req w Ht Hn Hl), Hp, Hv.
  destruct (chatError_status e) as [Hs Hc].
  repeat split; auto.
  - intro E. rewrite E in Hs. discriminate.
  - now apply countViews_inv in Hv.
Qed.

Lemma view_count_failure_fails_turn_witness :
  faultyTurn = (chatError socketClosed, snd faultyTurn)
  /\ success (chatError socketClosed) = Some false
  /\ (status (chatError socketClosed) = 500 \/ status (chatError socketClosed) = 503).
Proof.
  destruct (view_count_failure_fails_turn sampleEnv ann askHours lateFaultWorld
              (snd (persistTurn sampleEnv ann askHours lateFaultWorld))
              (snd faultyTurn) savedTurn socketClosed)
    as [R [S [C _]]].
  - reflexivity.
  - vm_compute. intro E. discriminate E.
  - vm_compute. lia.
  - reflexivity.
  - reflexivity.
  - exact (conj R (conj S C)).
Defined.

(** C2, as the specification words it, fails: the reply is generated and the
    session saved, the view-count update then fails, and the caller gets
    status 500 with [success] false although the stored session holds both
    messages. *)
Lemma view_count_fault_replaces_reply :
  (exists t w1, persistTurn sampleEnv ann askHours lateFaultWorld = (Ok t, w1)
                /\ turn_reply t = GeminiService.unavailableReply)
  /\ status (fst faultyTurn) = 500
  /\ success (fst faultyTurn) = Some false
  /\ map (fun c => List.length (conv_messages c)) (conversations (snd faultyTurn))
     = [2; 2; 2].
Proof.
  split; [|repeat split; reflexivity].
  exists savedTurn, (snd (persistTurn sampleEnv ann askHours lateFaultWorld)).
  split; reflexivity.
Qed.

(** ** The feedback route keeps records with their owners *)

Lemma In_updateFirst {A} (sel : A -> bool) (f : A -> A) (l : list A) (y : A) :
  In y (updateFirst sel f l) -> In y l \/ exists x, In x l /\ y = f x.
Proof.
  induction l as [|x r IH]; simpl; [tauto|].
  destruct (sel x); simpl.
  - intros [<- | H]; [right; exists x; auto | auto].
  - intros [<- | H]; [auto|].
    destruct (IH H) as [H' | [z [Hz ->]]]; [auto|]. right. exists z. auto.
Qed.

Lemma postFeedback_conversations env user req w resp w' :
  postFeedback env user req w = (resp, w') ->
  forall c', In c' (conversations w') ->
             exists c, In c (conversations w)
                       /\ conv_id c = conv_id c' /\ conv_userId c = conv_userId c'.
Proof.
  assert (Keep : forall w1, conversations w1 = conversations w ->
                 forall c', In c' (conversations w1) ->
                 exists c, In c (conversations w)
                           /\ conv_id c = conv_id c' /\ conv_userId c = conv_userId c').
  { intros w1 E c' H. rewrite E in H. now exists c'. }
  unfold postFeedback, route.
  destruct (fr_conversationId req) as [cid|];
    [|simpl; intro H; inversion H; subst; now apply Keep].
  destruct (fr_rating req) as [q|];
    [|simpl; intro H; inversion H; subst; now apply Keep].
  destruct (Qeq_bool q 0); [simpl; intro H; inversion H; subst; now apply Keep|].
  destruct (Qltb q 1 || Qltb 5 q);
    [simpl; intro H; inversion H; subst; now apply Keep|].
  unfold bind at 1.
  destruct (ConversationModel.findOne _ w) as [[found|e] w1] eqn:F;
    apply findOne_inv in F as [[Sc [Sf Sk]] Hfound];
    [|intro H; inversion H; subst; now apply Keep].
  specialize (Hfound _ eq_refl).
  destruct found as [c|];
    [|simpl; intro H; inversion H; subst; now apply Keep].
  symmetry in Hfound. pose proof (find_some _ _ Hfound) as [Hin _].
  unfold bind at 1.
  destruct (FeedbackModel.save _ w1) as [[[]|e] w2] eqn:S;
    apply feedback_save_inv in S as [Tc [Tk Tf]];
    [|intro H; inversion H; subst; apply Keep; now rewrite Tc].
  unfold bind at 1.
  destruct (ConversationModel.save _ _ _ _ w2) as [[[]|e] w3] eqn:C;
    apply conversation_save_inv in C as [Uf [Uk Uc]];
    simpl; intro H; inversion H; subst w3;
    [|apply Keep; now rewrite Uc, Tc].
  destruct Uc as [_ [Uc _]]. rewrite Tc, Sc in Uc.
  intros c' Hc'. rewrite Uc in Hc'.
  apply In_updateFirst in Hc' as [Hc' | [x [Hx ->]]].
  - now exists c'.
  - exists c. simpl. auto.
Qed.

Lemma unique_id_owner (cs : list Conversation) (c d : Conversation) :
  NoDup (map conv_id cs) -> In c cs -> In d cs -> conv_id c = conv_id d -> c = d.
Proof.
  induction cs as [|x r IH]; simpl; [tauto|].
  intros N Hc Hd E. inversion N as [|? ? Hx Nr]; subst.
  destruct Hc as [-> | Hc], Hd as [-> | Hd]; auto.
  - exfalso. apply Hx. rewrite E. now apply in_map.
  - exfalso. apply Hx. rewrite <- E. now apply in_map.
Qed.

(** With conversation ids unique, every record the feedback route leaves in
    the collection still carries the user id of its conversation. *)
Lemma postFeedback_keeps_ownership env user req w resp w' :
  NoDup (map conv_id (conversations w)) ->
  feedbackOwned w ->
  postFeedback env user req w = (resp, w') ->
  feedbackOwned w'.
Proof.
  intros N Hown Hrun f c' Hf Hc' E.
  destruct (postFeedback_conversations env user req w resp w' Hrun c' Hc')
    as [c [Hc [Hid Huid]]].
  rewrite <- Huid.
  destruct (postFeedback_writes env user req w resp w' Hrun)
    as [Same | [f0 [c1 [Hadd [_ [Hfu [Hc1 [Hc1u Hfc]]]]]]]].
  - rewrite Same in Hf. apply (Hown f c Hf Hc). congruence.
  - rewrite Hadd in Hf. apply in_app_or in Hf as [Hf | [<- | []]].
    + apply (Hown f c Hf Hc). congruence.
    + assert (c1 = c).
      { apply (unique_id_owner (conversations w)); auto. congruence. }
      subst c1. congruence.
Qed.

(* ===================================================================== *)
(** * Further properties of the code *)
(* ===================================================================== *)

(** ** Trimming and cutting *)

Lemma length_take (n : nat) (s : string) :
  String.length (Js.take n s) <= n /\ String.length (Js.take n s) <= String.length s.
Proof.
  revert s. induction n as [|n IH]; intros [|c r]; simpl; try lia.
  destruct (IH r). lia.
Qed.

Lemma take_all (n : nat) (s : string) : String.length s <= n -> Js.take n s = s.
Proof.
  revert s. induction n as [|n IH]; intros [|c r]; simpl; intro H;
    try reflexivity; try lia.
  rewrite IH by lia. reflexivity.
Qed.

Lemma length_append (a b : string) :
  String.length (a ++ b) = String.length a + String.length b.
Proof. induction a as [|c r IH]; simpl; [reflexivity | now rewrite IH]. Qed.

Lemma length_trimStart (s : string) :
  String.length (Js.trimStart s) <= String.length s.
Proof.
  induction s as [|c r IH]; simpl; [lia|].
  destruct (Js.isSpace c); simpl; lia.
Qed.

Lemma length_trimEnd (s : string) :
  String.length (Js.trimEnd s) <= String.length s.
Proof.
  induction s as [|c r IH]; simpl; [lia|].
  destruct (Js.trimEnd r) as [|d r'] eqn:E.
  - destruct (Js.isSpace c); simpl; lia.
  - simpl in *. lia.
Qed.

Lemma length_trim (s : string) : String.length (Js.trim s) <= String.length s.
Proof.
  unfold Js.trim. pose proof (length_trimEnd (Js.trimStart s)).
  pose proof (length_trimStart s). lia.
Qed.

Lemma trimStart_head (s : string) : startsWithSpace (Js.trimStart s) = false.
Proof.
  induction s as [|c r IH]; simpl; [reflexivity|].
  destruct (Js.isSpace c) eqn:E; [exact IH | simpl; exact E].
Qed.

Lemma trimEnd_head (s : string) :
  startsWithSpace s = false -> startsWithSpace (Js.trimEnd s) = false.
Proof.
  destruct s as [|c r]; simpl; [reflexivity|]. intro H.
  destruct (Js.trimEnd r); [rewrite H|]; simpl; auto.
Qed.

Lemma trimEnd_tail (s : string) : endsWithSpace (Js.trimEnd s) = false.
Proof.
  induction s as [|c r IH]; simpl; [reflexivity|].
  destruct (Js.trimEnd r) as [|d r'] eqn:E.
  - destruct (Js.isSpace c) eqn:S; simpl; auto.
  - exact IH.
Qed.

Lemma trim_edges (s : string) :
  startsWithSpace (Js.trim s) = false /\ endsWithSpace (Js.trim s) = false.
Proof.
  unfold Js.trim. split; [apply trimEnd_head, trimStart_head | apply trimEnd_tail].
Qed.

(** ** Cleaning a generated reply *)

Lemma length_stripStars (b : bool) (s : string) :
  String.length (GeminiService.stripStars b s) <= String.length s.
Proof.
  revert b. induction s as [|c r IH]; intro b; simpl; [lia|].
  destruct (b && Ascii.eqb c "*"); simpl.
  - specialize (IH true). lia.
  - specialize (IH (Js.isLineTerminator c)). lia.
Qed.

Lemma length_stripHeaders (st : GeminiService.HeaderScan) (s : string) :
  String.length (GeminiService.stripHeaders st s) <= String.length s.
Proof.
  revert st. induction s as [|c r IH]; intro st; simpl; [lia|].
  pose proof (IH (GeminiService.Copying (Js.isLineTerminator c))) as Hc.
  pose proof (IH GeminiService.InHashes) as Hh.
  pose proof (IH (GeminiService.InSpaces (Js.isLineTerminator c))) as Hs.
  destruct st as [[|]| |ls]; simpl;
    repeat match goal with
           | |- context [if ?b then _ else _] => destruct b; simpl
           end; lia.
Qed.

Lemma prefix_drop_length (p s : string) :
  prefix p s = true ->
  String.length s
  = String.length p + String.length (Js.drop (String.length p) s).
Proof.
  revert s. induction p as [|a p IH]; intros s H.
  - destruct s; reflexivity.
  - destruct s as [|c r]; cbn [prefix] in H; [discriminate|].
    destruct (ascii_dec a c); [|discriminate].
    cbn [String.length Js.drop]. now rewrite (IH r H).
Qed.

Lemma splitAtFence_length (s pre post : string) :
  GeminiService.splitAtFence s = Some (pre, post) ->
  String.length s = String.length pre + 3 + String.length post.
Proof.
  revert pre post. induction s as [|c r IH]; intros pre post.
  - simpl. discriminate.
  - cbn [GeminiService.splitAtFence].
    destruct (prefix GeminiService.fence (String c r)) eqn:P.
    + intro H. injection H as <- <-.
      apply prefix_drop_length in P. exact P.
    + destruct (GeminiService.splitAtFence r) as [[pre' post']|]; [|discriminate].
      intro H. injection H as <- <-. simpl. rewrite (IH pre' post' eq_refl). lia.
Qed.

Lemma length_stripFences (k : nat) (s : string) :
  String.length (GeminiService.stripFences k s) <= String.length s.
Proof.
  revert s. induction k as [|k IH]; intro s; simpl; [lia|].
  destruct (GeminiService.splitAtFence s) as [[pre body]|] eqn:A; [|lia].
  destruct (GeminiService.splitAtFence body) as [[mid post]|] eqn:B; [|lia].
  apply splitAtFence_length in A, B. rewrite length_append.
  specialize (IH post). lia.
Qed.

Lemma cleanResponse_shape (raw : string) :
  String.length (GeminiService.cleanResponse raw) <= String.length raw
  /\ startsWithSpace (GeminiService.cleanResponse raw) = false
  /\ endsWithSpace (GeminiService.cleanResponse raw) = false.
Proof.
  unfold GeminiService.cleanResponse. split; [|apply trim_edges].
  set (a := GeminiService.stripStars true raw).
  set (b := GeminiService.stripHeaders (GeminiService.Copying true) a).
  pose proof (length_stripStars true raw).
  pose proof (length_stripHeaders (GeminiService.Copying true) a).
  pose proof (length_stripFences (String.length b) b).
  pose proof (length_trim (GeminiService.stripFences (String.length b) b)).
  fold a in H. fold b in H0. lia.
Qed.

(** X1.  When the model call returns a text, [generateResponse] returns it
    cleaned: the reply is never longer than what the model produced and
    neither opens nor ends with white space, whatever mark-up was removed. *)
Theorem generated_reply_is_trimmed_and_no_longer
        (model : string -> Outcome string) (q ctx role name raw : string) :
  model (GeminiService.prompt q ctx role name) = Ok raw ->
  exists reply,
    GeminiService.generateResponse model q ctx role name = Ok reply
    /\ String.length reply <= String.length raw
    /\ startsWithSpace reply = false
    /\ endsWithSpace reply = false.
Proof.
  intro H. exists (GeminiService.cleanResponse raw).
  unfold GeminiService.generateResponse. rewrite H.
  split; [reflexivity | apply cleanResponse_shape].
Qed.

(** ** Summaries and keywords *)

(** X2.  [summarizeText] never throws.  When the model answers, the summary
    is at most [maxLength] units long and carries no white space at its
    ends; when the model call throws anything at all, the summary is the
    first 200 units of the text followed by three dots, so at most 203 units
    and the whole text when that is short. *)
Theorem summarizeText_bounded_or_truncated
        (model : string -> Outcome string) (text : string) (maxLength : nat) :
  exists summary,
    summarizeText model text maxLength = Ok summary
    /\ match model (summaryPrompt text maxLength) with
       | Ok generated =>
           String.length summary <= maxLength
           /\ String.length summary <= String.length generated
           /\ startsWithSpace summary = false
           /\ endsWithSpace summary = false
       | Throw _ =>
           summary = Js.take 200 text ++ "..."
           /\ String.length summary <= 203
           /\ (String.length text <= 200 -> summary = text ++ "...")
       end.
Proof.
  unfold summarizeText.
  destruct (model (summaryPrompt text maxLength)) as [generated|e].
  - exists (Js.trim (Js.take maxLength generated)). split; [reflexivity|].
    pose proof (length_trim (Js.take maxLength generated)).
    destruct (length_take maxLength generated).
    destruct (trim_edges (Js.take maxLength generated)).
    repeat split; auto; lia.
  - exists (Js.take 200 text ++ "..."). split; [reflexivity|].
    split; [reflexivity|]. split.
    + rewrite length_append. destruct (length_take 200 text).
      change (String.length "...") with 3. lia.
    + intro H. now rewrite take_all.
Qed.

Lemma split_length (sep : ascii) (s : string) :
  List.length (split sep s) = 1 + countChar sep s.
Proof.
  induction s as [|c r IH]; simpl; [reflexivity|].
  destruct (Ascii.eqb c sep); simpl; [now rewrite IH|].
  destruct (split sep r) as [|piece rest]; simpl in *; lia.
Qed.

Lemma split_pieces (sep : ascii) (s : string) :
  forall piece, In piece (split sep s) -> countChar sep piece = 0.
Proof.
  induction s as [|c r IH]; simpl.
  - intros piece [<- | []]. reflexivity.
  - destruct (Ascii.eqb c sep) eqn:E.
    + intros piece [<- | H]; [reflexivity | now apply IH].
    + destruct (split sep r) as [|p rest].
      * intros piece [<- | []]. simpl. now rewrite E.
      * intros piece [<- | H].
        -- simpl. rewrite E. apply IH. now left.
        -- apply IH. now right.
Qed.

Lemma countChar_trimStart (c : ascii) (s : string) :
  countChar c (Js.trimStart s) <= countChar c s.
Proof.
  induction s as [|d r IH]; simpl; [lia|].
  destruct (Js.isSpace d); simpl; lia.
Qed.

Lemma countChar_trimEnd (c : ascii) (s : string) :
  countChar c (Js.trimEnd s) <= countChar c s.
Proof.
  induction s as [|d r IH]; simpl; [lia|].
  destruct (Js.trimEnd r) as [|e r'] eqn:E.
  - destruct (Js.isSpace d); simpl; lia.
  - simpl in *. lia.
Qed.

Lemma lowerChar_comma (d : ascii) :
  Ascii.eqb (Js.lowerChar d) ","%char = Ascii.eqb d ","%char.
Proof. destruct d as [[] [] [] [] [] [] [] []]; reflexivity. Qed.

Lemma lowerChar_space (d : ascii) : Js.isSpace (Js.lowerChar d) = Js.isSpace d.
Proof. destruct d as [[] [] [] [] [] [] [] []]; reflexivity. Qed.

Lemma countChar_toLowerCase (s : string) :
  countChar ","%char (Js.toLowerCase s) = countChar ","%char s.
Proof.
  induction s as [|d r IH]; simpl; [reflexivity|].
  now rewrite lowerChar_comma, IH.
Qed.

Lemma startsWithSpace_toLowerCase (s : string) :
  startsWithSpace (Js.toLowerCase s) = startsWithSpace s.
Proof. destruct s; simpl; [reflexivity | apply lowerChar_space]. Qed.

Lemma endsWithSpace_toLowerCase (s : string) :
  endsWithSpace (Js.toLowerCase s) = endsWithSpace s.
Proof.
  induction s as [|d r IH]; [reflexivity|].
  destruct r as [|e r']; [simpl; apply lowerChar_space|].
  exact IH.
Qed.

Lemma lowerChar_not_capital (c : ascii) : ~ capitalUnit (Js.lowerChar c).
Proof.
  unfold capitalUnit.
  destruct c as [[] [] [] [] [] [] [] []]; vm_compute; lia.
Qed.

Lemma toLowerCase_no_capital (s : string) (c : ascii) :
  In c (units (Js.toLowerCase s)) -> ~ capitalUnit c.
Proof.
  induction s as [|d r IH]; simpl; [intros []|].
  intros [<- | H]; [apply lowerChar_not_capital | now apply IH].
Qed.

Lemma lowerChar_fixes (c : ascii) : ~ capitalUnit c -> Js.lowerChar c = c.
Proof.
  unfold capitalUnit.
  destruct c as [[] [] [] [] [] [] [] []]; vm_compute; intro H;
    try reflexivity; exfalso; apply H; lia.
Qed.

Lemma toLowerCase_fixes (s : string) :
  (forall c, In c (units s) -> ~ capitalUnit c) -> Js.toLowerCase s = s.
Proof.
  induction s as [|d r IH]; simpl; [reflexivity|]. intro H.
  rewrite lowerChar_fixes by (apply H; now left).
  rewrite IH; [reflexivity|]. intros c Hc. apply H. now right.
Qed.

Lemma units_trimStart (c : ascii) (s : string) :
  In c (units (Js.trimStart s)) -> In c (units s).
Proof.
  induction s as [|d r IH]; simpl; [auto|].
  destruct (Js.isSpace d); simpl; auto.
Qed.

Lemma units_trimEnd (c : ascii) (s : string) :
  In c (units (Js.trimEnd s)) -> In c (units s).
Proof.
  induction s as [|d r IH]; simpl; [auto|].
  destruct (Js.trimEnd r) as [|e r'] eqn:E.
  - destruct (Js.isSpace d); simpl; [intros [] | intros [H | []]; auto].
  - simpl. intros [H | H]; [now left | right; apply IH; exact H].
Qed.

Lemma units_trim (c : ascii) (s : string) :
  In c (units (Js.trim s)) -> In c (units s).
Proof. unfold Js.trim. intro H. now apply units_trimStart, units_trimEnd. Qed.

(** X3.  [extractKeywords] never throws.  When the model answers, there is
    one keyword for each piece between commas (an empty answer gives one
    empty keyword, not an empty list): the piece trimmed and lower-cased.
    So no keyword holds a capital letter, be it [A-Z] or an accented one,
    none has white space at its ends and none holds a comma; and a piece
    that holds no capital is kept as it is but for the trimming.  When the
    model call throws, the list is empty. *)
Theorem extractKeywords_normalised
        (model : string -> Outcome string) (text : string) :
  exists keywords,
    extractKeywords model text = Ok keywords
    /\ match model (keywordPrompt text) with
       | Ok generated =>
           List.length keywords = 1 + countChar ","%char generated
           /\ (forall k, In k keywords ->
                         Js.toLowerCase k = k
                         /\ (forall c, In c (units k) -> ~ capitalUnit c)
                         /\ startsWithSpace k = false
                         /\ endsWithSpace k = false
                         /\ countChar ","%char k = 0)
           /\ (forall piece,
                  In piece (split ","%char generated) ->
                  (forall c, In c (units piece) -> ~ capitalUnit c) ->
                  In (Js.trim piece) keywords)
       | Throw _ => keywords = []
       end.
Proof.
  unfold extractKeywords.
  destruct (model (keywordPrompt text)) as [generated|e];
    [|exists []; split; reflexivity].
  eexists. split; [reflexivity|]. split; [|split].
  - now rewrite length_map, split_length.
  - intros k Hk. apply in_map_iff in Hk as [piece [<- Hp]].
    destruct (trim_edges piece) as [Hs He].
    split; [apply toLowerCase_idempotent|].
    split; [intros c Hc; exact (toLowerCase_no_capital _ c Hc)|].
    split; [now rewrite startsWithSpace_toLowerCase|].
    split; [now rewrite endsWithSpace_toLowerCase|].
    rewrite countChar_toLowerCase.
    pose proof (split_pieces _ _ _ Hp) as Hz.
    pose proof (countChar_trimEnd ","%char (Js.trimStart piece)).
    pose proof (countChar_trimStart ","%char piece).
    unfold Js.trim. lia.
  - intros piece Hp Hlow. apply in_map_iff. exists piece. split; [|exact Hp].
    apply toLowerCase_fixes. intros c Hc. apply Hlow. now apply units_trim.
Qed.

(** ** Sorted and limited queries *)

Section SortFacts.
Variable A : Type.
Variable key : A -> nat.

Lemma insertDesc_descending (x : A) (l : list A) :
  descending key l -> descending key (insertDesc key x l).
Proof.
  unfold descending. induction l as [|y r IH]; simpl; intro H.
  - constructor; constructor.
  - inversion H as [|? ? Hr Hy]; subst.
    destruct (key y <? key x) eqn:E.
    + apply Nat.ltb_lt in E. constructor; [exact H|].
      constructor; [lia|]. rewrite Forall_forall in *. intros z Hz.
      specialize (Hy z Hz). lia.
    + apply Nat.ltb_ge in E. constructor; [now apply IH|].
      rewrite Forall_forall in *. intros z Hz.
      apply In_insertDesc in Hz as [-> | Hz]; [lia | now apply Hy].
Qed.

Lemma fold_insertDesc_descending (l acc : list A) :
  descending key acc ->
  descending key (fold_left (fun acc x => insertDesc key x acc) l acc).
Proof.
  revert acc. induction l as [|x r IH]; intros acc H; simpl; [exact H|].
  apply IH. now apply insertDesc_descending.
Qed.

Lemma sortDesc_descending (l : list A) : descending key (sortDesc key l).
Proof. apply fold_insertDesc_descending. constructor. Qed.

Lemma firstn_descending (n : nat) (l : list A) :
  descending key l -> descending key (firstn n l).
Proof.
  unfold descending. revert l. induction n as [|n IH]; intros [|x r] H; simpl;
    try constructor.
  - inversion H; subst. now apply IH.
  - inversion H as [|? ? _ Hx]; subst. rewrite Forall_forall in *.
    intros z Hz. apply Hx. rewrite <- (firstn_skipn n r). apply in_or_app. now left.
Qed.

Lemma limit_descending (n : nat) (l : list A) :
  descending key l -> descending key (limit n l).
Proof.
  unfold limit. destruct (n =? 0); [auto | apply firstn_descending].
Qed.

Lemma limit_length (n : nat) (l : list A) :
  0 < n -> List.length (limit n l) <= n.
Proof.
  unfold limit. intro H. destruct (Nat.eqb_spec n 0); [lia|].
  apply firstn_le_length.
Qed.



End SortFacts.

Lemma descending_map {A B} (key : A -> nat) (key' : B -> nat) (f : A -> B)
      (l : list A) :
  (forall a, key' (f a) = key a) -> descending key l -> descending key' (map f l).
Proof.
  unfold descending. intros Hk H. induction H as [|x r Hr IH Hx]; simpl;
    constructor; auto.
  rewrite Forall_forall in *. intros b Hb. apply in_map_iff in Hb as [a [<- Ha]].
  rewrite !Hk. now apply Hx.
Qed.






Lemma searchKnowledgeBase_docs env query role w o w1 :
  searchKnowledgeBase env query role w = (o, w1) ->
  o = Ok [] \/
  o = Ok (map (toDoc env query)
              (KnowledgeBase.runSearch (textScore env) query role 7 (knowledge w))).
Proof.
  unfold searchKnowledgeBase, tryCatch, KnowledgeBase.searchByRole, bind,
    getKnowledge, ret.
  destruct (roundTrip w) as [[[]|e] w0] eqn:R; apply roundTrip_same in R;
    destruct R as [_ [_ Rk]]; intro H; inversion H; subst; auto.
  right. now rewrite Rk.
Qed.

(** X5.  [searchKnowledgeBase] never throws and never writes: whatever the
    storage does, it yields at most seven documents, each cut to 1000 units
    of content and each taken from a stored entry that is active and open to
    the role; a storage fault yields the empty list. *)
Theorem searchKnowledgeBase_total_and_bounded
        (env : Env) (query role : string) (w : World) :
  exists docs w',
    searchKnowledgeBase env query role w = (Ok docs, w')
    /\ sameStores w w'
    /\ List.length docs <= 7
    /\ (forall e rest, faults w = Some e :: rest -> docs = [])
    /\ forall d, In d docs ->
         String.length (doc_content d) <= 1000
         /\ exists entry,
              In entry (knowledge w)
              /\ kb_isActive entry = true
              /\ KnowledgeBase.roleAllowed role entry = true
              /\ doc_id d = kb_id entry
              /\ doc_category d = kb_category entry
              /\ doc_content d = Js.take 1000 (kb_content entry).
Proof.
  destruct (searchKnowledgeBase env query role w) as [o w'] eqn:E.
  pose proof (searchKnowledgeBase_inv _ _ _ _ _ _ E) as [S [docs ->]].
  exists docs, w'. split; [reflexivity|]. split; [exact S|].
  assert (F : forall e rest, faults w = Some e :: rest -> docs = []).
  { intros e rest Hf. revert E.
    unfold searchKnowledgeBase, tryCatch, KnowledgeBase.searchByRole, bind, roundTrip.
    rewrite Hf. unfold ret. intro H. now inversion H. }
  destruct (searchKnowledgeBase_docs _ _ _ _ _ _ E) as [D | D];
    injection D as ->.
  - split; [simpl; lia|]. split; [exact F|]. intros x [].
  - split.
    + rewrite length_map. unfold KnowledgeBase.runSearch.
      apply limit_length. lia.
    + split; [exact F|]. intros d Hd. apply in_map_iff in Hd as [entry [<- He]].
      apply runSearch_sound in He as [Hin [_ [Ha Hr]]].
      split; [apply length_take|]. exists entry. repeat split; auto.
Qed.

(** ** More on a chat turn *)

Lemma persistTurn_stores env user req w o w1 :
  persistTurn env user req w = (o, w1) ->
  feedbacks w1 = feedbacks w /\ knowledge w1 = knowledge w
  /\ match o with
     | Throw _ => conversations w1 = conversations w
     | Ok t =>
         turn_userRole t = Js.orElse (user_role user) "employee"
         /\ (turn_knowledge t = []
             \/ turn_knowledge t
                = map (toDoc env (req_message req))
                      (KnowledgeBase.runSearch (textScore env) (req_message req)
                         (Js.orElse (user_role user) "employee") 7 (knowledge w)))
     end.
Proof.
  unfold persistTurn. unfold bind at 1.
  destruct (resolveSession env user (req_sessionId req) w) as [[[c0 isNew]|e] wa] eqn:R;
    apply resolveSession_inv in R as [[Rc [Rf Rk]] _];
    [|intro H; inversion H; subst; auto].
  unfold bind at 1.
  destruct (searchKnowledgeBase env (req_message req) _ wa) as [[docs|e] wb] eqn:K;
    pose proof (searchKnowledgeBase_docs _ _ _ _ _ _ K) as D;
    apply searchKnowledgeBase_inv in K as [[Kc [Kf Kk]] _];
    [|intro H; inversion H; subst; repeat split; congruence].
  unfold bind at 1. unfold lift at 1.
  destruct (GeminiService.generateResponse _ _ _ _ _) as [reply|e] eqn:G;
    [|intro H; inversion H; subst; repeat split; congruence].
  unfold bind at 1.
  destruct (ConversationModel.save _ _ _ _ wb) as [[[]|e] wc] eqn:S;
    apply conversation_save_inv in S as [Sf [Sk Sc]];
    unfold ret; intro H; inversion H; subst; simpl.
  - split; [congruence|]. split; [congruence|]. split; [reflexivity|].
    rewrite <- Rk. destruct D as [D | D]; injection D as ->; auto.
  - repeat split; congruence.
Qed.

(** Any answer of the route: nothing was written, or the turn was saved. *)
Lemma postChat_effect env user req w resp w' :
  postChat env user req w = (resp, w') ->
  (status resp <> 200 /\ sameStores w w')
  \/ exists t w1,
       persistTurn env user req w = (Ok t, w1)
       /\ conversations w' = conversations w1
       /\ feedbacks w' = feedbacks w.
Proof.
  unfold postChat, route, chatTurn.
  destruct (negb (Js.truthy (req_message req))
            || (String.length (Js.trim (req_message req)) =? 0));
    [simpl; intro H; inversion H; subst; left; split;
       [simpl; discriminate | apply sameStores_refl]|].
  destruct (1000 <? String.length (req_message req));
    [simpl; intro H; inversion H; subst; left; split;
       [simpl; discriminate | apply sameStores_refl]|].
  unfold bind at 1.
  destruct (persistTurn env user req w) as [[t|e] w1] eqn:P.
  - pose proof (persistTurn_stores _ _ _ _ _ _ P) as [Pf _].
    unfold bind, ret.
    destruct (countViews env (turn_knowledge t) w1) as [[[]|e] w2] eqn:V;
      apply countViews_inv in V as [Vc Vf];
      intro H; inversion H; subst; right; exists t, w1; repeat split; congruence.
  - pose proof (persistTurn_stores _ _ _ _ _ _ P) as [Pf [Pk Pc]].
    intro H; inversion H; subst. left. split.
    + intro E. destruct (chatError_status e) as [_ [S | S]]; rewrite S in E;
        discriminate.
    + repeat split; auto.
Qed.

(** X6.  [POST /chat] answers 400 exactly when the message is empty, blank
    or longer than 1000 units, and then the handler has touched nothing: the
    collections and even the queue of storage faults are as before, since no
    storage call was made. *)
Theorem chat_validation_touches_nothing
        (env : Env) (user : User) (req : ChatRequest) (w : World) :
  (status (fst (postChat env user req w)) = 400
   <-> (String.length (Js.trim (req_message req)) = 0
        \/ 1000 < String.length (req_message req)))
  /\ (status (fst (postChat env user req w)) = 400 ->
      snd (postChat env user req w) = w).
Proof.
  assert (Blank : Js.truthy (req_message req) = false ->
                  String.length (Js.trim (req_message req)) = 0).
  { destruct (req_message req); [reflexivity | discriminate]. }
  pose proof (postChat_status env user req w) as St.
  destruct (postChat env user req w) as [resp w'] eqn:E. simpl in *.
  revert E. unfold postChat, route, chatTurn.
  destruct (Js.truthy (req_message req)) eqn:T; simpl.
  - destruct (Nat.eqb_spec (String.length (Js.trim (req_message req))) 0) as [Z|Z].
    + intro H; inversion H; subst. simpl. tauto.
    + destruct (Nat.ltb_spec 1000 (String.length (req_message req))) as [L|L].
      * intro H; inversion H; subst. simpl. tauto.
      * unfold bind at 1.
        destruct (persistTurn env user req w) as [[t|e] w1].
        -- unfold bind, ret.
           destruct (countViews env (turn_knowledge t) w1) as [[[]|e] w2];
             intro H; inversion H; subst; simpl.
           ++ split; [split; [discriminate | lia] | discriminate].
           ++ destruct (chatError_status e) as [_ [S | S]]; rewrite S;
                (split; [split; [discriminate | lia] | discriminate]).
        -- intro H; inversion H; subst.
           destruct (chatError_status e) as [_ [S | S]]; rewrite S;
             (split; [split; [discriminate | lia] | discriminate]).
  - intro H; inversion H; subst. simpl. specialize (Blank eq_refl). tauto.
Qed.

(** X7.  A turn that fails before its session is saved (the lookup or the
    save fails, the reply does not pass the schema, the gateway throws a
    value it cannot handle) is answered by the [catch] block with status 500
    or 503 and [success] false, and none of the three collections has
    changed: no half-written session is left. *)
Theorem failed_turn_writes_nothing
        (env : Env) (user : User) (req : ChatRequest) (w w1 : World) (e : Thrown) :
  Js.truthy (req_message req) = true ->
  String.length (Js.trim (req_message req)) <> 0 ->
  String.length (req_message req) <= 1000 ->
  persistTurn env user req w = (Throw e, w1) ->
  postChat env user req w = (chatError e, w1)
  /\ success (chatError e) = Some false
  /\ (status (chatError e) = 500 \/ status (chatError e) = 503)
  /\ sameStores w w1.
Proof.
  intros Ht Hn Hl Hp.
  rewrite (postChat_run env user req w Ht Hn Hl), Hp.
  destruct (chatError_status e) as [Hs Hc].
  pose proof (persistTurn_stores _ _ _ _ _ _ Hp) as [Pf [Pk Pc]].
  repeat split; auto.
Qed.

Lemma failed_turn_writes_nothing_witness :
  postChat sampleEnv ann askHours saveFaultWorld
  = (chatError socketClosed,
     snd (persistTurn sampleEnv ann askHours saveFaultWorld))
  /\ success (chatError socketClosed) = Some false
  /\ (status (chatError socketClosed) = 500 \/ status (chatError socketClosed) = 503)
  /\ sameStores saveFaultWorld
                (snd (persistTurn sampleEnv ann askHours saveFaultWorld)).
Proof.
  apply (failed_turn_writes_nothing sampleEnv ann askHours saveFaultWorld).
  - reflexivity.
  - vm_compute. intro E. discriminate E.
  - vm_compute. lia.
  - reflexivity.
Defined.

Lemma persistTurn_valid env user req w t w1 :
  persistTurn env user req w = (Ok t, w1) ->
  ConversationModel.validMessage (botMessage (turn_reply t) (turn_quickReplies t))
  = true.
Proof.
  unfold persistTurn. unfold bind at 1.
  destruct (resolveSession env user (req_sessionId req) w) as [[[c0 isNew]|e] wa];
    [|discriminate].
  unfold bind at 1.
  destruct (searchKnowledgeBase env (req_message req) _ wa) as [[docs|e] wb];
    [|discriminate].
  unfold bind at 1. unfold lift at 1.
  destruct (GeminiService.generateResponse _ _ _ _ _) as [reply|e]; [|discriminate].
  unfold bind at 1.
  destruct (ConversationModel.save _ _ _ _ wb) as [[[]|e] wc] eqn:S; [|discriminate].
  apply conversation_save_inv in S as [_ [_ [V _]]].
  unfold ret. intro H; inversion H; subst. simpl.
  simpl in V. apply andb_true_iff in V as [_ V].
  apply andb_true_iff in V as [V _]. exact V.
Qed.

(** X8.  When the text the model returns cleans to the empty string (a
    reply that was only a fenced block, say), the bot message fails the
    schema's required content: the turn is answered with status 500 or 503
    and [success] false, never with an empty reply, and nothing is stored. *)
Theorem empty_reply_fails_turn
        (env : Env) (user : User) (req : ChatRequest) (w : World) :
  Js.truthy (req_message req) = true ->
  String.length (Js.trim (req_message req)) <> 0 ->
  String.length (req_message req) <= 1000 ->
  repliesNothing env ->
  success (fst (postChat env user req w)) = Some false
  /\ (status (fst (postChat env user req w)) = 500
      \/ status (fst (postChat env user req w)) = 503)
  /\ sameStores w (snd (postChat env user req w)).
Proof.
  intros Ht Hn Hl Hempty.
  rewrite (postChat_run env user req w Ht Hn Hl).
  destruct (persistTurn env user req w) as [[t|e] w1] eqn:P.
  - exfalso.
    pose proof (persistTurn_valid _ _ _ _ _ _ P) as V.
    destruct (persistTurn_inv _ _ _ _ _ _ P)
      as [c0 [isNew [docs [_ [G _]]]]].
    unfold GeminiService.generateResponse in G.
    destruct (Hempty (GeminiService.prompt (req_message req) (contextOf docs)
                        (Js.orElse (user_role user) "employee") (user_name user)))
      as [raw [Hraw Hclean]].
    rewrite Hraw, Hclean in G. injection G as G. rewrite <- G in V.
    discriminate V.
  - simpl. destruct (chatError_status e) as [Hs Hc].
    pose proof (persistTurn_stores _ _ _ _ _ _ P) as [Pf [Pk Pc]].
    repeat split; auto.
Qed.

Lemma fencedEnv_repliesNothing : repliesNothing fencedEnv.
Proof. intro p. exists fencedOnly. split; reflexivity. Qed.

Lemma empty_reply_fails_turn_witness :
  success (fst (postChat fencedEnv ann askHours sampleWorld)) = Some false
  /\ (status (fst (postChat fencedEnv ann askHours sampleWorld)) = 500
      \/ status (fst (postChat fencedEnv ann askHours sampleWorld)) = 503)
  /\ sameStores sampleWorld (snd (postChat fencedEnv ann askHours sampleWorld)).
Proof.
  apply (empty_reply_fails_turn fencedEnv ann askHours sampleWorld).
  - reflexivity.
  - vm_compute. intro E. discriminate E.
  - vm_compute. lia.
  - exact fencedEnv_repliesNothing.
Defined.

Lemma generated_reply_is_trimmed_and_no_longer_witness :
  exists reply,
    GeminiService.generateResponse (fun _ => Ok markedUp)
      "What are the working hours?" "" "employee" "Ann" = Ok reply
    /\ String.length reply <= String.length markedUp
    /\ startsWithSpace reply = false
    /\ endsWithSpace reply = false.
Proof.
  apply (generated_reply_is_trimmed_and_no_longer
           (fun _ => Ok markedUp) "What are the working hours?" "" "employee"
           "Ann" markedUp).
  reflexivity.
Defined.

(** ** View counters *)









(** ** Sessions of other users *)

Lemma In_updateFirst_other {A} (sel : A -> bool) (f : A -> A) (l : list A) (x : A) :
  In x l -> sel x = false -> In x (updateFirst sel f l).
Proof.
  induction l as [|y r IH]; simpl; [tauto|].
  intros [-> | H] Hs.
  - rewrite Hs. now left.
  - destruct (sel y); simpl; auto.
Qed.

Lemma length_updateFirst {A} (sel : A -> bool) (f : A -> A) (l : list A) :
  List.length (updateFirst sel f l) = List.length l.
Proof.
  induction l as [|y r IH]; simpl; [reflexivity|].
  destruct (sel y); simpl; auto.
Qed.

(** X10.  Whatever its outcome, a chat turn leaves the feedback collection
    alone, removes no conversation and adds at most one; and with unique
    conversation ids every conversation that belongs to another user is
    still there, unchanged. *)
Theorem chat_turn_spares_other_users
        (env : Env) (user : User) (req : ChatRequest) (w : World) :
  feedbacks (snd (postChat env user req w)) = feedbacks w
  /\ List.length (conversations w)
     <= List.length (conversations (snd (postChat env user req w)))
     <= List.length (conversations w) + 1
  /\ (NoDup (map conv_id (conversations w)) ->
      forall c, In c (conversations w) -> conv_userId c <> user_id user ->
                In c (conversations (snd (postChat env user req w)))).
Proof.
  destruct (postChat env user req w) as [resp w'] eqn:E. simpl.
  destruct (postChat_effect _ _ _ _ _ _ E) as [[_ [Sc [Sf _]]] | [t [w1 [P [Hc Hf]]]]].
  - rewrite Sc, Sf. repeat split; auto; lia.
  - split; [exact Hf|].
    destruct (persistTurn_inv _ _ _ _ _ _ P)
      as [c0 [isNew [docs [Hres [_ [_ [_ [Hconv [Hstore _]]]]]]]]].
    rewrite Hc, Hstore.
    destruct Hres as [[-> [_ Hfind]] | [-> _]].
    + rewrite length_updateFirst. split; [lia|].
      intros N c Hin Hother. apply In_updateFirst_other; [exact Hin|].
      apply Nat.eqb_neq. intro Eid.
      apply find_some in Hfind as [Hin0 Hsel].
      unfold ConversationModel.bySession in Hsel.
      apply andb_true_iff in Hsel as [_ Hu]. apply Nat.eqb_eq in Hu.
      assert (c = c0).
      { apply (unique_id_owner (conversations w)); auto.
        rewrite Eid, Hconv. reflexivity. }
      subst c0. now apply Hother.
    + rewrite length_app. simpl. split; [lia|].
      intros _ c Hin _. apply in_or_app. now left.
Qed.

(** ** A turn and then an export *)

Lemma postChat_stored env user req w resp w' :
  postChat env user req w = (resp, w') ->
  status resp = 200 ->
  exists t,
    resp = chatReply env t
    /\ find (ConversationModel.bySession (conv_sessionId (turn_conversation t))
                                         (user_id user))
            (conversations w')
       = Some (ConversationModel.touch (now env) (turn_conversation t))
    /\ conv_messages (turn_conversation t)
       = (resolvedMessages user req w
          ++ [ConversationModel.castMessage (userMessage (req_message req));
              ConversationModel.castMessage
                (botMessage (turn_reply t) (turn_quickReplies t))])%list.
Proof.
  intros Hrun Hok.
  destruct (postChat_success_inv env user req w resp w' Hrun Hok)
    as [t [w1 [Hp [Hv ->]]]].
  apply countViews_inv in Hv as [Vc _].
  destruct (persistTurn_inv env user req w t w1 Hp)
    as [c0 [isNew [docs [Hres [_ [_ [_ [Hconv [Hstore Hclash]]]]]]]]].
  exists t. split; [reflexivity|].
  set (stored := ConversationModel.touch (now env) (turn_conversation t)).
  split.
  - rewrite Vc, Hstore.
    destruct Hres as [[-> [Ht Hf]] | [-> [Hc0 Hf]]].
    + pose proof (find_some _ _ Hf) as [_ Hsel].
      assert (Hsid : conv_sessionId (turn_conversation t) = req_sessionId req).
      { rewrite Hconv. simpl. unfold ConversationModel.bySession in Hsel.
        apply andb_true_iff in Hsel as [Hs _]. now apply String.eqb_eq. }
      rewrite Hsid. fold stored.
      change (conv_id (turn_conversation t)) with (conv_id stored).
      apply find_updateFirst_session with (c0 := c0); auto.
      * unfold stored. rewrite Hconv. simpl. exact Hsel.
      * unfold stored. rewrite Hconv. reflexivity.
    + apply find_app_new.
      * intros d Hd. specialize (Hclash eq_refl).
        unfold ConversationModel.bySession.
        destruct (String.eqb_spec (conv_sessionId d)
                                  (conv_sessionId (turn_conversation t))) as [E|];
          [|reflexivity].
        exfalso.
        assert (X : existsb (ConversationModel.clashes (turn_conversation t))
                            (conversations w) = true).
        { apply existsb_exists. exists d. split; [exact Hd|].
          unfold ConversationModel.clashes. rewrite E, String.eqb_refl.
          apply orb_true_r. }
        rewrite X in Hclash. discriminate.
      * unfold stored, ConversationModel.bySession. rewrite Hconv, Hc0. simpl.
        now rewrite String.eqb_refl, Nat.eqb_refl.
  - rewrite Hconv. simpl. rewrite <- app_assoc. simpl.
    f_equal. unfold resolvedMessages.
    destruct Hres as [[_ [Ht Hf]] | [_ [-> Hf]]].
    + now rewrite Ht, Hf.
    + simpl. destruct (Js.truthy (req_sessionId req)); [|reflexivity].
      now rewrite (Hf eq_refl).
Qed.

Lemma castReplies_texts (quickReplies : list Reply) :
  (forall r, In r quickReplies -> exists text, r = Text text) ->
  ConversationModel.castReplies quickReplies = quickReplies.
Proof.
  intro H. unfold ConversationModel.castReplies.
  assert (C : forallb ConversationModel.castable quickReplies = true).
  { apply forallb_forall. intros r Hr. destruct (H r Hr) as [text ->]. reflexivity. }
  rewrite C. rewrite <- (map_id quickReplies) at 2. apply map_ext_in.
  intros r Hr. destruct (H r Hr) as [text ->]. reflexivity.
Qed.

(** X11.  After a turn answered with success, an export of the session id
    the answer carries, made by the same user with no storage fault, gives
    the whole transcript back: the messages the session had, then the
    question and the reply of the turn as the schema stored them (trimmed,
    the quick replies cast to strings), with [totalMessages] two more than
    before.  The body of the export has no [success] key.  The quick replies
    exported with the reply are those of the answer whenever these are all
    strings. *)
Theorem export_after_turn_returns_transcript
        (env : Env) (user : User) (req : ChatRequest) (w w' : World)
        (resp : Response) :
  postChat env user req w = (resp, w') ->
  status resp = 200 ->
  faults w' = [] ->
  exists reply sid quickReplies cid n role lat messages updatedAt userRole,
    payload resp = ChatTurn reply sid quickReplies cid n role lat
    /\ exportConversation user sid w'
       = (mkResponse 200 None None
            (Export sid (user_id user) (user_name user) (user_email user)
                    (List.length (resolvedMessages user req w) + 2)
                    messages userRole updatedAt),
          w')
    /\ messages
       = (map exported (resolvedMessages user req w)
          ++ [mkExported RoleUser (Js.trim (req_message req)) [];
              mkExported RoleBot (Js.trim reply)
                         (ConversationModel.castReplies quickReplies)])%list
    /\ ((forall r, In r quickReplies -> exists text, r = Text text) ->
        ConversationModel.castReplies quickReplies = quickReplies).
Proof.
  intros Hrun Hok Hq.
  destruct (postChat_stored env user req w resp w' Hrun Hok)
    as [t [-> [Hfind Hmsgs]]].
  exists (turn_reply t), (conv_sessionId (turn_conversation t)),
    (turn_quickReplies t), (conv_id (turn_conversation t)),
    (List.length (turn_knowledge t)), (turn_userRole t), (latency env),
    (map exported (conv_messages (turn_conversation t))), (now env),
    (conv_userRole (turn_conversation t)).
  split; [reflexivity|]. split; [|split].
  - unfold exportConversation, route, bind.
    rewrite (findOne_quiet _ w' Hq), Hfind. unfold ret, plain.
    cbn [ConversationModel.touch conv_messages conv_userRole conv_updatedAt].
    rewrite Hmsgs, length_app. reflexivity.
  - rewrite Hmsgs, map_app. reflexivity.
  - apply castReplies_texts.
Qed.

Lemma export_after_turn_returns_transcript_witness :
  exists reply sid quickReplies cid n role lat messages updatedAt userRole,
    payload (fst quietTurn) = ChatTurn reply sid quickReplies cid n role lat
    /\ exportConversation ann sid (snd quietTurn)
       = (mkResponse 200 None None
            (Export sid (user_id ann) (user_name ann) (user_email ann)
                    (List.length (resolvedMessages ann askHours sampleWorld) + 2)
                    messages userRole updatedAt),
          snd quietTurn)
    /\ messages
       = (map exported (resolvedMessages ann askHours sampleWorld)
          ++ [mkExported RoleUser (Js.trim (req_message askHours)) [];
              mkExported RoleBot (Js.trim reply)
                         (ConversationModel.castReplies quickReplies)])%list
    /\ ((forall r, In r quickReplies -> exists text, r = Text text) ->
        ConversationModel.castReplies quickReplies = quickReplies).
Proof.
  apply (export_after_turn_returns_transcript sampleEnv ann askHours sampleWorld
           (snd quietTurn) (fst quietTurn)); reflexivity.
Defined.

(** ** More on feedback *)

Lemma postFeedback_knowledge env user req w resp w' :
  postFeedback env user req w = (resp, w') -> knowledge w' = knowledge w.
Proof.
  unfold postFeedback, route.
  destruct (fr_conversationId req) as [cid|];
    [|simpl; intro H; inversion H; now subst].
  destruct (fr_rating req) as [q|]; [|simpl; intro H; inversion H; now subst].
  destruct (Qeq_bool q 0); [simpl; intro H; inversion H; now subst|].
  destruct (Qltb q 1 || Qltb 5 q); [simpl; intro H; inversion H; now subst|].
  unfold bind at 1.
  destruct (ConversationModel.findOne _ w) as [[found|e] w1] eqn:F;
    apply findOne_inv in F as [[Sc [Sf Sk]] _];
    [|intro H; inversion H; now subst].
  destruct found as [c|]; [|simpl; intro H; inversion H; now subst].
  unfold bind at 1.
  destruct (FeedbackModel.save _ w1) as [[[]|e] w2] eqn:S;
    apply feedback_save_inv in S as [Tc [Tk Tf]];
    [|intro H; inversion H; subst; now rewrite Tk].
  unfold bind at 1.
  destruct (ConversationModel.save _ _ _ _ w2) as [[[]|e] w3] eqn:C;
    apply conversation_save_inv in C as [Uf [Uk _]];
    simpl; intro H; inversion H; subst w3; now rewrite Uk, Tk.
Qed.

(** X12.  Whatever the request and whatever the storage does, the feedback
    route leaves the knowledge base alone and either leaves the feedback
    collection as it was or adds exactly one record; that record names the
    caller as its user, refers to a stored conversation of the caller and
    holds a whole rating between 1 and 5.  So, with unique conversation
    ids, records keep carrying the user id of their conversation. *)
Theorem feedback_route_adds_one_owned_record
        (env : Env) (user : User) (req : FeedbackRequest) (w : World) :
  knowledge (snd (postFeedback env user req w)) = knowledge w
  /\ (feedbacks (snd (postFeedback env user req w)) = feedbacks w
      \/ exists f c,
           feedbacks (snd (postFeedback env user req w)) = (feedbacks w ++ [f])%list
           /\ (1 <= fb_rating f <= 5)%Z
           /\ fb_userId f = user_id user
           /\ In c (conversations w)
           /\ conv_userId c = user_id user
           /\ fb_conversationId f = conv_id c)
  /\ (NoDup (map conv_id (conversations w)) -> feedbackOwned w ->
      feedbackOwned (snd (postFeedback env user req w))).
Proof.
  destruct (postFeedback env user req w) as [resp w'] eqn:E. simpl.
  split; [now apply (postFeedback_knowledge env user req w resp)|].
  split; [now apply (postFeedback_writes env user req w resp)|].
  intros N O. now apply (postFeedback_keeps_ownership env user req w resp w').
Qed.




(** X14.  The route is not transactional.  When the record is saved and the
    save of the stamped conversation then fails, the caller is told that the
    submission failed (status 500, with the message of the error as
    [details]) although the record is in the collection; the conversation
    carries no stamp. *)
Theorem feedback_kept_when_stamp_fails
        (env : Env) (user : User) (req : FeedbackRequest) (w : World)
        (cid : ObjectId) (q : Q) (c : Conversation) (e : Thrown)
        (rest : list (option Thrown)) :
  fr_conversationId req = Some cid ->
  fr_rating req = Some q ->
  passesRatingChecks q ->
  faults w = None :: None :: Some e :: rest ->
  find (ConversationModel.byId cid (user_id user)) (conversations w) = Some c ->
  answerable req c ->
  unusedFeedbackId (freshId env) w ->
  postFeedback env user req w
  = (failure 500 "Failed to submit feedback" (Details (thrownMessage e)),
     mkWorld (conversations w)
             (feedbacks w ++ [FeedbackModel.cast (feedbackOf env user cid q req c)])
             (knowledge w) rest).
Proof.
  intros Hc Hr [Hz [Hlo Hhi]] Hq Hfind [Hquestion Hresponse] Hid.
  assert (Hrange : ((1 <=? parseInt q)%Z && (parseInt q <=? 5)%Z) = true).
  { destruct (parseInt_range q Hlo Hhi).
    apply andb_true_iff. split; now apply Z.leb_le. }
  assert (V : FeedbackModel.valid (FeedbackModel.cast (feedbackOf env user cid q req c)) = true).
  { unfold FeedbackModel.valid. simpl. rewrite Hquestion, Hresponse. exact Hrange. }
  unfold postFeedback, route. rewrite Hc, Hr, Hz, Hlo, Hhi. simpl.
  destruct w as [cs fs ks fl]. simpl in *. subst fl.
  unfold bind at 1. unfold ConversationModel.findOne, bind at 1, roundTrip. simpl.
  unfold bind at 1. simpl. rewrite Hfind.
  unfold bind at 1. unfold FeedbackModel.save. rewrite V. simpl.
  unfold bind, roundTrip, getFeedbacks, putFeedbacks, throw. simpl.
  unfold unusedFeedbackId in Hid. simpl in Hid. rewrite Hid. simpl.
  reflexivity.
Qed.

Lemma feedback_kept_when_stamp_fails_witness :
  postFeedback sampleEnv ann (withRating rateAnn 5) stampFaultWorld
  = (failure 500 "Failed to submit feedback" (Details (thrownMessage socketClosed)),
     mkWorld (conversations stampFaultWorld)
             (feedbacks stampFaultWorld
              ++ [FeedbackModel.cast
                    (feedbackOf sampleEnv ann 6 5%Q (withRating rateAnn 5) annSession)])
             (knowledge stampFaultWorld) []).
Proof.
  apply (feedback_kept_when_stamp_fails sampleEnv ann (withRating rateAnn 5)
           stampFaultWorld 6 5%Q annSession socketClosed []);
    try reflexivity.
  - repeat split.
  - split; reflexivity.
Defined.

Lemma ratingError_none (z : Z) : (1 <= z <= 5)%Z -> FeedbackModel.ratingError z = [].
Proof.
  intro H. unfold FeedbackModel.ratingError.
  destruct (Z.ltb_spec z 1); [lia|]. destruct (Z.ltb_spec 5 z); [lia|]. reflexivity.
Qed.

(** X15.  A rating for a conversation in which the user has said nothing
    yet, sent without a question of its own, cannot be filed: the question
    falls back on the empty string, the schema requires one, and the caller
    gets status 500 while nothing is written.  The [details] of the answer
    are the message of the validation error, which names the path
    [question], and after it the path [botResponse] when there is no
    response to file either. *)
Theorem feedback_without_question_is_refused
        (env : Env) (user : User) (req : FeedbackRequest) (w : World)
        (cid : ObjectId) (q : Q) (c : Conversation) :
  fr_conversationId req = Some cid ->
  fr_rating req = Some q ->
  passesRatingChecks q ->
  fr_question req = "" ->
  filter (isRole RoleUser) (conv_messages c) = [] ->
  faults w = [] ->
  find (ConversationModel.byId cid (user_id user)) (conversations w) = Some c ->
  postFeedback env user req w
  = (failure 500 "Failed to submit feedback"
       (Details
          (Some ("Feedback validation failed: question: Path `question` is required."
                 ++ (if Js.truthy
                          (Js.trim
                             (Js.orElse (fr_response req)
                                (lastContent (filter (isRole RoleBot)
                                                     (conv_messages c)))))
                     then ""
                     else ", botResponse: Path `botResponse` is required.")))),
     w)
  /\ status (fst (postFeedback env user req w)) = 500
  /\ snd (postFeedback env user req w) = w.
Proof.
  intros Hc Hr [Hz [Hlo Hhi]] Hqu Hnone Hq Hfind.
  assert (Hrun : postFeedback env user req w
    = (failure 500 "Failed to submit feedback"
       (Details
          (Some ("Feedback validation failed: question: Path `question` is required."
                 ++ (if Js.truthy
                          (Js.trim
                             (Js.orElse (fr_response req)
                                (lastContent (filter (isRole RoleBot)
                                                     (conv_messages c)))))
                     then ""
                     else ", botResponse: Path `botResponse` is required.")))),
     w)).
  { unfold postFeedback, route. rewrite Hc, Hr, Hz, Hlo, Hhi. simpl.
    unfold bind at 1. rewrite (findOne_quiet _ w Hq), Hfind.
    unfold bind at 1. unfold FeedbackModel.save.
    assert (V : FeedbackModel.valid
                  (FeedbackModel.cast (feedbackOf env user cid q req c)) = false).
    { unfold FeedbackModel.valid. simpl. rewrite Hqu, Hnone. reflexivity. }
    rewrite V. cbn [negb]. unfold throw, feedbackError.
    unfold ConversationModel.validationError, thrownMessage, FeedbackModel.errors.
    unfold FeedbackModel.cast, feedbackOf.
    cbn [fb_question fb_botResponse fb_rating].
    rewrite Hqu, Hnone, (ratingError_none _ (parseInt_range q Hlo Hhi)).
    unfold ConversationModel.requiredError at 1. cbn [Js.orElse Js.truthy lastContent Js.trim Js.trimStart Js.trimEnd].
    unfold ConversationModel.requiredError.
    destruct (Js.truthy (Js.trim (Js.orElse (fr_response req)
                (lastContent (filter (isRole RoleBot) (conv_messages c))))));
      reflexivity. }
  rewrite Hrun. repeat split.
Qed.

Lemma feedback_without_question_is_refused_witness :
  postFeedback sampleEnv ann (mkFeedbackRequest (Some 7) (Some 4%Q) "" "" "" None)
               emptySessionWorld
  = (failure 500 "Failed to submit feedback"
       (Details
          (Some "Feedback validation failed: question: Path `question` is required., botResponse: Path `botResponse` is required.")),
     emptySessionWorld).
Proof.
  apply (feedback_without_question_is_refused sampleEnv ann
           (mkFeedbackRequest (Some 7) (Some 4%Q) "" "" "" None)
           emptySessionWorld 7 4%Q emptySession); try reflexivity.
  repeat split.
Defined.

(** ** More on deletion *)

Lemma find_removeFirst_unique sid uid (cs : list Conversation) :
  NoDup (map conv_sessionId cs) ->
  find (ConversationModel.bySession sid uid)
       (removeFirst (ConversationModel.bySession sid uid) cs) = None.
Proof.
  induction cs as [|x r IH]; simpl; intro N; [reflexivity|].
  inversion N as [|? ? Hx Hr]; subst.
  destruct (ConversationModel.bySession sid uid x) eqn:B.
  - apply find_none_of. intros y Hy. unfold ConversationModel.bySession in *.
    apply andb_true_iff in B as [Bs _]. apply String.eqb_eq in Bs.
    destruct (String.eqb_spec (conv_sessionId y) sid) as [E|]; [|reflexivity].
    exfalso. apply Hx. rewrite Bs, <- E. now apply in_map.
  - simpl. rewrite B. now apply IH.
Qed.

Lemma length_removeFirst {A} (sel : A -> bool) (l : list A) (x : A) :
  find sel l = Some x -> S (List.length (removeFirst sel l)) = List.length l.
Proof.
  induction l as [|y r IH]; simpl; [discriminate|].
  destruct (sel y); [reflexivity|]. intro H. simpl. now rewrite IH.
Qed.

(** X16.  With session ids unique, a single delete that succeeded took
    exactly one conversation away, and the session is gone for good: asked
    again (with no storage fault), the delete and the export both answer
    404. *)
Theorem deleted_session_is_gone
        (user : User) (sid : string) (w w' : World) (resp : Response) :
  deleteConversation user sid w = (resp, w') ->
  status resp = 200 ->
  NoDup (map conv_sessionId (conversations w)) ->
  faults w' = [] ->
  S (List.length (conversations w')) = List.length (conversations w)
  /\ deleteConversation user sid w' = (notFound, w')
  /\ exportConversation user sid w' = (notFound, w').
Proof.
  unfold deleteConversation at 1, route. unfold bind at 1.
  destruct (ConversationModel.findOneAndDelete _ w) as [[[c|]|e] w1] eqn:D;
    apply findOneAndDelete_inv in D as [Df [Dk Dc]];
    [|intro H; inversion H; subst; discriminate
     |intro H; inversion H; subst; discriminate].
  destruct Dc as [Hfind Hrem]. unfold bind.
  destruct (FeedbackModel.deleteMany _ w1) as [[n|e] w2] eqn:F;
    apply feedback_deleteMany_inv in F as [Fc [Fk Ff]];
    intro H; inversion H; subst; [|discriminate].
  intros _ N Hq.
  assert (Gone : find (ConversationModel.bySession sid (user_id user))
                      (conversations w') = None).
  { rewrite Fc, Hrem. now apply find_removeFirst_unique. }
  split; [rewrite Fc, Hrem; now apply length_removeFirst with (x := c)|].
  split.
  - unfold deleteConversation, route, ConversationModel.findOneAndDelete, bind,
      getConversations.
    rewrite (roundTrip_quiet w' Hq), Gone. reflexivity.
  - unfold exportConversation, route, bind.
    rewrite (findOne_quiet _ w' Hq), Gone. reflexivity.
Qed.

Lemma deleted_session_is_gone_witness :
  S (List.length (conversations (snd (deleteConversation ann "session_2_ann" ratedWorld))))
  = List.length (conversations ratedWorld)
  /\ deleteConversation ann "session_2_ann"
       (snd (deleteConversation ann "session_2_ann" ratedWorld))
     = (notFound, snd (deleteConversation ann "session_2_ann" ratedWorld))
  /\ exportConversation ann "session_2_ann"
       (snd (deleteConversation ann "session_2_ann" ratedWorld))
     = (notFound, snd (deleteConversation ann "session_2_ann" ratedWorld)).
Proof.
  apply (deleted_session_is_gone ann "session_2_ann" ratedWorld
           (snd (deleteConversation ann "session_2_ann" ratedWorld))
           (fst (deleteConversation ann "session_2_ann" ratedWorld)));
    try reflexivity.
  simpl. repeat constructor; simpl; intuition discriminate.
Defined.

(** X17.  The cascade is not transactional either.  When the conversation
    is found and removed and the delete of its feedback then fails, the
    caller gets status 500 while the conversation is gone and every
    feedback record, those of the deleted conversation included, is still
    stored. *)
Theorem delete_leaves_feedback_when_cascade_fails
        (user : User) (sid : string) (w : World) (c : Conversation) (e : Thrown)
        (rest : list (option Thrown)) :
  faults w = None :: Some e :: rest ->
  find (ConversationModel.bySession sid (user_id user)) (conversations w) = Some c ->
  deleteConversation user sid w
  = (failure 500 "Internal server error" NoPayload,
     mkWorld (removeFirst (ConversationModel.bySession sid (user_id user))
                          (conversations w))
             (feedbacks w) (knowledge w) rest).
Proof.
  intros Hq Hfind. destruct w as [cs fs ks fl]. simpl in *. subst fl.
  unfold deleteConversation, route, ConversationModel.findOneAndDelete.
  unfold bind at 1. unfold bind at 1. unfold roundTrip at 1. simpl.
  unfold bind at 1. simpl. rewrite Hfind.
  unfold bind at 1. simpl. reflexivity.
Qed.

Lemma delete_leaves_feedback_when_cascade_fails_witness :
  deleteConversation ann "session_2_ann" cascadeFaultWorld
  = (failure 500 "Internal server error" NoPayload,
     mkWorld (removeFirst (ConversationModel.bySession "session_2_ann" (user_id ann))
                          (conversations cascadeFaultWorld))
             (feedbacks cascadeFaultWorld) (knowledge cascadeFaultWorld) []).
Proof.
  apply (delete_leaves_feedback_when_cascade_fails ann "session_2_ann"
           cascadeFaultWorld
           (ConversationModel.touch 100
              (ConversationModel.stamp (mkSessionFeedback 5 "" 100) annSession))
           socketClosed []); reflexivity.
Defined.

Lemma filter_twice {A} (sel : A -> bool) (l : list A) :
  filter sel (filter sel l) = filter sel l.
Proof.
  induction l as [|x r IH]; simpl; [reflexivity|].
  destruct (sel x) eqn:E; simpl; [rewrite E|]; now rewrite ?IH.
Qed.

Lemma filter_opposite {A} (sel : A -> bool) (l : list A) :
  filter sel (filter (fun x => negb (sel x)) l) = [].
Proof.
  apply filter_none_of. intros x Hx. now apply filter_negb_In in Hx.
Qed.

(** X18.  Once a delete of all sessions has succeeded, the caller has no
    history left, whichever session is asked for (404), and a second delete
    of all sessions removes nothing: it reports a [deletedCount] of 0 and
    leaves the collections as they are. *)
Theorem delete_all_then_nothing_left
        (user : User) (w w' : World) (resp : Response) :
  deleteAllConversations user w = (resp, w') ->
  status resp = 200 ->
  faults w' = [] ->
  (forall sid, getHistory user sid w'
               = (failure 404 "No conversations found" NoSessions, w'))
  /\ fst (deleteAllConversations user w') = json (Deleted 0)
  /\ sameStores w' (snd (deleteAllConversations user w')).
Proof.
  unfold deleteAllConversations at 1, route. unfold bind at 1.
  destruct (ConversationModel.deleteMany _ w) as [[n|e] w1] eqn:D;
    apply conv_deleteMany_inv in D as [Df [Dk Dc]];
    [|intro H; inversion H; subst; discriminate].
  destruct Dc as [-> Hc]. unfold bind.
  destruct (FeedbackModel.deleteMany _ w1) as [[m|e] w2] eqn:F;
    apply feedback_deleteMany_inv in F as [Fc [Fk Ff]];
    intro H; inversion H; subst; [|discriminate].
  intros _ Hq.
  assert (Hconv : conversations w'
                  = filter (fun c => negb (ConversationModel.byUser (user_id user) c))
                           (conversations w)) by now rewrite Fc.
  assert (Hfb : feedbacks w'
                = filter (fun f => negb (fb_userId f =? user_id user)) (feedbacks w))
    by now rewrite Ff, Df.
  split; [|split].
  - intro sid. unfold getHistory, route, ConversationModel.findSorted, bind,
      getConversations, ret.
    rewrite (roundTrip_quiet w' Hq).
    rewrite filter_none_of; [unfold limit, sortDesc; simpl;
                             destruct (Js.truthy sid); reflexivity|].
    intros c Hin. rewrite Hconv in Hin. apply filter_negb_In in Hin.
    now rewrite Hin.
  - unfold deleteAllConversations, route, ConversationModel.deleteMany,
      FeedbackModel.deleteMany, bind, getConversations, putConversations,
      getFeedbacks, putFeedbacks, ret.
    rewrite (roundTrip_quiet w' Hq). simpl. unfold roundTrip. simpl.
    rewrite Hq. simpl. rewrite Hconv.
    now rewrite (filter_opposite (ConversationModel.byUser (user_id user))).
  - unfold deleteAllConversations, route, ConversationModel.deleteMany,
      FeedbackModel.deleteMany, bind, getConversations, putConversations,
      getFeedbacks, putFeedbacks, ret.
    rewrite (roundTrip_quiet w' Hq). simpl. unfold roundTrip. simpl.
    rewrite Hq. simpl. unfold sameStores. simpl.
    rewrite Hconv, Hfb.
    rewrite (filter_twice (fun c => negb (ConversationModel.byUser (user_id user) c))).
    rewrite (filter_twice (fun f => negb (fb_userId f =? user_id user))).
    auto.
Qed.

Lemma delete_all_then_nothing_left_witness :
  (forall sid, getHistory ann sid (snd (deleteAllConversations ann ratedWorld))
               = (failure 404 "No conversations found" NoSessions,
                  snd (deleteAllConversations ann ratedWorld)))
  /\ fst (deleteAllConversations ann (snd (deleteAllConversations ann ratedWorld)))
     = json (Deleted 0)
  /\ sameStores (snd (deleteAllConversations ann ratedWorld))
                (snd (deleteAllConversations ann
                        (snd (deleteAllConversations ann ratedWorld)))).
Proof.
  apply (delete_all_then_nothing_left ann ratedWorld
           (snd (deleteAllConversations ann ratedWorld))
           (fst (deleteAllConversations ann ratedWorld))); reflexivity.
Defined.

(** ** The list of sessions *)

(** X19.  The history without a session id never writes.  When it answers
    with a list, the list holds between 1 and 20 summaries, [total] is
    their number, they run from the most recently updated session to the
    least, each is the summary of a stored conversation of the caller, and
    no [lastMessage] is longer than 100 units.  With no storage fault the
    answer is 404 exactly when the caller has no conversation. *)
Theorem history_lists_own_sessions_newest_first (user : User) (w : World) :
  sameStores w (snd (getHistory user "" w))
  /\ match payload (fst (getHistory user "" w)) with
     | Sessions total items =>
         total = List.length items
         /\ 1 <= total <= 20
         /\ descending sum_updatedAt items
         /\ forall item, In item items ->
              String.length (sum_lastMessage item) <= 100
              /\ exists c, In c (conversations w)
                           /\ conv_userId c = user_id user
                           /\ item = summaryOf c
     | Transcript _ _ _ _ => False
     | _ => True
     end
  /\ (faults w = [] ->
      (status (fst (getHistory user "" w)) = 404
       <-> forall c, In c (conversations w) -> conv_userId c <> user_id user)).
Proof.
  unfold getHistory, route, ConversationModel.findSorted, bind, getConversations, ret.
  change (Js.truthy "") with false. cbv iota.
  set (sel := fun c => ConversationModel.byUser (user_id user) c && true).
  assert (Hsel : forall c, sel c = true <-> conv_userId c = user_id user).
  { intro c. unfold sel, ConversationModel.byUser.
    rewrite andb_true_r. apply Nat.eqb_eq. }
  destruct (roundTrip w) as [[[]|e] w0] eqn:R.
  - pose proof (roundTrip_same _ _ _ R) as S. destruct S as [Rc [Rf Rk]].
    rewrite Rc.
    set (found := limit 20 (sortDesc conv_updatedAt (filter sel (conversations w)))).
    assert (Hown : forall c, In c found ->
                             In c (conversations w) /\ conv_userId c = user_id user).
    { intros c Hc. unfold found in Hc. apply In_limit, In_sortDesc in Hc.
      apply filter_In in Hc as [Hin Hs]. split; [exact Hin | now apply Hsel]. }
    assert (Hsorted : descending conv_updatedAt found)
      by apply limit_descending, sortDesc_descending.
    assert (Hlen : List.length found <= 20) by (apply limit_length; lia).
    assert (Hempty : found = [] <->
                     forall c, In c (conversations w) -> conv_userId c <> user_id user).
    { unfold found, limit. simpl. split.
      - intros E c Hin Hu.
        assert (In c (sortDesc conv_updatedAt (filter sel (conversations w)))).
        { apply In_sortDesc, filter_In. split; [exact Hin | now apply Hsel]. }
        destruct (sortDesc conv_updatedAt (filter sel (conversations w)));
          [contradiction | discriminate].
      - intro Hnone. rewrite filter_none_of; [reflexivity|].
        intros c Hin. destruct (sel c) eqn:Sc; [|reflexivity].
        exfalso. apply (Hnone c Hin). now apply Hsel. }
    destruct found as [|c rest] eqn:F; simpl.
    + split; [repeat split; auto|]. split; [exact I|].
      intros _. split; [intros _; now apply Hempty | reflexivity].
    + split; [repeat split; auto|]. split.
      * split; [now rewrite length_map|]. split; [simpl in Hlen; lia|].
        split.
        -- apply (descending_map conv_updatedAt sum_updatedAt summaryOf (c :: rest));
             [reflexivity | exact Hsorted].
        -- intros item Hitem.
           assert (Hitem' : In item (map summaryOf (c :: rest))) by exact Hitem.
           apply in_map_iff in Hitem' as [d [<- Hd]].
           destruct (Hown d Hd) as [Hin Hu]. split.
           ++ unfold summaryOf. cbn [sum_lastMessage].
              destruct (conv_messages d) as [|m ms];
                [cbv; lia | apply (proj1 (length_take 100 _))].
           ++ exists d. auto.
      * intros _. split; [discriminate|].
        intro Hnone. apply Hempty in Hnone. discriminate.
  - simpl. split; [now apply roundTrip_same in R|]. split; [exact I|].
    intro Hq. rewrite (roundTrip_quiet w Hq) in R. discriminate.
Qed.

(** ** The auth middleware *)

(** X20.  The middleware lets a request through exactly when it carries a
    token, the token verifies and, where roles are required, the role in the
    token is one of them; what it hands on as [req.user] is the verified
    payload and nothing the client chose.  Every other request is denied
    with 401 (no token, bad token) or 403 (role), and the expiring-soon
    header is set exactly for verified tokens within 300 seconds of their
    expiry, on a 403 as well. *)
Theorem middleware_passes_only_verified_allowed
        (verify : string -> option Decoded) (roles : list string)
        (nowSeconds : Z) (c : Credentials) :
  (forall d token,
      auth_result (getAuthMiddleware verify roles nowSeconds c) = Next d token
      <-> (token = tokenOf c /\ token <> ""
           /\ verify token = Some d
           /\ (roles = [] \/ In (user_role (dec_user d)) roles)))
  /\ (forall status message code,
         auth_result (getAuthMiddleware verify roles nowSeconds c)
         = Denied status message code ->
         (status = 401 /\ code = "NO_TOKEN" /\ tokenOf c = "")
         \/ (status = 401 /\ code = "INVALID_TOKEN" /\ verify (tokenOf c) = None)
         \/ (status = 403 /\ code = "FORBIDDEN" /\ roles <> []))
  /\ (auth_expiringSoon (getAuthMiddleware verify roles nowSeconds c) = true
      <-> exists d exp, tokenOf c <> "" /\ verify (tokenOf c) = Some d
                        /\ dec_exp d = Some exp /\ (exp - nowSeconds < 300)%Z).
Proof.
  unfold getAuthMiddleware.
  destruct (tokenOf c) as [|t0 tr] eqn:T; simpl.
  - split; [|split].
    + intros d token. split; [discriminate|]. intros [-> [H _]]. congruence.
    + intros st msg code H. inversion H; subst. auto.
    + split; [discriminate|]. intros [d [exp [H _]]]. congruence.
  - destruct (verify (String t0 tr)) as [d0|] eqn:V; simpl.
    + assert (Allowed :
                (negb (List.length roles =? 0)
                 && negb (existsb (String.eqb (user_role (dec_user d0))) roles)) = false
                <-> roles = [] \/ In (user_role (dec_user d0)) roles).
      { destruct roles as [|r rs]; simpl; [tauto|].
        rewrite negb_false_iff. split.
        - intro H. right. apply orb_true_iff in H as [H | H].
          + left. apply String.eqb_eq in H. auto.
          + right. apply existsb_exists in H as [x [Hx Ex]].
            apply String.eqb_eq in Ex. now subst.
        - intros [H | [H | H]]; [discriminate| |].
          + subst. now rewrite String.eqb_refl.
          + apply orb_true_iff. right. apply existsb_exists.
            exists (user_role (dec_user d0)). split; [exact H|].
            apply String.eqb_refl. }
      assert (Soon : match dec_exp d0 with
                     | Some exp => (exp - nowSeconds <? 300)%Z
                     | None => false
                     end = true
                     <-> exists d exp, String t0 tr <> "" /\ Some d0 = Some d
                                       /\ dec_exp d = Some exp
                                       /\ (exp - nowSeconds < 300)%Z).
      { split.
        - destruct (dec_exp d0) as [exp|] eqn:X; [|discriminate].
          intro H. apply Z.ltb_lt in H. exists d0, exp.
          repeat split; auto. discriminate.
        - intros [d [exp [_ [E [X H]]]]]. injection E as <-. rewrite X.
          now apply Z.ltb_lt. }
      destruct (negb (List.length roles =? 0)
                && negb (existsb (String.eqb (user_role (dec_user d0))) roles)) eqn:B;
        simpl.
      * split; [|split; [|exact Soon]].
        -- intros d token. split; [discriminate|].
           intros [-> [_ [E R]]]. rewrite V in E. injection E as <-.
           apply Allowed in R. rewrite R in B. discriminate.
        -- intros st msg code H. inversion H; subst. right. right.
           repeat split. intros ->. discriminate.
      * split; [|split; [|exact Soon]].
        -- intros d token. split.
           ++ intro H. inversion H; subst. repeat split; auto; [discriminate|].
              now apply Allowed.
           ++ intros [-> [_ [E _]]]. rewrite V in E. now injection E as <-.
        -- intros st msg code H. discriminate.
    + split; [|split].
      * intros d token. split; [discriminate|]. intros [-> [_ [E _]]].
        rewrite V in E. discriminate.
      * intros st msg code H. inversion H; subst. auto.
      * split; [discriminate|]. intros [d [exp [_ [E _]]]]. discriminate.
Qed.

(** X21.  The token is looked for in the cookie first, then in the
    [Authorization] header, then in the query string: a cookie token hides
    the other two, and a header of the form [Bearer t] gives [t]. *)
Theorem token_source_precedence (cookie header query t : string) :
  (cookie <> "" -> tokenOf (mkCredentials cookie header query) = cookie)
  /\ (t <> "" -> tokenOf (mkCredentials "" ("Bearer " ++ t) query) = t)
  /\ tokenOf (mkCredentials "" "" query) = query
  /\ tokenOf (mkCredentials "" "Bearer " query) = query.
Proof.
  unfold tokenOf, Js.orElse. split; [|split; [|split]].
  - intro H. destruct cookie; [congruence | reflexivity].
  - intro H. destruct t; [congruence | reflexivity].
  - destruct query; reflexivity.
  - destruct query; reflexivity.
Qed.

(** X22.  A chat route behind the middleware: a request whose token does
    not verify is answered 401 and reaches neither the handler nor the
    store; a request that is handled is handled for the user of its
    verified token, whatever its role. *)
Theorem guarded_chat_acts_for_token_user
        (verify : string -> option Decoded) (nowSeconds : Z) (c : Credentials)
        (env : Env) (req : ChatRequest) (w : World) :
  (verify (tokenOf c) = None ->
   exists message code,
     guarded verify nowSeconds c (fun u => postChat env u req) w
     = (inl (Denied 401 message code), w))
  /\ (forall resp w',
         guarded verify nowSeconds c (fun u => postChat env u req) w
         = (inr resp, w') ->
         exists d, verify (tokenOf c) = Some d
                   /\ postChat env (dec_user d) req w = (resp, w')).
Proof.
  unfold guarded, getAuthMiddleware. split.
  - intro V. destruct (Js.truthy (tokenOf c)); simpl; [rewrite V|]; simpl; eauto.
  - intros resp w'. destruct (Js.truthy (tokenOf c)); simpl; [|discriminate].
    destruct (verify (tokenOf c)) as [d|]; simpl; [|discriminate].
    destruct (postChat env (dec_user d) req w) as [r w1] eqn:E.
    intro H; inversion H; subst. exists d. auto.
Qed.

Lemma guarded_chat_acts_for_token_user_witness :
  exists message code,
    guarded sampleVerify 0 (mkCredentials "" "Bearer forged" "")
            (fun u => postChat sampleEnv u askHours) sampleWorld
    = (inl (Denied 401 message code), sampleWorld).
Proof.
  apply (proj1 (guarded_chat_acts_for_token_user sampleVerify 0
                  (mkCredentials "" "Bearer forged" "") sampleEnv askHours
                  sampleWorld)).
  reflexivity.
Defined.

(** ** The login throttle *)

Lemma mapGet_mapSet (ip ip' : string) (a : Attempts) (m : AttemptMap) :
  mapGet ip' (mapSet ip a m) = if String.eqb ip ip' then Some a else mapGet ip' m.
Proof.
  induction m as [|[k b] rest IH]; simpl.
  - destruct (String.eqb ip ip'); reflexivity.
  - destruct (String.eqb_spec k ip) as [->|N]; simpl.
    + destruct (String.eqb ip ip'); reflexivity.
    + rewrite IH. destruct (String.eqb_spec k ip') as [->|N'];
        [|reflexivity].
      destruct (String.eqb_spec ip ip') as [->|]; [congruence | reflexivity].
Qed.

Lemma mapGet_mapDelete (ip ip' : string) (m : AttemptMap) :
  mapGet ip' (mapDelete ip m) = if String.eqb ip ip' then None else mapGet ip' m.
Proof.
  induction m as [|[k b] rest IH]; simpl.
  - destruct (String.eqb ip ip'); reflexivity.
  - destruct (String.eqb_spec k ip) as [->|N]; simpl.
    + rewrite IH. destruct (String.eqb ip ip'); reflexivity.
    + rewrite IH. destruct (String.eqb_spec k ip') as [->|N'];
        [|reflexivity].
      destruct (String.eqb_spec ip ip') as [->|]; [congruence | reflexivity].
Qed.

Lemma mapGet_trackAttempt (ip : string) (now : nat) (m : AttemptMap) :
  mapGet ip (trackAttempt ip now m)
  = match mapGet ip m with
    | None => Some (mkAttempts 1 now)
    | Some a => Some (mkAttempts (att_count a + 1) (att_firstAttempt a))
    end.
Proof.
  unfold trackAttempt. destruct (mapGet ip m);
    rewrite mapGet_mapSet, String.eqb_refl; reflexivity.
Qed.

Lemma mapGet_trackAttempt_other (ip ip' : string) (now : nat) (m : AttemptMap) :
  ip <> ip' -> mapGet ip' (trackAttempt ip now m) = mapGet ip' m.
Proof.
  intro N. unfold trackAttempt. apply String.eqb_neq in N.
  destruct (mapGet ip m); now rewrite mapGet_mapSet, N.
Qed.

(** X23.  While an address has five attempts or more on record and fewer
    than fifteen minutes have passed since the first of them, every login
    from it is answered 429 before anything else is looked at, correct
    credentials included, and the record does not change; the wait
    announced is at least one second, and at most 900 when the clock has
    not gone back. *)
Theorem locked_address_is_refused
        (ip : string) (now now' : nat) (attempt : LoginAttempt) (m : AttemptMap)
        (a : Attempts) :
  mapGet ip m = Some a ->
  MAX_ATTEMPTS <= att_count a ->
  now < att_firstAttempt a + LOCK_TIME ->
  login ip now now' attempt m = (429, m)
  /\ exists retryAfter,
       checkRateLimit ip now m = (TooMany retryAfter, m)
       /\ 1 <= retryAfter
       /\ (att_firstAttempt a <= now -> retryAfter <= 900).
Proof.
  intros G C T. unfold login, checkRateLimit. rewrite G.
  apply Nat.leb_le in C. rewrite C.
  pose proof T as T'. apply Nat.ltb_lt in T'. rewrite T'.
  split; [reflexivity|]. eexists. split; [reflexivity|]. split.
  - apply Nat.div_le_lower_bound; lia.
  - intro H. apply Nat.lt_succ_r. apply Nat.Div0.div_lt_upper_bound.
    unfold LOCK_TIME in *. lia.
Qed.

Lemma loginRun_failures (ip : string) (steps : list (nat * nat * LoginAttempt))
      (m : AttemptMap) (a : Attempts) :
  mapGet ip m = Some a ->
  att_count a + List.length steps <= MAX_ATTEMPTS ->
  forallb (fun s => countsAsFailure (snd s)) steps = true ->
  mapGet ip (loginRun ip steps m)
  = Some (mkAttempts (att_count a + List.length steps) (att_firstAttempt a)).
Proof.
  revert m a. induction steps as [|[[now now'] attempt] rest IH]; intros m a G C F.
  - simpl. rewrite Nat.add_0_r. destruct a. exact G.
  - simpl in *. apply andb_true_iff in F as [Fa Fr].
    assert (L : login ip now now' attempt m = (if match attempt with
                                                      | LookupFails => true
                                                      | _ => false
                                                      end then 500 else 401,
                                                trackAttempt ip now' m)).
    { unfold login, checkRateLimit. rewrite G.
      assert (X : (MAX_ATTEMPTS <=? att_count a) = false)
        by (apply Nat.leb_gt; lia).
      rewrite X. destruct attempt; try discriminate; reflexivity. }
    rewrite L. cbn [snd].
    rewrite (IH (trackAttempt ip now' m)
                (mkAttempts (att_count a + 1) (att_firstAttempt a))).
    + simpl. f_equal. f_equal. lia.
    + rewrite mapGet_trackAttempt, G. reflexivity.
    + simpl. lia.
    + exact Fr.
Qed.

(** X24.  Five logins in a row that fail from an address with no record
    lock it: whatever the sixth request brings, correct credentials
    included, it is answered 429 as long as it comes less than fifteen
    minutes after the first of the five, however recent the last one was. *)
Theorem five_failures_lock_the_address
        (ip : string) (m : AttemptMap) (first : nat * nat * LoginAttempt)
        (others : list (nat * nat * LoginAttempt))
        (now now' : nat) (attempt : LoginAttempt) :
  mapGet ip m = None ->
  List.length others = 4 ->
  forallb (fun s => countsAsFailure (snd s)) (first :: others) = true ->
  now < snd (fst first) + LOCK_TIME ->
  mapGet ip (loginRun ip (first :: others) m)
  = Some (mkAttempts 5 (snd (fst first)))
  /\ login ip now now' attempt (loginRun ip (first :: others) m)
     = (429, loginRun ip (first :: others) m).
Proof.
  destruct first as [[n1 t1] a1]. intros G L F T. simpl in F, T.
  apply andb_true_iff in F as [F1 Fr].
  assert (L1 : snd (login ip n1 t1 a1 m) = trackAttempt ip t1 m).
  { unfold login, checkRateLimit. rewrite G.
    destruct a1; try discriminate; reflexivity. }
  assert (R : mapGet ip (loginRun ip ((n1, t1, a1) :: others) m)
              = Some (mkAttempts 5 t1)).
  { cbn [loginRun]. rewrite L1.
    rewrite (loginRun_failures ip others (trackAttempt ip t1 m) (mkAttempts 1 t1)).
    - simpl. now rewrite L.
    - rewrite mapGet_trackAttempt, G. reflexivity.
    - simpl. rewrite L. unfold MAX_ATTEMPTS. lia.
    - exact Fr. }
  split; [exact R|].
  unfold login, checkRateLimit. rewrite R. simpl att_count. simpl att_firstAttempt.
  change (MAX_ATTEMPTS <=? 5) with true. cbv iota.
  apply Nat.ltb_lt in T. rewrite T. reflexivity.
Qed.

Lemma five_failures_lock_the_address_witness :
  mapGet "10.0.0.7" (loginRun "10.0.0.7" fiveFailures [])
  = Some (mkAttempts 5 101)
  /\ login "10.0.0.7" 600 601 Accepted (loginRun "10.0.0.7" fiveFailures [])
     = (429, loginRun "10.0.0.7" fiveFailures []).
Proof.
  apply (five_failures_lock_the_address "10.0.0.7" []
           (100, 101, WrongPassword)
           [ (200, 201, WrongPassword); (300, 301, UnknownUser);
             (400, 401, LookupFails); (500, 501, WrongPassword) ]
           600 601 Accepted).
  - reflexivity.
  - reflexivity.
  - reflexivity.
  - unfold LOCK_TIME. simpl fst. simpl snd. lia.
Defined.

(** X25.  What clears the record of an address, and what does not.  A
    login that is accepted clears it, and so does one whose password
    matched but whose save failed (status 500).  A lock that has run its
    fifteen minutes since the first attempt is lifted: the request goes on
    and a failure then starts a new record at one.  A malformed request
    neither creates nor alters a record: whatever is on record after it was
    on record before (an expired lock is lifted all the same).  And no login
    from one address ever changes the record of another. *)
Theorem throttle_record_resets
        (ip : string) (now now' : nat) (m : AttemptMap) :
  (forall attempt,
      fst (login ip now now' attempt m) = 200 ->
      mapGet ip (snd (login ip now now' attempt m)) = None)
  /\ (fst (login ip now now' SaveFails m) = 500 ->
      mapGet ip (snd (login ip now now' SaveFails m)) = None)
  /\ (forall a, mapGet ip m = Some a -> MAX_ATTEMPTS <= att_count a ->
                att_firstAttempt a + LOCK_TIME <= now ->
                login ip now now' WrongPassword m
                = (401, trackAttempt ip now' (mapDelete ip m))
                /\ mapGet ip (snd (login ip now now' WrongPassword m))
                   = Some (mkAttempts 1 now'))
  /\ (forall a, mapGet ip (snd (login ip now now' Malformed m)) = Some a ->
                mapGet ip m = Some a)
  /\ (forall attempt ip', ip <> ip' ->
                          mapGet ip' (snd (login ip now now' attempt m))
                          = mapGet ip' m).
Proof.
  assert (Check : forall ip',
             mapGet ip' (snd (checkRateLimit ip now m))
             = (if String.eqb ip ip'
                then match fst (checkRateLimit ip now m) with
                     | TooMany _ => mapGet ip' m
                     | Proceed =>
                         match mapGet ip m with
                         | Some a =>
                             if MAX_ATTEMPTS <=? att_count a then None
                             else mapGet ip' m
                         | None => mapGet ip' m
                         end
                     end
                else mapGet ip' m)).
  { intro ip'. unfold checkRateLimit.
    destruct (mapGet ip m) as [a|] eqn:G; cbn [fst snd];
      [|destruct (String.eqb ip ip'); reflexivity].
    destruct (MAX_ATTEMPTS <=? att_count a); cbn [fst snd];
      [|destruct (String.eqb ip ip'); reflexivity].
    destruct (now <? att_firstAttempt a + LOCK_TIME); cbn [fst snd].
    - destruct (String.eqb ip ip'); reflexivity.
    - rewrite mapGet_mapDelete. destruct (String.eqb ip ip'); reflexivity. }
  split; [|split; [|split; [|split]]].
  - intros attempt. unfold login.
    destruct (checkRateLimit ip now m) as [[r|] m1]; simpl; [discriminate|].
    destruct attempt; simpl; try discriminate.
    intros _. now rewrite mapGet_mapDelete, String.eqb_refl.
  - unfold login.
    destruct (checkRateLimit ip now m) as [[r|] m1]; simpl; [discriminate|].
    intros _. now rewrite mapGet_mapDelete, String.eqb_refl.
  - intros a G C T. unfold login, checkRateLimit. rewrite G.
    apply Nat.leb_le in C. rewrite C.
    assert (X : (now <? att_firstAttempt a + LOCK_TIME) = false)
      by (apply Nat.ltb_ge; exact T).
    rewrite X. split; [reflexivity|]. simpl.
    now rewrite mapGet_trackAttempt, mapGet_mapDelete, String.eqb_refl.
  - intros a. unfold login. specialize (Check ip).
    rewrite String.eqb_refl in Check.
    destruct (checkRateLimit ip now m) as [[r|] m1] eqn:E; cbn [fst snd] in *;
      rewrite Check; [auto|].
    destruct (mapGet ip m) as [b|]; [|discriminate].
    destruct (MAX_ATTEMPTS <=? att_count b); [discriminate | auto].
  - intros attempt ip' N. specialize (Check ip').
    apply String.eqb_neq in N. rewrite N in Check.
    unfold login.
    destruct (checkRateLimit ip now m) as [[r|] m1]; cbn [fst snd] in *;
      [exact Check|].
    pose proof N as N'. apply String.eqb_neq in N'.
    destruct attempt; cbn [fst snd];
      rewrite ?mapGet_mapDelete, ?N, ?mapGet_trackAttempt_other by exact N';
      exact Check.
Qed.

Lemma locked_address_is_refused_witness :
  login "10.0.0.7" 600 601 Accepted (loginRun "10.0.0.7" fiveFailures [])
  = (429, loginRun "10.0.0.7" fiveFailures [])
  /\ exists retryAfter,
       checkRateLimit "10.0.0.7" 600 (loginRun "10.0.0.7" fiveFailures [])
       = (TooMany retryAfter, loginRun "10.0.0.7" fiveFailures [])
       /\ 1 <= retryAfter
       /\ (att_firstAttempt (mkAttempts 5 101) <= 600 -> retryAfter <= 900).
Proof.
  apply (locked_address_is_refused "10.0.0.7" 600 601 Accepted
           (loginRun "10.0.0.7" fiveFailures []) (mkAttempts 5 101)).
  - reflexivity.
  - unfold MAX_ATTEMPTS. simpl. lia.
  - unfold LOCK_TIME. simpl att_firstAttempt. lia.
Defined.

(** ** Quick replies, in full *)

Lemma lastUnit_append (a b : string) :
  b <> "" -> lastUnit (a ++ b) = lastUnit b.
Proof.
  intro H. induction a as [|c r IH]; simpl; [reflexivity|].
  destruct (r ++ b) as [|d r'] eqn:E; [|exact IH].
  destruct r; simpl in E; [congruence | discriminate].
Qed.

Lemma labelOf_not_default (c : string) : ~ In (labelOf c) (map Text defaultReplies).
Proof.
  unfold labelOf.
  destruct (assoc c labels) as [l|] eqn:A.
  - unfold labels in A. simpl in A.
    repeat match type of A with
           | (if ?b then _ else _) = _ => destruct b
           end;
      try discriminate; injection A as <-; simpl; intuition discriminate.
  - destruct (existsb (String.eqb c) prototypeKeys).
    + simpl. intuition discriminate.
    + intro H. simpl in H.
      assert (L : lastUnit (c ++ " info") = Some "o"%char)
        by (rewrite lastUnit_append; [reflexivity | discriminate]).
      destruct H as [H | [H | [H | [H | []]]]]; injection H as H;
        rewrite <- H in L; discriminate L.
Qed.

Lemma generateQuickReplies_defaults_only (q : string) (rs : list KnowledgeDoc)
      (role : string) :
  firstCategory rs = None ->
  generateQuickReplies q rs role = map Text defaultReplies.
Proof.
  unfold firstCategory, generateQuickReplies, categoriesOf. intro H.
  destruct (filter Js.truthy (map doc_category rs)); [reflexivity | discriminate].
Qed.

(** X26.  The quick replies are always the four default questions, in
    their order, followed by at most one more entry: the label of the first
    category the results carry, if they carry any.  The labels of further
    categories never make it into the list, and neither the query nor the
    role has any influence. *)
Theorem quick_replies_are_defaults_and_first_label
        (q : string) (rs : list KnowledgeDoc) (role : string) :
  generateQuickReplies q rs role
  = (map Text defaultReplies
     ++ match firstCategory rs with
        | Some c => [labelOf c]
        | None => []
        end)%list
  /\ forall q' role', generateQuickReplies q' rs role' = generateQuickReplies q rs role.
Proof.
  split.
  - destruct (firstCategory rs) as [c|] eqn:F.
    + apply generateQuickReplies_first; [exact F | apply labelOf_not_default].
    + rewrite app_nil_r. now apply generateQuickReplies_defaults_only.
  - reflexivity.
Qed.
